(** * tiscamera: pipeline manager and caps negotiation

    A shallow embedding of
      - [src/gstreamer-1.0/tcamgstbase.cpp]: the fourcc classification,
        [find_preferred_format], [tcam_gst_find_largest_caps],
        [find_input_caps] and [find_input_caps_dutils];
      - [src/PipelineManager.cpp]: the state machine, the construction of the
        filter chain and the buffer queue drained by the pipeline thread;
      - [src/CaptureDeviceImpl.cpp]: opening and closing a device, starting
        and stopping the stream.

    32-bit codes are [Z]; C++ containers are lists; [std::shared_ptr]s that
    may be null are [option]s; calls on collaborators whose code is outside
    the translated files are recorded in a log and answered by the
    collaborator's behaviour, which is part of the state. *)

From Stdlib Require Import ZArith Lia Bool Ascii String Sorted.
From stdpp Require Import base list.

Local Open Scope string_scope.
Local Open Scope Z_scope.

(* ===================================================================== *)
(** ** Fourcc codes and the preferred-format ranking                      *)
(* ===================================================================== *)

Module Fourcc.

(** [GST_MAKE_FOURCC(a,b,c,d)]:
    [a | b << 8 | c << 16 | d << 24] on 32-bit unsigned values. *)
Definition GST_MAKE_FOURCC (a b c d : ascii) : Z :=
  Z.lor (Z.lor (Z.lor (Z.of_nat (nat_of_ascii a))
                      (Z.shiftl (Z.of_nat (nat_of_ascii b)) 8))
               (Z.shiftl (Z.of_nat (nat_of_ascii c)) 16))
        (Z.shiftl (Z.of_nat (nat_of_ascii d)) 24).

(** The names of the [FOURCC_*] constants that [tcamgstbase.cpp] compares
    against.  Their values live in [dutils_img/image_fourcc.h]. *)
Inductive name : Type :=
| FOURCC_GBRG8 | FOURCC_GRBG8 | FOURCC_RGGB8 | FOURCC_BGGR8
| FOURCC_GBRG10 | FOURCC_GRBG10 | FOURCC_RGGB10 | FOURCC_BGGR10
| FOURCC_GBRG10_SPACKED | FOURCC_GRBG10_SPACKED
| FOURCC_RGGB10_SPACKED | FOURCC_BGGR10_SPACKED
| FOURCC_GBRG10_MIPI_PACKED | FOURCC_GRBG10_MIPI_PACKED
| FOURCC_RGGB10_MIPI_PACKED | FOURCC_BGGR10_MIPI_PACKED
| FOURCC_GBRG12 | FOURCC_GRBG12 | FOURCC_RGGB12 | FOURCC_BGGR12
| FOURCC_GBRG12_MIPI_PACKED | FOURCC_GRBG12_MIPI_PACKED
| FOURCC_RGGB12_MIPI_PACKED | FOURCC_BGGR12_MIPI_PACKED
| FOURCC_GBRG12_SPACKED | FOURCC_GRBG12_SPACKED
| FOURCC_RGGB12_SPACKED | FOURCC_BGGR12_SPACKED
| FOURCC_GBRG12_PACKED | FOURCC_GRBG12_PACKED
| FOURCC_RGGB12_PACKED | FOURCC_BGGR12_PACKED
| FOURCC_GBRG16 | FOURCC_GRBG16 | FOURCC_RGGB16 | FOURCC_BGGR16
| FOURCC_YUY2 | FOURCC_UYVY | FOURCC_IYU1 | FOURCC_IYU2
| FOURCC_Y411 | FOURCC_NV12
| FOURCC_BGR24 | FOURCC_BGRA32 | FOURCC_BGRA64
| FOURCC_PWL_RG12_MIPI | FOURCC_PWL_RG12 | FOURCC_PWL_RG16H12
| FOURCC_POLARIZATION_MONO8_90_45_135_0
| FOURCC_POLARIZATION_MONO16_90_45_135_0
| FOURCC_POLARIZATION_MONO12_SPACKED_90_45_135_0
| FOURCC_POLARIZATION_MONO12_PACKED_90_45_135_0
| FOURCC_POLARIZATION_ADI_PLANAR_MONO8
| FOURCC_POLARIZATION_ADI_PLANAR_MONO16
| FOURCC_POLARIZATION_ADI_MONO8 | FOURCC_POLARIZATION_ADI_MONO16
| FOURCC_POLARIZATION_PACKED8 | FOURCC_POLARIZATION_PACKED16
| FOURCC_POLARIZATION_BG8_90_45_135_0
| FOURCC_POLARIZATION_BG16_90_45_135_0
| FOURCC_POLARIZATION_BG12_SPACKED_90_45_135_0
| FOURCC_POLARIZATION_BG12_PACKED_90_45_135_0
| FOURCC_POLARIZATION_PACKED8_BAYER_BG
| FOURCC_POLARIZATION_PACKED16_BAYER_BG
| FOURCC_MJPG | FOURCC_Y800 | FOURCC_Y16.

(** [std::map<int, uint32_t>]: an association list kept in increasing key
    order; [map\[k\] = v] inserts or overwrites, [map.begin()] is the head. *)
Definition rank_map := list (Z * Z).

Fixpoint map_assign (k v : Z) (m : rank_map) : rank_map :=
  match m with
  | [] => [(k, v)]
  | (k', v') :: m' =>
      if k <? k' then (k, v) :: m
      else if k =? k' then (k, v) :: m'
      else (k', v') :: map_assign k v m'
  end.

Definition map_begin (m : rank_map) : option (Z * Z) := head m.

Section Table.

(** The header's table of constants, taken as a parameter. *)
Variable code : name -> Z.

Definition tcam_gst_is_fourcc_bayer (fourcc : Z) : bool :=
  (fourcc =? code FOURCC_GBRG8) || (fourcc =? code FOURCC_GRBG8)
  || (fourcc =? code FOURCC_RGGB8) || (fourcc =? code FOURCC_BGGR8).

Definition tcam_gst_is_bayer10_fourcc (fourcc : Z) : bool :=
  (fourcc =? code FOURCC_GBRG10) || (fourcc =? code FOURCC_GRBG10)
  || (fourcc =? code FOURCC_RGGB10) || (fourcc =? code FOURCC_BGGR10).

Definition tcam_gst_is_bayer10_packed_fourcc (fourcc : Z) : bool :=
  (fourcc =? code FOURCC_GBRG10_SPACKED)
  || (fourcc =? code FOURCC_GRBG10_SPACKED)
  || (fourcc =? code FOURCC_RGGB10_SPACKED)
  || (fourcc =? code FOURCC_BGGR10_SPACKED)
  || (fourcc =? code FOURCC_GBRG10_MIPI_PACKED)
  || (fourcc =? code FOURCC_GRBG10_MIPI_PACKED)
  || (fourcc =? code FOURCC_RGGB10_MIPI_PACKED)
  || (fourcc =? code FOURCC_BGGR10_MIPI_PACKED).

Definition tcam_gst_is_bayer12_fourcc (fourcc : Z) : bool :=
  (fourcc =? code FOURCC_GBRG12) || (fourcc =? code FOURCC_GRBG12)
  || (fourcc =? code FOURCC_RGGB12) || (fourcc =? code FOURCC_BGGR12).

Definition tcam_gst_is_bayer12_packed_fourcc (fourcc : Z) : bool :=
  (fourcc =? code FOURCC_GBRG12_MIPI_PACKED)
  || (fourcc =? code FOURCC_GRBG12_MIPI_PACKED)
  || (fourcc =? code FOURCC_RGGB12_MIPI_PACKED)
  || (fourcc =? code FOURCC_BGGR12_MIPI_PACKED)
  || (fourcc =? code FOURCC_GBRG12_SPACKED)
  || (fourcc =? code FOURCC_GRBG12_SPACKED)
  || (fourcc =? code FOURCC_RGGB12_SPACKED)
  || (fourcc =? code FOURCC_BGGR12_SPACKED)
  || (fourcc =? code FOURCC_GBRG12_PACKED)
  || (fourcc =? code FOURCC_GRBG12_PACKED)
  || (fourcc =? code FOURCC_RGGB12_PACKED)
  || (fourcc =? code FOURCC_BGGR12_PACKED).

Definition tcam_gst_is_bayer16_fourcc (fourcc : Z) : bool :=
  (fourcc =? code FOURCC_GBRG16) || (fourcc =? code FOURCC_GRBG16)
  || (fourcc =? code FOURCC_RGGB16) || (fourcc =? code FOURCC_BGGR16).

Definition tcam_gst_is_fourcc_yuv (fourcc : Z) : bool :=
  (fourcc =? code FOURCC_YUY2) || (fourcc =? code FOURCC_UYVY)
  || (fourcc =? code FOURCC_IYU1) || (fourcc =? code FOURCC_IYU2)
  || (fourcc =? code FOURCC_Y411) || (fourcc =? code FOURCC_NV12).

Definition tcam_gst_is_fourcc_rgb (fourcc : Z) : bool :=
  (fourcc =? GST_MAKE_FOURCC "R" "G" "B" "x")
  || (fourcc =? GST_MAKE_FOURCC "x" "R" "G" "B")
  || (fourcc =? GST_MAKE_FOURCC "B" "G" "R" "x")
  || (fourcc =? GST_MAKE_FOURCC "x" "B" "G" "R")
  || (fourcc =? GST_MAKE_FOURCC "R" "G" "B" "A")
  || (fourcc =? GST_MAKE_FOURCC "A" "R" "G" "B")
  || (fourcc =? GST_MAKE_FOURCC "B" "G" "R" "A")
  || (fourcc =? GST_MAKE_FOURCC "A" "B" "G" "R")
  || (fourcc =? code FOURCC_BGR24)
  || (fourcc =? code FOURCC_BGRA32) || (fourcc =? code FOURCC_BGRA64).

Definition tcam_gst_is_bayerpwl_fourcc (fourcc : Z) : bool :=
  (fourcc =? code FOURCC_PWL_RG12_MIPI)
  || (fourcc =? code FOURCC_PWL_RG12)
  || (fourcc =? code FOURCC_PWL_RG16H12).

Definition tcam_gst_is_polarized_mono (fourcc : Z) : bool :=
  (fourcc =? code FOURCC_POLARIZATION_MONO8_90_45_135_0)
  || (fourcc =? code FOURCC_POLARIZATION_MONO16_90_45_135_0)
  || (fourcc =? code FOURCC_POLARIZATION_MONO12_SPACKED_90_45_135_0)
  || (fourcc =? code FOURCC_POLARIZATION_MONO12_PACKED_90_45_135_0)
  || (fourcc =? code FOURCC_POLARIZATION_ADI_PLANAR_MONO8)
  || (fourcc =? code FOURCC_POLARIZATION_ADI_PLANAR_MONO16)
  || (fourcc =? code FOURCC_POLARIZATION_ADI_MONO8)
  || (fourcc =? code FOURCC_POLARIZATION_ADI_MONO16)
  || (fourcc =? code FOURCC_POLARIZATION_PACKED8)
  || (fourcc =? code FOURCC_POLARIZATION_PACKED16).

Definition tcam_gst_is_polarized_bayer (fourcc : Z) : bool :=
  (fourcc =? code FOURCC_POLARIZATION_BG8_90_45_135_0)
  || (fourcc =? code FOURCC_POLARIZATION_BG16_90_45_135_0)
  || (fourcc =? code FOURCC_POLARIZATION_BG12_SPACKED_90_45_135_0)
  || (fourcc =? code FOURCC_POLARIZATION_BG12_PACKED_90_45_135_0)
  || (fourcc =? code FOURCC_POLARIZATION_PACKED8_BAYER_BG)
  || (fourcc =? code FOURCC_POLARIZATION_PACKED16_BAYER_BG).

(** One turn of the [for (const auto& fourcc : vec)] loop of
    [find_preferred_format]: the chain of [if]/[else if] with its
    [map\[k\] = fourcc] assignments; the final [else] only logs. *)
Definition rank_step (m : rank_map) (fourcc : Z) : rank_map :=
  if tcam_gst_is_fourcc_bayer fourcc then map_assign 0 fourcc m
  else if tcam_gst_is_fourcc_rgb fourcc then map_assign 10 fourcc m
  else if tcam_gst_is_fourcc_yuv fourcc then map_assign 20 fourcc m
  else if fourcc =? code FOURCC_MJPG then map_assign 30 fourcc m
  else if fourcc =? code FOURCC_Y800 then map_assign 40 fourcc m
  else if fourcc =? code FOURCC_Y16 then map_assign 50 fourcc m
  else if tcam_gst_is_bayerpwl_fourcc fourcc then map_assign 60 fourcc m
  else if tcam_gst_is_bayer10_fourcc fourcc
          || tcam_gst_is_bayer10_packed_fourcc fourcc
       then map_assign 65 fourcc m
  else if tcam_gst_is_bayer12_fourcc fourcc
          || tcam_gst_is_bayer12_packed_fourcc fourcc
       then map_assign 70 fourcc m
  else if tcam_gst_is_bayer16_fourcc fourcc then map_assign 80 fourcc m
  else if tcam_gst_is_polarized_bayer fourcc then map_assign 90 fourcc m
  else if tcam_gst_is_polarized_mono fourcc then map_assign 100 fourcc m
  else m.

Definition find_preferred_format (vec : list Z) : Z :=
  match vec with
  | [] => 0
  | _ =>
      match map_begin (fold_left rank_step vec []) with
      | None => 0
      | Some (_, fourcc) => fourcc
      end
  end.

(** The key under which [rank_step] files a fourcc, [None] when the final
    [else] is reached. *)
Definition rank (fourcc : Z) : option Z :=
  if tcam_gst_is_fourcc_bayer fourcc then Some 0
  else if tcam_gst_is_fourcc_rgb fourcc then Some 10
  else if tcam_gst_is_fourcc_yuv fourcc then Some 20
  else if fourcc =? code FOURCC_MJPG then Some 30
  else if fourcc =? code FOURCC_Y800 then Some 40
  else if fourcc =? code FOURCC_Y16 then Some 50
  else if tcam_gst_is_bayerpwl_fourcc fourcc then Some 60
  else if tcam_gst_is_bayer10_fourcc fourcc
          || tcam_gst_is_bayer10_packed_fourcc fourcc
       then Some 65
  else if tcam_gst_is_bayer12_fourcc fourcc
          || tcam_gst_is_bayer12_packed_fourcc fourcc
       then Some 70
  else if tcam_gst_is_bayer16_fourcc fourcc then Some 80
  else if tcam_gst_is_polarized_bayer fourcc then Some 90
  else if tcam_gst_is_polarized_mono fourcc then Some 100
  else None.

(** The ranking as the specification words it: the same classes, with
    16-bit mono placed before 8-bit mono and the 10- and 12-bit Bayer
    classes sharing one level. *)
Definition spec_rank (fourcc : Z) : option Z :=
  if tcam_gst_is_fourcc_bayer fourcc then Some 0
  else if tcam_gst_is_fourcc_rgb fourcc then Some 10
  else if tcam_gst_is_fourcc_yuv fourcc then Some 20
  else if fourcc =? code FOURCC_MJPG then Some 30
  else if fourcc =? code FOURCC_Y16 then Some 40
  else if fourcc =? code FOURCC_Y800 then Some 50
  else if tcam_gst_is_bayerpwl_fourcc fourcc then Some 60
  else if tcam_gst_is_bayer10_fourcc fourcc
          || tcam_gst_is_bayer10_packed_fourcc fourcc
          || tcam_gst_is_bayer12_fourcc fourcc
          || tcam_gst_is_bayer12_packed_fourcc fourcc
       then Some 70
  else if tcam_gst_is_bayer16_fourcc fourcc then Some 80
  else if tcam_gst_is_polarized_bayer fourcc then Some 90
  else if tcam_gst_is_polarized_mono fourcc then Some 100
  else None.

(** [picked rk vec r]: [r] is what a ranking [rk] selects from [vec]: an
    element of [vec] of least rank when some element is ranked, and [0]
    when none is. *)
Definition picked (rk : Z -> option Z) (vec : list Z) (r : Z) : Prop :=
  (Exists (fun x => rk x <> None) vec ->
     In r vec /\ exists k, rk r = Some k /\
       forall x k', In x vec -> rk x = Some k' -> k <= k')
  /\ (Forall (fun x => rk x = None) vec -> r = 0).

End Table.

(** What the head of the map records about the fourccs seen so far. *)
Definition best_of (rk : Z -> option Z) (seen : list Z) (m : rank_map) : Prop :=
  match map_begin m with
  | None => Forall (fun x => rk x = None) seen
  | Some (k, v) =>
      In v seen /\ rk v = Some k /\
      forall x k', In x seen -> rk x = Some k' -> k <= k'
  end.

(** The fourcc has no rank below [k]; the fourcc has no rank up to [k]. *)
Definition rank_at_least (code : name -> Z) (k y : Z) : bool :=
  match rank code y with Some k' => k <=? k' | None => true end.

Definition rank_above (code : name -> Z) (k y : Z) : bool :=
  match rank code y with Some k' => k <? k' | None => true end.

End Fourcc.

(* ===================================================================== *)
(** ** GStreamer caps as the negotiation code sees them                   *)
(* ===================================================================== *)

Module Gst.

(** The [GValue]s that occur in the caps of a camera: fixed values, ranges
    and [GST_TYPE_LIST]s of them. *)
Inductive GValue : Type :=
| VInt (n : Z)
| VIntRange (lo hi : Z)
| VIntList (l : list Z)
| VString (s : string)
| VStringList (l : list string)
| VFraction (num den : Z)
| VFractionRange (lo hi : Z * Z)
| VFractionList (l : list (Z * Z)).

Inductive GType : Type :=
| G_TYPE_INVALID | G_TYPE_INT | G_TYPE_STRING | GST_TYPE_LIST
| GST_TYPE_INT_RANGE | GST_TYPE_FRACTION | GST_TYPE_FRACTION_RANGE.

Definition G_VALUE_TYPE (v : GValue) : GType :=
  match v with
  | VInt _ => G_TYPE_INT
  | VIntRange _ _ => GST_TYPE_INT_RANGE
  | VString _ => G_TYPE_STRING
  | VFraction _ _ => GST_TYPE_FRACTION
  | VFractionRange _ _ => GST_TYPE_FRACTION_RANGE
  | VIntList _ | VStringList _ | VFractionList _ => GST_TYPE_LIST
  end.

Definition GType_eqb (a b : GType) : bool :=
  match a, b with
  | G_TYPE_INVALID, G_TYPE_INVALID | G_TYPE_INT, G_TYPE_INT
  | G_TYPE_STRING, G_TYPE_STRING | GST_TYPE_LIST, GST_TYPE_LIST
  | GST_TYPE_INT_RANGE, GST_TYPE_INT_RANGE
  | GST_TYPE_FRACTION, GST_TYPE_FRACTION
  | GST_TYPE_FRACTION_RANGE, GST_TYPE_FRACTION_RANGE => true
  | _, _ => false
  end.

(** A [GstStructure]: a media-type name and named fields; a [GstCaps] is an
    ordered list of structures (the ANY caps are not represented: a device
    reports a concrete list). *)
Record GstStructure : Type := mkStructure {
  st_name : string;
  st_fields : list (string * GValue)
}.

Definition GstCaps := list GstStructure.

Definition G_MAXINT : Z := 2147483647.

(** *** The accessors of the GStreamer API used by the source *)

Fixpoint assoc_get (f : string) (fs : list (string * GValue)) : option GValue :=
  match fs with
  | [] => None
  | (k, v) :: fs' => if String.eqb k f then Some v else assoc_get f fs'
  end.

Fixpoint assoc_set (f : string) (v : GValue) (fs : list (string * GValue))
  : list (string * GValue) :=
  match fs with
  | [] => [(f, v)]
  | (k, w) :: fs' =>
      if String.eqb k f then (k, v) :: fs' else (k, w) :: assoc_set f v fs'
  end.

Definition gst_structure_get_value (s : GstStructure) (f : string) : option GValue :=
  assoc_get f (st_fields s).

Definition gst_structure_has_field (s : GstStructure) (f : string) : bool :=
  match gst_structure_get_value s f with Some _ => true | None => false end.

Definition gst_structure_get_field_type (s : GstStructure) (f : string) : GType :=
  match gst_structure_get_value s f with
  | Some v => G_VALUE_TYPE v
  | None => G_TYPE_INVALID
  end.

(** [NULL] unless the field holds a string. *)
Definition gst_structure_get_string (s : GstStructure) (f : string) : option string :=
  match gst_structure_get_value s f with
  | Some (VString x) => Some x
  | _ => None
  end.

(** [FALSE], the destination untouched, unless the field holds an int. *)
Definition gst_structure_get_int (s : GstStructure) (f : string) : option Z :=
  match gst_structure_get_value s f with
  | Some (VInt x) => Some x
  | _ => None
  end.

Definition gst_structure_get_fraction (s : GstStructure) (f : string) : option (Z * Z) :=
  match gst_structure_get_value s f with
  | Some (VFraction n d) => Some (n, d)
  | _ => None
  end.

Definition gst_structure_set_value (s : GstStructure) (f : string) (v : GValue)
  : GstStructure :=
  mkStructure (st_name s) (assoc_set f v (st_fields s)).

Definition gst_structure_set_name (s : GstStructure) (n : string) : GstStructure :=
  mkStructure n (st_fields s).

Definition gst_structure_remove_field (s : GstStructure) (f : string) : GstStructure :=
  mkStructure (st_name s)
    (List.filter (fun kv => negb (String.eqb (fst kv) f)) (st_fields s)).

Definition gst_caps_is_empty (caps : GstCaps) : bool :=
  match caps with [] => true | _ => false end.

Definition gst_caps_set_value (caps : GstCaps) (f : string) (v : GValue) : GstCaps :=
  map (fun s => gst_structure_set_value s f v) caps.

Definition gst_caps_copy_nth (caps : GstCaps) (n : nat) : GstCaps :=
  match caps !! n with Some s => [s] | None => [] end.

Definition value_is_fixed (v : GValue) : bool :=
  match v with
  | VInt _ | VString _ | VFraction _ _ => true
  | _ => false
  end.

(** Fixed caps: exactly one structure, every field of which is fixed. *)
Definition gst_caps_is_fixed (caps : GstCaps) : bool :=
  match caps with
  | [s] => forallb (fun kv => value_is_fixed (snd kv)) (st_fields s)
  | _ => false
  end.

(** The element of a list nearest to [target]; the first one wins a tie. *)
Definition nearest_int (target : Z) (l : list Z) : option Z :=
  fold_left (fun best x =>
               match best with
               | None => Some x
               | Some b => if Z.abs (target - x) <? Z.abs (target - b)
                           then Some x else best
               end) l None.

(** [|t - n/d|] compared by cross-multiplication, denominators positive. *)
Definition frac_dist_lt (t : Z) (x b : Z * Z) : bool :=
  Z.abs (t * snd x - fst x) * snd b <? Z.abs (t * snd b - fst b) * snd x.

Definition nearest_fraction (t : Z) (l : list (Z * Z)) : option (Z * Z) :=
  fold_left (fun best x =>
               match best with
               | None => Some x
               | Some b => if frac_dist_lt t x b then Some x else best
               end) l None.

Definition frac_le (a b : Z * Z) : bool := fst a * snd b <=? fst b * snd a.

(** [gst_structure_fixate_field_nearest_int]: a range is clamped to, a list
    searched for, the value nearest to [target]; any other field is left. *)
Definition gst_structure_fixate_field_nearest_int
    (s : GstStructure) (f : string) (target : Z) : GstStructure :=
  match gst_structure_get_value s f with
  | Some (VIntRange lo hi) =>
      gst_structure_set_value s f (VInt (Z.max lo (Z.min hi target)))
  | Some (VIntList l) =>
      match nearest_int target l with
      | Some x => gst_structure_set_value s f (VInt x)
      | None => s
      end
  | _ => s
  end.

(** [gst_structure_fixate_field_nearest_fraction] towards [num/1]. *)
Definition gst_structure_fixate_field_nearest_fraction
    (s : GstStructure) (f : string) (num : Z) : GstStructure :=
  match gst_structure_get_value s f with
  | Some (VFractionRange lo hi) =>
      let t := (num, 1) in
      let x := if frac_le t lo then lo else if frac_le hi t then hi else t in
      gst_structure_set_value s f (VFraction (fst x) (snd x))
  | Some (VFractionList l) =>
      match nearest_fraction num l with
      | Some x => gst_structure_set_value s f (VFraction (fst x) (snd x))
      | None => s
      end
  | _ => s
  end.

(** An element factory with the caps of its static pad templates. *)
Record GstElementFactory : Type := mkFactory {
  factory_name : string;
  sink_template : GstCaps;
  src_template : GstCaps
}.

(** What the translated functions call but the translated files do not
    define: the GStreamer library, its registry of element factories, and
    [tcam_fourcc_from_gst_1_0_caps_string] of [tcamgststrings]. *)
Record GstLib : Type := mkLib {
  tcam_fourcc_from_gst_1_0_caps_string : string -> option string -> Z;
  gst_caps_intersect : GstCaps -> GstCaps -> GstCaps;
  gst_caps_from_string : string -> GstCaps;
  gst_element_factory_find : string -> option GstElementFactory;
  gst_element_factory_can_src_any_caps : GstElementFactory -> GstCaps -> bool;
  gst_element_factory_can_sink_any_caps : GstElementFactory -> GstCaps -> bool;
  (** [gst_element_factory_make] followed by [gst_pad_query_caps] on the
      named static pad; [None] when the element cannot be made. *)
  element_pad_caps : string -> string -> option GstCaps
}.

(** A function that may read a local the source never initialised. *)
Inductive returned (A : Type) : Type :=
| Returns (a : A)
| Indeterminate.
Arguments Returns {A} a.
Arguments Indeterminate {A}.

End Gst.

(* ===================================================================== *)
(** ** [tcamgstbase.cpp]: largest caps and input caps                     *)
(* ===================================================================== *)

Module GstBase.
Import Gst.

(** [struct input_caps_required_modules]. *)
Record input_caps_required_modules : Type := mkModules {
  bayertransform : bool;
  bayer2rgb : bool;
  videoconvert : bool;
  jpegdec : bool;
  dutils : bool
}.

(** The two toggles of [struct input_caps_toggles] that the function reads. *)
Record input_caps_toggles : Type := mkToggles {
  use_dutils : bool;
  use_by1xtransform : bool
}.

Definition reset_input_caps_modules (modules : input_caps_required_modules)
  : input_caps_required_modules :=
  mkModules false false false false false.

Definition set_bayertransform (m : input_caps_required_modules) :=
  mkModules true (bayer2rgb m) (videoconvert m) (jpegdec m) (dutils m).
Definition set_bayer2rgb (m : input_caps_required_modules) :=
  mkModules (bayertransform m) true (videoconvert m) (jpegdec m) (dutils m).
Definition set_videoconvert (m : input_caps_required_modules) :=
  mkModules (bayertransform m) (bayer2rgb m) true (jpegdec m) (dutils m).
Definition set_jpegdec (m : input_caps_required_modules) :=
  mkModules (bayertransform m) (bayer2rgb m) (videoconvert m) true (dutils m).
Definition set_dutils (m : input_caps_required_modules) :=
  mkModules (bayertransform m) (bayer2rgb m) (videoconvert m) (jpegdec m) true.

(** No module is required: the stage list is empty. *)
Definition no_module (m : input_caps_required_modules) : bool :=
  negb (bayertransform m || bayer2rgb m || videoconvert m || jpegdec m || dutils m).

(** [std::sort] followed by [erase(unique(...))], on fourccs and on strings. *)
Fixpoint insert_sorted {A} (leb : A -> A -> bool) (x : A) (l : list A) : list A :=
  match l with
  | [] => [x]
  | y :: l' => if leb x y then x :: l else y :: insert_sorted leb x l'
  end.

Definition std_sort {A} (leb : A -> A -> bool) (l : list A) : list A :=
  fold_right (insert_sorted leb) [] l.

Fixpoint std_unique {A} (eqb : A -> A -> bool) (l : list A) : list A :=
  match l with
  | [] => []
  | x :: l' =>
      match l' with
      | [] => [x]
      | y :: _ => if eqb x y then std_unique eqb l' else x :: std_unique eqb l'
      end
  end.

Definition gst_list_to_vector (gst_list : option GValue) : list string :=
  match gst_list with
  | Some (VStringList l) => l
  | _ => []
  end.

Definition correct_format (str : option string) : bool :=
  match str with
  | None => false
  | Some s =>
      existsb (String.eqb s)
        ["GRAY8"; "GRAY16_LE"; "GRAY16_BE"; "GRAY12p"; "GRAY10p"; "GRAY12m"; "GRAY10m"]
  end.

Definition tcam_gst_raw_only_has_mono (caps : option GstCaps) : bool :=
  match caps with
  | None => false
  | Some c =>
      forallb (fun struc =>
        if String.eqb "video/x-raw" (st_name struc) then
          if gst_structure_has_field struc "format" then
            match gst_structure_get_field_type struc "format" with
            | G_TYPE_STRING => correct_format (gst_structure_get_string struc "format")
            | GST_TYPE_LIST =>
                forallb (fun fmt => correct_format (Some fmt))
                  (gst_list_to_vector (gst_structure_get_value struc "format"))
            | _ => true
            end
          else false
        else false) c
  end.

(** [gst_caps_change_name]: every structure is renamed and loses its
    ["format"] field. *)
Definition gst_caps_change_name (caps : GstCaps) (name : string) : GstCaps :=
  map (fun struc =>
         gst_structure_remove_field (gst_structure_set_name struc name) "format") caps.

(** The loop [gst_structure_remove_field(..., "format")] over all structures. *)
Definition remove_format (caps : GstCaps) : GstCaps :=
  map (fun struc => gst_structure_remove_field struc "format") caps.

(** [is_really_empty_caps] on the null pointer and on caps that list their
    structures, which print as ["EMPTY"] exactly when they have none; the
    ANY caps are added by [is_really_empty_caps_any] below. *)
Definition is_really_empty_caps (caps : option GstCaps) : bool :=
  match caps with
  | None => true
  | Some c => gst_caps_is_empty c
  end.

(** [tcam_gst_fixate_caps]: [None] where it returns [FALSE], the caps after
    the call otherwise.  Its one caller passes [gst_caps_copy_nth] of caps
    that list their structures, never the ANY caps. *)
Definition tcam_gst_fixate_caps (caps : option GstCaps) : option GstCaps :=
  match caps with
  | None | Some [] => None
  | Some (structure :: rest) =>
      let s1 := if gst_structure_has_field structure "width"
                then gst_structure_fixate_field_nearest_int structure "width" G_MAXINT
                else structure in
      let s2 := if gst_structure_has_field s1 "height"
                then gst_structure_fixate_field_nearest_int s1 "height" G_MAXINT
                else s1 in
      let s3 := if gst_structure_has_field s2 "framerate"
                then gst_structure_fixate_field_nearest_fraction s2 "framerate" G_MAXINT
                else s2 in
      Some (s3 :: rest)
  end.

(** The three locals the search loop of [tcam_gst_find_largest_caps]
    carries from one structure to the next. *)
Record largest : Type := mkLargest {
  largest_index : nat;
  largest_width : Z;
  largest_height : Z
}.

Section WithLibrary.

Variable code : Fourcc.name -> Z.
Variable lib : GstLib.

Definition add_format (name : string) (fmt : string) : list Z :=
  let fourcc := tcam_fourcc_from_gst_1_0_caps_string lib name (Some fmt) in
  if negb (fourcc =? 0) then [fourcc] else [].

Definition index_format_fourccs (caps : option GstCaps) : list Z :=
  if is_really_empty_caps caps then []
  else
    let ret :=
      flat_map (fun struc =>
        let vec :=
          match gst_structure_get_field_type struc "format" with
          | GST_TYPE_LIST =>
              gst_list_to_vector (gst_structure_get_value struc "format")
          | G_TYPE_STRING =>
              match gst_structure_get_string struc "format" with
              | Some f => [f]
              | None => []
              end
          | _ => []
          end in
        let name := st_name struc in
        match vec with
        | [] => add_format name ""
        | _ => flat_map (add_format name) vec
        end) (default [] caps) in
    std_unique Z.eqb (std_sort Z.leb ret).

(** The body of the [for] loop over the structures of [incoming], at
    index [i]. *)
Definition largest_step (preferred_fourcc : Z) (st : largest)
    (i : nat) (struc : GstStructure) : largest :=
  let format := gst_structure_get_string struc "format" in
  let fourcc := tcam_fourcc_from_gst_1_0_caps_string lib (st_name struc) format in
  if negb (fourcc =? preferred_fourcc) then st
  else
    let '(lw, new_width) :=
      match gst_structure_get_field_type struc "width" with
      | G_TYPE_INT =>
          match gst_structure_get_int struc "width" with
          | Some width =>
              if largest_width st <? width then (width, true)
              else (largest_width st, false)
          | None => (largest_width st, false)
          end
      | _ => (largest_width st, false)
      end in
    let '(lh, new_height) :=
      match gst_structure_get_field_type struc "height" with
      | G_TYPE_INT =>
          match gst_structure_get_int struc "height" with
          | Some height =>
              if largest_height st <=? height then (height, true)
              else (largest_height st, false)
          | None => (largest_height st, false)
          end
      | _ => (largest_height st, false)
      end in
    if new_width || new_height then mkLargest i lw lh
    else mkLargest (largest_index st) lw lh.

Fixpoint largest_loop (preferred_fourcc : Z) (i : nat)
    (strucs : list GstStructure) (st : largest) : largest :=
  match strucs with
  | [] => st
  | struc :: rest =>
      largest_loop preferred_fourcc (S i) rest
        (largest_step preferred_fourcc st i struc)
  end.

Definition tcam_gst_find_largest_caps (incoming : option GstCaps)
  : returned (option GstCaps) :=
  let format_fourccs := index_format_fourccs incoming in
  let preferred_fourcc := Fourcc.find_preferred_format code format_fourccs in
  match incoming with
  | None => Returns None
  | Some inc =>
      if is_really_empty_caps incoming then Returns None
      else
        let st := largest_loop preferred_fourcc 0 inc (mkLargest 0 (-1) (-1)) in
        let largest_caps := gst_caps_copy_nth inc (largest_index st) in
        match tcam_gst_fixate_caps (Some largest_caps) with
        | None => Returns None
        | Some [] => Returns None
        | Some (s :: _) =>
            match gst_structure_get_int s "height",
                  gst_structure_get_int s "width",
                  gst_structure_get_fraction s "framerate" with
            | Some h, Some w, Some (num, den) =>
                let ret_caps :=
                  [mkStructure (st_name s)
                     [("framerate", VFraction num den);
                      ("width", VInt w); ("height", VInt h)]] in
                Returns (Some
                  (match gst_structure_get_value s "format" with
                   | Some v => gst_caps_set_value ret_caps "format" v
                   | None => ret_caps
                   end))
            | _, _, _ => Indeterminate
            end
        end
  end.

Definition index_caps_formats (caps : GstCaps) : list string :=
  let ret :=
    flat_map (fun struc =>
      match gst_structure_get_field_type struc "format" with
      | GST_TYPE_LIST =>
          map (fun v => (st_name struc ++ ",format=" ++ v)%string)
            (gst_list_to_vector (gst_structure_get_value struc "format"))
      | G_TYPE_STRING =>
          match gst_structure_get_string struc "format" with
          | Some f => [(st_name struc ++ ",format=" ++ f)%string]
          | None => []
          end
      | _ => []
      end) caps in
  std_unique String.eqb (std_sort String.leb ret).

Definition set_if_present (f : string) (v : option GValue) (caps : GstCaps) : GstCaps :=
  match v with
  | Some x => gst_caps_set_value caps f x
  | None => caps
  end.

Definition create_caps_for_formats (formats rest : GstCaps) : option GstCaps :=
  if negb (gst_caps_is_fixed rest) then None
  else
    match rest with
    | [] => None
    | st :: _ =>
        let width := gst_structure_get_value st "width" in
        let height := gst_structure_get_value st "height" in
        let framerate := gst_structure_get_value st "framerate" in
        let caps_formats := index_caps_formats formats in
        match caps_formats with
        | [] => None
        | _ =>
            Some (flat_map (fun fmt =>
                    set_if_present "framerate" framerate
                      (set_if_present "height" height
                         (set_if_present "width" width
                            (gst_caps_from_string lib fmt)))) caps_formats)
        end
    end.

(** [find_input_caps_dutils].  Its [bool&] parameters are the fields of
    [modules]; [requires_vidoeconvert] is set before anything is tested.
    The test [to_string(wanted_caps) != "NULL"] holds of every caps object
    that reaches it, [wanted_caps] being non-null here. *)
Definition find_input_caps_dutils (available_caps wanted_caps : GstCaps)
    (modules : input_caps_required_modules)
  : returned (option GstCaps * input_caps_required_modules) :=
  let modules := set_videoconvert modules in
  match gst_element_factory_find lib "tcamdutils" with
  | None => Returns (None, modules)
  | Some dutils =>
      if gst_element_factory_can_src_any_caps lib dutils wanted_caps
         && gst_element_factory_can_sink_any_caps lib dutils available_caps
      then
        let modules := set_dutils modules in
        if negb (gst_caps_is_fixed available_caps) then
          if negb (gst_caps_is_empty wanted_caps) then
            if negb (gst_caps_is_fixed wanted_caps) then
              let ret := gst_caps_intersect lib available_caps wanted_caps in
              if gst_caps_is_empty ret
              then Returns (Some available_caps, modules)
              else Returns (Some ret, modules)
            else
              match create_caps_for_formats available_caps wanted_caps with
              | None => Returns (None, modules)
              | Some possible_matches =>
                  if gst_caps_is_empty possible_matches
                  then Returns (None, modules)
                  else Returns
                         (Some (gst_caps_intersect lib available_caps possible_matches),
                          modules)
              end
          else
            match tcam_gst_find_largest_caps (Some available_caps) with
            | Returns ret => Returns (ret, modules)
            | Indeterminate => Indeterminate
            end
        else Returns (Some available_caps, modules)
      else Returns (None, modules)
  end.

(** The block of [find_input_caps] guarded by [toggles.use_by1xtransform];
    [None] when control falls through to the blocks after it. *)
Definition by1xtransform_block (available_caps wanted_caps : GstCaps)
    (modules : input_caps_required_modules)
  : option (option GstCaps * input_caps_required_modules) :=
  match gst_element_factory_find lib "tcamby1xtransform" with
  | None => None
  | Some bayer_transform =>
      if gst_element_factory_can_src_any_caps lib bayer_transform wanted_caps
         && gst_element_factory_can_sink_any_caps lib bayer_transform available_caps
      then
        Some (Some (gst_caps_intersect lib available_caps
                      (gst_caps_change_name wanted_caps "video/x-bayer")),
              set_bayertransform modules)
      else
        let debayer := gst_element_factory_find lib "bayer2rgb" in
        let debayer_fits :=
          match debayer with
          | Some d =>
              negb (tcam_gst_raw_only_has_mono (Some available_caps))
              && gst_element_factory_can_src_any_caps lib d wanted_caps
              && gst_element_factory_can_sink_any_caps lib bayer_transform available_caps
          | None => false
          end in
        if debayer_fits then
          Some (Some (gst_caps_intersect lib available_caps
                        (gst_caps_change_name wanted_caps "video/x-bayer")),
                set_bayer2rgb (set_bayertransform modules))
        else
          match gst_element_factory_find lib "videoconvert",
                element_pad_caps lib "tcamby1xtransform" "src" with
          | Some convert, Some transform_out_caps =>
              if gst_element_factory_can_src_any_caps lib convert wanted_caps
                 && gst_element_factory_can_sink_any_caps lib convert transform_out_caps
              then
                let intersect := gst_caps_intersect lib transform_out_caps wanted_caps in
                if negb (gst_caps_is_empty intersect) then Some (Some intersect, modules)
                else
                  let modules := set_videoconvert (set_bayertransform modules) in
                  match element_pad_caps lib "tcamby1xtransform" "sink" with
                  | None => Some (None, modules)
                  | Some in_caps =>
                      let ret := gst_caps_intersect lib available_caps in_caps in
                      Some (Some (gst_caps_intersect lib ret (remove_format wanted_caps)),
                            modules)
                  end
              else None
          | _, _ => None
          end
  end.

(** The block guarded by [if (debayer)]. *)
Definition debayer_block (available_caps wanted_caps : GstCaps)
    (modules : input_caps_required_modules)
  : option (option GstCaps * input_caps_required_modules) :=
  match gst_element_factory_find lib "bayer2rgb" with
  | None => None
  | Some debayer =>
      if gst_element_factory_can_src_any_caps lib debayer wanted_caps
         && gst_element_factory_can_sink_any_caps lib debayer available_caps
      then
        Some (Some (gst_caps_intersect lib available_caps
                      (gst_caps_change_name wanted_caps "video/x-bayer")),
              set_bayer2rgb modules)
      else
        match gst_element_factory_find lib "videoconvert" with
        | Some convert =>
            if gst_element_factory_can_src_any_caps lib convert wanted_caps
               && gst_element_factory_can_sink_any_caps lib debayer available_caps
            then
              Some (Some (gst_caps_intersect lib available_caps
                            (gst_caps_change_name wanted_caps "video/x-bayer")),
                    set_videoconvert (set_bayer2rgb modules))
            else None
        | None => None
        end
  end.

(** The block guarded by [if (convert)]. *)
Definition convert_block (available_caps wanted_caps : GstCaps)
    (modules : input_caps_required_modules)
  : option (option GstCaps * input_caps_required_modules) :=
  match gst_element_factory_find lib "videoconvert" with
  | None => None
  | Some convert =>
      if gst_element_factory_can_src_any_caps lib convert wanted_caps
         && gst_element_factory_can_sink_any_caps lib convert available_caps
      then
        let intersect := gst_caps_intersect lib available_caps wanted_caps in
        if negb (gst_caps_is_empty intersect) then Some (Some intersect, modules)
        else
          let modules := set_videoconvert modules in
          match element_pad_caps lib "videoconvert" "sink" with
          | None => Some (None, modules)
          | Some in_caps =>
              let ret := gst_caps_intersect lib available_caps in_caps in
              Some (Some (gst_caps_intersect lib ret (remove_format wanted_caps)),
                    modules)
          end
      else None
  end.

(** The block guarded by [if (jpegdec)]. *)
Definition jpegdec_block (available_caps wanted_caps : GstCaps)
    (modules : input_caps_required_modules)
  : option (option GstCaps * input_caps_required_modules) :=
  match gst_element_factory_find lib "jpegdec" with
  | None => None
  | Some jpegdec =>
      if gst_element_factory_can_src_any_caps lib jpegdec wanted_caps
         && gst_element_factory_can_sink_any_caps lib jpegdec available_caps
      then
        Some (Some (gst_caps_intersect lib available_caps
                      (remove_format (gst_caps_change_name wanted_caps "image/jpeg"))),
              set_videoconvert (set_jpegdec modules))
      else None
  end.

(** The last lines: the raw intersection, or [nullptr]. *)
Definition raw_intersection (available_caps wanted_caps : GstCaps)
    (modules : input_caps_required_modules)
  : option GstCaps * input_caps_required_modules :=
  let intersect := gst_caps_intersect lib available_caps wanted_caps in
  if negb (gst_caps_is_empty intersect) then (Some intersect, modules)
  else (None, modules).

Definition or_else {A} (o : option A) (k : A) : A :=
  match o with Some a => a | None => k end.

(** What [find_input_caps] does once the dutils branch is not taken: the
    blocks in the order of the source, the first that returns wins. *)
Definition find_input_caps_elements (available wanted : GstCaps)
    (modules : input_caps_required_modules) (toggles : input_caps_toggles)
  : option GstCaps * input_caps_required_modules :=
  or_else (if use_by1xtransform toggles
           then by1xtransform_block available wanted modules else None)
 (or_else (debayer_block available wanted modules)
 (or_else (convert_block available wanted modules)
 (or_else (jpegdec_block available wanted modules)
          (raw_intersection available wanted modules)))).

Definition find_input_caps (available_caps wanted_caps : option GstCaps)
    (modules : input_caps_required_modules) (toggles : input_caps_toggles)
  : returned (option GstCaps * input_caps_required_modules) :=
  let modules := reset_input_caps_modules modules in
  match available_caps with
  | None => Returns (None, modules)
  | Some available =>
      let wanted :=
        match wanted_caps with
        | None => available
        | Some w => if gst_caps_is_empty w then available else w
        end in
      let dutils := gst_element_factory_find lib "tcamdutils" in
      if use_dutils toggles && bool_decide (is_Some dutils)
      then find_input_caps_dutils available wanted modules
      else Returns (find_input_caps_elements available wanted modules toggles)
  end.

End WithLibrary.

(** The element is installed and a sink pad template of it accepts some of
    the caps; likewise for a source pad template. *)
Definition takes (lib : GstLib) (element : string) (caps : GstCaps) : bool :=
  match gst_element_factory_find lib element with
  | Some f => gst_element_factory_can_sink_any_caps lib f caps
  | None => false
  end.

Definition gives (lib : GstLib) (element : string) (caps : GstCaps) : bool :=
  match gst_element_factory_find lib element with
  | Some f => gst_element_factory_can_src_any_caps lib f caps
  | None => false
  end.

(** The first element accepts some of the available caps and the second
    produces some of the wanted caps. *)
Definition bridges (lib : GstLib) (first second : string)
    (available wanted : GstCaps) : bool :=
  takes lib first available && gives lib second wanted.

(** The dutils branch of [find_input_caps] is entered. *)
Definition dutils_selected (lib : GstLib) (toggles : input_caps_toggles) : bool :=
  use_dutils toggles && bool_decide (is_Some (gst_element_factory_find lib "tcamdutils")).

Definition no_modules : input_caps_required_modules :=
  mkModules false false false false false.

(** The by1xtransform block of [find_input_caps] finds a path:
    tcamby1xtransform alone; tcamby1xtransform before bayer2rgb, unless the
    available caps are raw mono only; or tcamby1xtransform before
    videoconvert, where videoconvert is tested against the caps of the
    transform's source pad and not against the available caps. *)
Definition by1xtransform_bridges (lib : GstLib) (available wanted : GstCaps)
  : bool :=
  match gst_element_factory_find lib "tcamby1xtransform" with
  | None => false
  | Some _ =>
      bridges lib "tcamby1xtransform" "tcamby1xtransform" available wanted
      || negb (tcam_gst_raw_only_has_mono (Some available))
         && bridges lib "tcamby1xtransform" "bayer2rgb" available wanted
      || match element_pad_caps lib "tcamby1xtransform" "src" with
         | Some transform_out_caps =>
             bridges lib "videoconvert" "videoconvert" transform_out_caps wanted
         | None => false
         end
  end.

(** C1 as the specification words it, for one library, one pair of caps and
    one setting of the toggles: a non-empty direct intersection is what is
    returned, and no module is required. *)
Definition zero_cost_path (code : Fourcc.name -> Z) (lib : GstLib)
    (available wanted : GstCaps) (toggles : input_caps_toggles) : Prop :=
  gst_caps_is_empty (gst_caps_intersect lib available wanted) = false ->
  forall modules,
    find_input_caps code lib (Some available) (Some wanted) modules toggles
    = Returns (Some (gst_caps_intersect lib available wanted), no_modules).

(** *** Further functions of [tcamgstbase.cpp] *)

(** [input.find("-")]: the position of the first dash. *)
Fixpoint find_dash (input : string) : option nat :=
  match input with
  | EmptyString => None
  | String c rest =>
      if Ascii.eqb c "-" then Some 0%nat else option_map S (find_dash rest)
  end.

(** [input.substr(pos)]. *)
Definition substr_from (pos : nat) (input : string) : string :=
  String.substring pos (String.length input - pos) input.

(** [separate_serial_and_type(input)], the overload that returns a pair. *)
Definition separate_serial_and_type (input : string) : string * string :=
  match find_dash input with
  | Some pos => (String.substring 0 pos input, substr_from (pos + 1) input)
  | None => (input, EmptyString)
  end.

(** The overload that writes through [serial] and [type]: the result, and
    the two strings after the call. *)
Definition separate_serial_and_type_into (input serial type : string)
  : bool * string * string :=
  match find_dash input with
  | Some pos => (true, String.substring 0 pos input, substr_from (pos + 1) input)
  | None => (false, input, type)
  end.

(** [strncmp(format_string, p, strlen(p)) == 0]. *)
Definition starts_with (p format_string : string) : bool :=
  String.prefix p format_string.

Definition tcam_gst_is_bayer8_string (format_string : option string) : bool :=
  match format_string with
  | None => false
  | Some s =>
      String.eqb s "gbrg" || String.eqb s "grbg"
      || String.eqb s "rggb" || String.eqb s "bggr"
  end.

Definition tcam_gst_is_bayer10_string (format_string : option string) : bool :=
  match format_string with
  | None => false
  | Some s =>
      starts_with "gbrg10" s || starts_with "grbg10" s
      || starts_with "rggb10" s || starts_with "bggr10" s
  end.

Definition tcam_gst_is_bayer10_packed_string (format_string : option string) : bool :=
  match format_string with
  | None => false
  | Some s =>
      existsb (String.eqb s)
        ["rggb10p"; "grbg10p"; "gbrg10p"; "bggr10p"; "rggb10s"; "grbg10s";
         "gbrg10s"; "bggr10s"; "rggb10m"; "grbg10m"; "gbrg10m"; "bggr10m"]
  end.

Definition tcam_gst_is_bayer12_string (format_string : option string) : bool :=
  match format_string with
  | None => false
  | Some s =>
      starts_with "gbrg12" s || starts_with "grbg12" s
      || starts_with "rggb12" s || starts_with "bggr12" s
  end.

Definition tcam_gst_is_bayer12_packed_string (format_string : option string) : bool :=
  match format_string with
  | None => false
  | Some s =>
      existsb (String.eqb s)
        ["rggb12p"; "grbg12p"; "gbrg12p"; "bggr12p"; "rggb12s"; "grbg12s";
         "gbrg12s"; "bggr12s"; "rggb12m"; "grbg12m"; "gbrg12m"; "bggr12m"]
  end.

Definition tcam_gst_is_bayer16_string (format_string : option string) : bool :=
  match format_string with
  | None => false
  | Some s =>
      String.eqb s "gbrg16" || String.eqb s "grbg16"
      || String.eqb s "rggb16" || String.eqb s "bggr16"
  end.

Definition gst_caps_are_bayer_only (caps : option GstCaps) : bool :=
  match caps with
  | None => false
  | Some c => forallb (fun struc => String.eqb (st_name struc) "video/x-bayer") c
  end.

Definition contains_jpeg (caps : option GstCaps) : bool :=
  match caps with
  | None => false
  | Some c => existsb (fun struc => String.eqb "image/jpeg" (st_name struc)) c
  end.

Definition contains_bayer (caps : option GstCaps) : bool :=
  match caps with
  | None => false
  | Some c => existsb (fun struc => String.eqb "video/x-bayer" (st_name struc)) c
  end.




(** A structure of the preferred fourcc no wider than [w] and lower than
    [h], or a structure of another fourcc. *)
Definition below (lib : GstLib) (preferred_fourcc w h : Z) (struc : GstStructure)
  : bool :=
  if tcam_fourcc_from_gst_1_0_caps_string lib (st_name struc)
       (gst_structure_get_string struc "format") =? preferred_fourcc
  then
    match gst_structure_get_int struc "width" with
    | Some x => x <=? w
    | None => true
    end
    && match gst_structure_get_int struc "height" with
       | Some y => y <? h
       | None => true
       end
  else true.

(** The format strings that [index_format_fourccs] looks up for a
    structure: the strings of a list, the one string, or the empty string
    when the structure has neither. *)
Definition indexed_formats (struc : GstStructure) : list string :=
  let vec :=
    match gst_structure_get_field_type struc "format" with
    | GST_TYPE_LIST => gst_list_to_vector (gst_structure_get_value struc "format")
    | G_TYPE_STRING =>
        match gst_structure_get_string struc "format" with
        | Some f => [f]
        | None => []
        end
    | _ => []
    end in
  match vec with
  | [] => [""]
  | _ => vec
  end.

(** A [const GstCaps*] as [is_really_empty_caps] tells them apart: the null
    pointer, the ANY caps, which list no structure, and caps that list their
    structures. *)
Inductive caps_pointer : Type :=
| null_caps
| any_caps
| listed_caps (structures : GstCaps).

Definition listed (caps : caps_pointer) : GstCaps :=
  match caps with
  | listed_caps structures => structures
  | _ => []
  end.

(** [is_really_empty_caps] with its test [gst_caps_is_any]; on caps that
    list their structures it is [is_really_empty_caps] above. *)
Definition is_really_empty_caps_any (caps : caps_pointer) : bool :=
  match caps with
  | null_caps => true
  | any_caps => true
  | listed_caps structures => is_really_empty_caps (Some structures)
  end.

(** [tcam_gst_find_largest_caps] on any pointer: it returns [nullptr] at its
    first test for the null pointer and for ANY caps. *)
Definition tcam_gst_find_largest_caps_any (code : Fourcc.name -> Z) (lib : GstLib)
    (incoming : caps_pointer) : returned (option GstCaps) :=
  if is_really_empty_caps_any incoming then Returns None
  else tcam_gst_find_largest_caps code lib (Some (listed incoming)).

(** A list of fourccs in strictly increasing order. *)
Fixpoint increasing (l : list Z) : bool :=
  match l with
  | [] => true
  | x :: l' =>
      match l' with
      | [] => true
      | y :: _ => (x <? y) && increasing l'
      end
  end.

End GstBase.

(* ===================================================================== *)
(** ** [PipelineManager.cpp]                                              *)
(* ===================================================================== *)

Module Pipeline.

Inductive TCAM_PIPELINE_STATUS : Type :=
| TCAM_PIPELINE_UNDEFINED
| TCAM_PIPELINE_STOPPED
| TCAM_PIPELINE_PAUSED
| TCAM_PIPELINE_PLAYING
| TCAM_PIPELINE_ERROR.

Definition status_eqb (a b : TCAM_PIPELINE_STATUS) : bool :=
  match a, b with
  | TCAM_PIPELINE_UNDEFINED, TCAM_PIPELINE_UNDEFINED
  | TCAM_PIPELINE_STOPPED, TCAM_PIPELINE_STOPPED
  | TCAM_PIPELINE_PAUSED, TCAM_PIPELINE_PAUSED
  | TCAM_PIPELINE_PLAYING, TCAM_PIPELINE_PLAYING
  | TCAM_PIPELINE_ERROR, TCAM_PIPELINE_ERROR => true
  | _, _ => false
  end.

(** [VideoFormat]: the manager copies it, compares it and replaces its
    fourcc; the frame rate is kept as an opaque number. *)
Record VideoFormat : Type := mkFormat {
  get_fourcc : Z;
  width : Z;
  height : Z;
  framerate : Z
}.

Definition set_fourcc (f : VideoFormat) (fourcc : Z) : VideoFormat :=
  mkFormat fourcc (width f) (height f) (framerate f).

Inductive FILTER_TYPE : Type :=
| FILTER_TYPE_UNKNOWN
| FILTER_TYPE_CONVERSION
| FILTER_TYPE_INTERPRET.

Record FilterDescription : Type := mkDescription {
  name : string;
  type : FILTER_TYPE;
  input_fourcc : list Z;
  output_fourcc : list Z
}.

(** A filter object behind the [FilterBase] interface: its description, how
    it answers [setVideoFormat] and [setStatus], and the format pair it was
    last given and accepted. *)
Record FilterBase : Type := mkFilter {
  getDescription : FilterDescription;
  accepts_format : VideoFormat -> VideoFormat -> bool;
  accepts_status : TCAM_PIPELINE_STATUS -> bool;
  getVideoFormat : option (VideoFormat * VideoFormat)
}.

(** The source and the sink, reduced to their answers. *)
Record ImageSource : Type := mkSource {
  source_set_status : TCAM_PIPELINE_STATUS -> bool;
  source_setVideoFormat : VideoFormat -> bool;
  source_set_buffer_collection : bool
}.

Record SinkInterface : Type := mkSink {
  sink_set_status : TCAM_PIPELINE_STATUS -> bool;
  sink_setVideoFormat : VideoFormat -> bool
}.

Definition ImageBuffer := nat.

(** [std::thread m_pipeline_thread]: not joinable (never started, or
    joined), or joinable with [run_pipeline] still looping, or joinable with
    [run_pipeline] returned. *)
Inductive thread_state : Type :=
| not_joinable
| running
| finished.

Definition joinable (t : thread_state) : bool :=
  match t with not_joinable => false | _ => true end.

(** Every call the manager makes on a collaborator, on the condition
    variable and on the thread object. *)
Inductive Call : Type :=
| call_source_set_status (s : TCAM_PIPELINE_STATUS)
| call_sink_set_status (s : TCAM_PIPELINE_STATUS)
| call_filter_setStatus (f : nat) (s : TCAM_PIPELINE_STATUS)
| call_filter_setVideoFormat (f : nat) (i o : VideoFormat)
| call_property_filter_setStatus (s : TCAM_PIPELINE_STATUS)
| call_property_filter_setVideoFormat (i o : VideoFormat)
| call_property_filter_apply (b : ImageBuffer)
| call_source_setVideoFormat (f : VideoFormat)
| call_sink_setVideoFormat (f : VideoFormat)
| call_sink_get_buffer_collection
| call_source_set_buffer_collection
| call_sink_set_source
| call_device_get_available_video_formats
| call_device_get_properties
| call_source_setSink
| call_source_setDevice
| call_sink_push_image (b : ImageBuffer)
| call_cv_notify_all
| call_thread_start
| call_thread_join.

(** The manager.  [available_filter] holds the filter objects; an entry of
    [filter_pipeline] is a [shared_ptr] to one of them, kept as its position
    in [available_filter], so that a [setVideoFormat] through either is seen
    through both. *)
Record PipelineManager : Type := mkManager {
  status : TCAM_PIPELINE_STATUS;
  source : option ImageSource;
  sink : option SinkInterface;
  available_input_formats : list Z;
  input_format : VideoFormat;
  output_format : VideoFormat;
  available_filter : list FilterBase;
  filter_pipeline : list nat;
  m_entry_queue : list ImageBuffer;
  m_pipeline_thread : thread_state;
  calls : list Call
}.

Definition with_status (s : TCAM_PIPELINE_STATUS) (m : PipelineManager) :=
  mkManager s (source m) (sink m) (available_input_formats m) (input_format m)
    (output_format m) (available_filter m) (filter_pipeline m)
    (m_entry_queue m) (m_pipeline_thread m) (calls m).

Definition with_input_format (f : VideoFormat) (m : PipelineManager) :=
  mkManager (status m) (source m) (sink m) (available_input_formats m) f
    (output_format m) (available_filter m) (filter_pipeline m)
    (m_entry_queue m) (m_pipeline_thread m) (calls m).

Definition with_available_filter (l : list FilterBase) (m : PipelineManager) :=
  mkManager (status m) (source m) (sink m) (available_input_formats m)
    (input_format m) (output_format m) l (filter_pipeline m)
    (m_entry_queue m) (m_pipeline_thread m) (calls m).

Definition with_filter_pipeline (l : list nat) (m : PipelineManager) :=
  mkManager (status m) (source m) (sink m) (available_input_formats m)
    (input_format m) (output_format m) (available_filter m) l
    (m_entry_queue m) (m_pipeline_thread m) (calls m).

Definition with_entry_queue (q : list ImageBuffer) (m : PipelineManager) :=
  mkManager (status m) (source m) (sink m) (available_input_formats m)
    (input_format m) (output_format m) (available_filter m) (filter_pipeline m)
    q (m_pipeline_thread m) (calls m).

Definition with_thread (t : thread_state) (m : PipelineManager) :=
  mkManager (status m) (source m) (sink m) (available_input_formats m)
    (input_format m) (output_format m) (available_filter m) (filter_pipeline m)
    (m_entry_queue m) t (calls m).

(** Append one call to the log. *)
Definition record (c : Call) (m : PipelineManager) :=
  mkManager (status m) (source m) (sink m) (available_input_formats m)
    (input_format m) (output_format m) (available_filter m) (filter_pipeline m)
    (m_entry_queue m) (m_pipeline_thread m) (calls m ++ [c]).

(** [f->setVideoFormat(in, out)] on the object at position [i]: the object
    keeps the pair when it accepts it. *)
Definition filter_setVideoFormat (i : nat) (fin fout : VideoFormat)
    (m : PipelineManager) : bool * PipelineManager :=
  match available_filter m !! i with
  | None => (false, m)
  | Some f =>
      let m := record (call_filter_setVideoFormat i fin fout) m in
      if accepts_format f fin fout then
        (true,
         with_available_filter
           (<[i := mkFilter (getDescription f) (accepts_format f)
                    (accepts_status f) (Some (fin, fout))]> (available_filter m)) m)
      else (false, m)
  end.

Definition filter_setStatus (i : nat) (s : TCAM_PIPELINE_STATUS)
    (m : PipelineManager) : bool * PipelineManager :=
  match available_filter m !! i with
  | None => (true, m)
  | Some f => (accepts_status f s, record (call_filter_setStatus i s) m)
  end.

Definition isFilterApplicable (fourcc : Z) (vec : list Z) : bool :=
  existsb (Z.eqb fourcc) vec.

Definition create_input_format (fourcc : Z) (m : PipelineManager) : PipelineManager :=
  with_input_format (set_fourcc (output_format m) fourcc) m.

Definition getDeviceFourcc (m : PipelineManager) : list Z :=
  available_input_formats m.

Definition set_source_status (_status : TCAM_PIPELINE_STATUS) (m : PipelineManager)
  : bool * PipelineManager :=
  match source m with
  | None => (false, m)
  | Some src =>
      (source_set_status src _status, record (call_source_set_status _status) m)
  end.

Definition set_sink_status (_status : TCAM_PIPELINE_STATUS) (m : PipelineManager)
  : bool * PipelineManager :=
  match sink m with
  | None => (false, m)
  | Some snk =>
      (sink_set_status snk _status, record (call_sink_set_status _status) m)
  end.

(** The first device fourcc the filter takes as input: [filter_valid] and
    [fourcc_to_use] of the inner loop. *)
Definition first_applicable (device_fourcc : list Z) (f : FilterBase) : bool * Z :=
  match List.find (fun cc => isFilterApplicable cc (input_fourcc (getDescription f)))
          device_fourcc with
  | Some cc => (true, cc)
  | None => (false, 0)
  end.

(** The body of the loop of [create_conversion_pipeline] for the filter at
    position [i]. *)
Definition conversion_step (device_fourcc : list Z) (m : PipelineManager) (i : nat)
  : PipelineManager :=
  match available_filter m !! i with
  | None => m
  | Some f =>
      match type (getDescription f) with
      | FILTER_TYPE_CONVERSION =>
          if isFilterApplicable (get_fourcc (output_format m))
               (output_fourcc (getDescription f))
          then
            let '(filter_valid, fourcc_to_use) := first_applicable device_fourcc f in
            let m := create_input_format fourcc_to_use m in
            if filter_valid then
              let '(ok, m) := filter_setVideoFormat i (input_format m) (output_format m) m in
              if ok then with_filter_pipeline (filter_pipeline m ++ [i]) m else m
            else m
          else m
      | _ => m
      end
  end.

Definition create_conversion_pipeline (m : PipelineManager) : bool * PipelineManager :=
  match source m, sink m with
  | Some _, Some _ =>
      let device_fourcc := getDeviceFourcc m in
      let m := create_input_format (get_fourcc (output_format m)) m in
      (true,
       fold_left (conversion_step device_fourcc)
         (seq 0 (length (available_filter m))) m)
  | _, _ => (false, m)
  end.

(** [input_fourcc.size() == 1 && input_fourcc.at(0) == 0]. *)
Definition all_formats (f : FilterBase) : bool :=
  match input_fourcc (getDescription f) with
  | [x] => x =? 0
  | _ => false
  end.

(** The test under which [add_interpretation_filter] inserts a filter. *)
Definition usable_after_source (m : PipelineManager) (f : FilterBase) : bool :=
  match type (getDescription f) with
  | FILTER_TYPE_INTERPRET =>
      all_formats f
      || isFilterApplicable (get_fourcc (input_format m))
           (input_fourcc (getDescription f))
  | _ => false
  end.

(** The body of the loop of [add_interpretation_filter] for position [i]. *)
Definition interpretation_step (m : PipelineManager) (i : nat) : PipelineManager :=
  match available_filter m !! i with
  | None => m
  | Some f =>
      match type (getDescription f) with
      | FILTER_TYPE_INTERPRET =>
          if all_formats f
             || isFilterApplicable (get_fourcc (input_format m))
                  (input_fourcc (getDescription f))
          then
            let m := snd (filter_setVideoFormat i (input_format m) (input_format m) m) in
            with_filter_pipeline (i :: filter_pipeline m) m
          else
            snd (filter_setVideoFormat i (input_format m) (input_format m) m)
      | _ => m
      end
  end.

Definition add_interpretation_filter (m : PipelineManager) : bool * PipelineManager :=
  (true, fold_left interpretation_step (seq 0 (length (available_filter m))) m).

Definition create_pipeline (m : PipelineManager) : bool * PipelineManager :=
  match source m, sink m with
  | Some src, Some snk =>
      let m := with_filter_pipeline [] m in
      let '(ok, m) := create_conversion_pipeline m in
      if negb ok then (false, m)
      else
        let m := record (call_source_setVideoFormat (input_format m)) m in
        if negb (source_setVideoFormat src (input_format m)) then (false, m)
        else
          let m := record (call_sink_setVideoFormat (output_format m)) m in
          if negb (sink_setVideoFormat snk (output_format m)) then (false, m)
          else
            let m := record call_sink_get_buffer_collection m in
            let m := record call_source_set_buffer_collection m in
            if negb (source_set_buffer_collection src) then (false, m)
            else
              (true,
               record (call_property_filter_setVideoFormat
                         (output_format m) (output_format m)) m)
  | _, _ => (false, m)
  end.

(** The loop of [stop_playing] over [filter_pipeline]; [false] as soon as a
    filter refuses. *)
Fixpoint stop_filters (fs : list nat) (m : PipelineManager) : bool * PipelineManager :=
  match fs with
  | [] => (true, m)
  | f :: fs' =>
      let '(ok, m) := filter_setStatus f TCAM_PIPELINE_STOPPED m in
      if negb ok then (false, m) else stop_filters fs' m
  end.

(** [m_pipeline_thread.join()]: returns once [run_pipeline] has returned. *)
Definition join (m : PipelineManager) : PipelineManager :=
  with_thread not_joinable (record call_thread_join m).

Definition stop_playing (m : PipelineManager) : bool * PipelineManager :=
  let m := with_status TCAM_PIPELINE_STOPPED m in
  let m := record call_cv_notify_all m in
  let '(ok, m) := set_source_status TCAM_PIPELINE_STOPPED m in
  if negb ok then (false, m)
  else
    let '(ok, m) := stop_filters (filter_pipeline m) m in
    if negb ok then (false, m)
    else
      let m := snd (set_sink_status TCAM_PIPELINE_STOPPED m) in
      let m := record (call_property_filter_setStatus TCAM_PIPELINE_STOPPED) m in
      let m := if joinable (m_pipeline_thread m) then join m else m in
      (true, m).

(** [start_playing].  Both [goto error] paths run [stop_playing] and return
    [false].  Assigning a new [std::thread] to [m_pipeline_thread] while it
    is still joinable calls [std::terminate]: the result is then [None]. *)
Definition start_playing (m : PipelineManager) : option (bool * PipelineManager) :=
  let '(ok, m) := set_sink_status TCAM_PIPELINE_PLAYING m in
  if negb ok then Some (false, snd (stop_playing m))
  else
    let '(ok, m) := set_source_status TCAM_PIPELINE_PLAYING m in
    if negb ok then Some (false, snd (stop_playing m))
    else
      let m := record (call_property_filter_setStatus TCAM_PIPELINE_PLAYING) m in
      let m := with_status TCAM_PIPELINE_PLAYING m in
      if joinable (m_pipeline_thread m) then None
      else Some (true, with_thread running (record call_thread_start m)).

(** [set_status].  The value of [start_playing()] is discarded. *)
Definition set_status (s : TCAM_PIPELINE_STATUS) (m : PipelineManager)
  : option (bool * PipelineManager) :=
  if status_eqb (status m) s then Some (true, m)
  else
    let m := with_status s m in
    match s with
    | TCAM_PIPELINE_PLAYING =>
        let '(ok, m) := create_pipeline m in
        if ok then
          match start_playing m with
          | Some (_, m) => Some (true, m)
          | None => None
          end
        else Some (false, with_status TCAM_PIPELINE_ERROR m)
    | TCAM_PIPELINE_STOPPED => Some (true, snd (stop_playing m))
    | _ => Some (true, m)
    end.


(** One turn of the [while (true)] loop of [run_pipeline], from taking the
    lock to the call on the sink. *)
Inductive turn : Type :=
| waits        (* in [m_cv.wait_for], the queue empty while playing *)
| returns      (* the state is not playing: the thread function returns *)
| forwarded.   (* a buffer was taken from the queue *)

Definition run_pipeline_turn (m : PipelineManager) : turn * PipelineManager :=
  if status_eqb (status m) TCAM_PIPELINE_PLAYING
     && bool_decide (m_entry_queue m = [])
  then (waits, m)
  else if negb (status_eqb (status m) TCAM_PIPELINE_PLAYING)
  then (returns, with_thread finished m)
  else
    match m_entry_queue m with
    | [] => (waits, m)
    | current_buffer :: rest =>
        let m := with_entry_queue rest m in
        let m := record (call_property_filter_apply current_buffer) m in
        (forwarded,
         match sink m with
         | Some _ => record (call_sink_push_image current_buffer) m
         | None => m
         end)
    end.





(** The buffers handed to [sink->push_image], oldest first. *)
Fixpoint delivered (cs : list Call) : list ImageBuffer :=
  match cs with
  | [] => []
  | call_sink_push_image b :: cs' => b :: delivered cs'
  | _ :: cs' => delivered cs'
  end.

(** *** Notions used to state the properties *)

Definition usable_index (m : PipelineManager) (i : nat) : bool :=
  match available_filter m !! i with
  | Some f => usable_after_source m f
  | None => false
  end.

Definition interpret_index (m : PipelineManager) (i : nat) : bool :=
  match available_filter m !! i with
  | Some f => match type (getDescription f) with
              | FILTER_TYPE_INTERPRET => true
              | _ => false
              end
  | None => false
  end.

(** The filters [add_interpretation_filter] inserts, in registry order. *)
Definition usable_indices (m : PipelineManager) : list nat :=
  List.filter (usable_index m) (seq 0 (length (available_filter m))).

(** No conversion filter of the registry produces the fourcc asked for. *)
Definition no_conversion_to (m : PipelineManager) : bool :=
  forallb (fun f =>
             match type (getDescription f) with
             | FILTER_TYPE_CONVERSION =>
                 negb (isFilterApplicable (get_fourcc (output_format m))
                         (output_fourcc (getDescription f)))
             | _ => true
             end) (available_filter m).

(** Two managers with the same registry entries and the same input format. *)
Definition same_registry (m m' : PipelineManager) : Prop :=
  input_format m' = input_format m
  /\ map getDescription (available_filter m') = map getDescription (available_filter m).

(** Nothing happened to the queue, to the sink or to what the sink got. *)
Definition quiet (m m' : PipelineManager) : Prop :=
  sink m' = sink m
  /\ m_entry_queue m' = m_entry_queue m
  /\ delivered (calls m') = delivered (calls m).


(** C4 as the specification words it. *)
Definition stop_joins (m : PipelineManager) : Prop :=
  m_pipeline_thread (snd (stop_playing m)) = not_joinable.

(** C5 as the specification words it: the inserted filters stand in front
    in registry order. *)
Definition inserted_in_registry_order (m : PipelineManager) : Prop :=
  filter_pipeline (snd (add_interpretation_filter m))
  = (usable_indices m ++ filter_pipeline m)%list.

(** C7 as the specification words it, for the manager: with no conversion
    filter for the fourcc asked for, and the device not offering it, the
    pipeline is not created. *)
Definition creation_fails (m : PipelineManager) : Prop :=
  no_conversion_to m = true ->
  isFilterApplicable (get_fourcc (output_format m)) (getDeviceFourcc m) = false ->
  fst (create_pipeline m) = false.

(** A call other than [sink->push_image]. *)
Definition silent (c : Call) : Prop :=
  match c with call_sink_push_image _ => False | _ => True end.


(** Status and thread are as they were. *)
Definition steady (m m' : PipelineManager) : Prop :=
  status m' = status m /\ m_pipeline_thread m' = m_pipeline_thread m.

(** *** Further functions of [PipelineManager.cpp] *)

Definition with_source (s : option ImageSource) (m : PipelineManager) :=
  mkManager (status m) s (sink m) (available_input_formats m) (input_format m)
    (output_format m) (available_filter m) (filter_pipeline m)
    (m_entry_queue m) (m_pipeline_thread m) (calls m).

Definition with_sink (s : option SinkInterface) (m : PipelineManager) :=
  mkManager (status m) (source m) s (available_input_formats m) (input_format m)
    (output_format m) (available_filter m) (filter_pipeline m)
    (m_entry_queue m) (m_pipeline_thread m) (calls m).

Definition with_available_input_formats (l : list Z) (m : PipelineManager) :=
  mkManager (status m) (source m) (sink m) l (input_format m)
    (output_format m) (available_filter m) (filter_pipeline m)
    (m_entry_queue m) (m_pipeline_thread m) (calls m).

Definition with_output_format (f : VideoFormat) (m : PipelineManager) :=
  mkManager (status m) (source m) (sink m) (available_input_formats m)
    (input_format m) f (available_filter m) (filter_pipeline m)
    (m_entry_queue m) (m_pipeline_thread m) (calls m).

Definition setVideoFormat (f : VideoFormat) (m : PipelineManager)
  : bool * PipelineManager :=
  (true, with_output_format f m).

(** A device behind [DeviceInterface]: the fourccs of the formats it
    reports, and how an [ImageSource] set on it answers. *)
Record DeviceInterface : Type := mkDevice {
  get_available_video_formats : list Z;
  device_source : ImageSource
}.

(** [setSource].  The formats are taken and the source is made before the
    list of formats is looked at. *)
Definition setSource (device : DeviceInterface) (m : PipelineManager)
  : bool * PipelineManager :=
  match status m with
  | TCAM_PIPELINE_PLAYING | TCAM_PIPELINE_PAUSED => (false, m)
  | _ =>
      let m := record call_device_get_available_video_formats m in
      let m := with_available_input_formats (get_available_video_formats device) m in
      let m := with_source (Some (device_source device)) m in
      let m := record call_source_setSink m in
      let m := record call_source_setDevice m in
      let m := record call_device_get_properties m in
      match available_input_formats m with
      | [] => (false, m)
      | _ => (true, m)
      end
  end.

(** [setSink] with a non-null sink; [sink->set_source(this)] hands the sink
    a pointer to the manager. *)
Definition setSink (s : SinkInterface) (m : PipelineManager)
  : bool * PipelineManager :=
  match status m with
  | TCAM_PIPELINE_PLAYING | TCAM_PIPELINE_PAUSED => (false, m)
  | _ => (true, record call_sink_set_source (with_sink (Some s) m))
  end.

Definition destroyPipeline (m : PipelineManager) : option (bool * PipelineManager) :=
  match set_status TCAM_PIPELINE_STOPPED m with
  | Some (_, m) => Some (true, with_sink None (with_source None m))
  | None => None
  end.

(** [n] consecutive turns of the loop of [run_pipeline], nothing else
    running in between; the loop ends where the thread function returns. *)
Fixpoint turns (n : nat) (m : PipelineManager) : PipelineManager :=
  match n with
  | O => m
  | S n' =>
      match run_pipeline_turn m with
      | (returns, m') => m'
      | (_, m') => turns n' m'
      end
  end.

(** The filters of the chain that exist, as [stop_playing] addresses them. *)
Definition stop_calls (m : PipelineManager) : list Call :=
  flat_map (fun i =>
              match available_filter m !! i with
              | Some _ => [call_filter_setStatus i TCAM_PIPELINE_STOPPED]
              | None => []
              end) (filter_pipeline m).

(** The conversion filter at position [i] produces the fourcc asked for,
    takes a fourcc of the device, and accepts the resulting format pair. *)
Definition converts (m : PipelineManager) (i : nat) : bool :=
  match available_filter m !! i with
  | Some f =>
      match type (getDescription f) with
      | FILTER_TYPE_CONVERSION =>
          isFilterApplicable (get_fourcc (output_format m))
            (output_fourcc (getDescription f))
          && fst (first_applicable (getDeviceFourcc m) f)
          && accepts_format f
               (set_fourcc (output_format m)
                  (snd (first_applicable (getDeviceFourcc m) f)))
               (output_format m)
      | _ => false
      end
  | None => false
  end.

(** Source and sink agree to everything; every filter agrees to stop. *)
Definition willing (m : PipelineManager) : Prop :=
  (exists src, source m = Some src
     /\ (forall s, source_set_status src s = true)
     /\ (forall f, source_setVideoFormat src f = true)
     /\ source_set_buffer_collection src = true)
  /\ (exists snk, sink m = Some snk
        /\ (forall s, sink_set_status snk s = true)
        /\ (forall f, sink_setVideoFormat snk f = true))
  /\ Forall (fun f => accepts_status f TCAM_PIPELINE_STOPPED = true)
       (available_filter m).

(** Status, thread, source, sink and queue are as they were, and every
    filter answers [setStatus] as before. *)
Definition settled (m m' : PipelineManager) : Prop :=
  status m' = status m
  /\ m_pipeline_thread m' = m_pipeline_thread m
  /\ source m' = source m
  /\ sink m' = sink m
  /\ m_entry_queue m' = m_entry_queue m
  /\ map accepts_status (available_filter m') = map accepts_status (available_filter m).

(** The registry describes and answers [setVideoFormat] as before, for the
    same device and the same output format. *)
Definition same_converters (m m' : PipelineManager) : Prop :=
  output_format m' = output_format m
  /\ available_input_formats m' = available_input_formats m
  /\ map (fun f => (getDescription f, accepts_format f)) (available_filter m')
     = map (fun f => (getDescription f, accepts_format f)) (available_filter m).

End Pipeline.

(* ===================================================================== *)
(** ** A concrete table and a concrete library, to run the functions      *)
(* ===================================================================== *)

Module Sample.
Import Gst GstBase.

(** One table of codes: the constants named after a four-character code
    carry that code, the others a number of their own.  All codes differ
    from one another, from 0 and from the eight [GST_MAKE_FOURCC] codes of
    [tcam_gst_is_fourcc_rgb]. *)
Definition code (n : Fourcc.name) : Z :=
  match n with
  | Fourcc.FOURCC_GBRG8 => Fourcc.GST_MAKE_FOURCC "G" "B" "R" "G"
  | Fourcc.FOURCC_GRBG8 => Fourcc.GST_MAKE_FOURCC "G" "R" "B" "G"
  | Fourcc.FOURCC_RGGB8 => Fourcc.GST_MAKE_FOURCC "R" "G" "G" "B"
  | Fourcc.FOURCC_BGGR8 => Fourcc.GST_MAKE_FOURCC "B" "A" "8" "1"
  | Fourcc.FOURCC_GBRG10 => 5
  | Fourcc.FOURCC_GRBG10 => 6
  | Fourcc.FOURCC_RGGB10 => 7
  | Fourcc.FOURCC_BGGR10 => 8
  | Fourcc.FOURCC_GBRG10_SPACKED => 9
  | Fourcc.FOURCC_GRBG10_SPACKED => 10
  | Fourcc.FOURCC_RGGB10_SPACKED => 11
  | Fourcc.FOURCC_BGGR10_SPACKED => 12
  | Fourcc.FOURCC_GBRG10_MIPI_PACKED => 13
  | Fourcc.FOURCC_GRBG10_MIPI_PACKED => 14
  | Fourcc.FOURCC_RGGB10_MIPI_PACKED => 15
  | Fourcc.FOURCC_BGGR10_MIPI_PACKED => 16
  | Fourcc.FOURCC_GBRG12 => 17
  | Fourcc.FOURCC_GRBG12 => 18
  | Fourcc.FOURCC_RGGB12 => 19
  | Fourcc.FOURCC_BGGR12 => 20
  | Fourcc.FOURCC_GBRG12_MIPI_PACKED => 21
  | Fourcc.FOURCC_GRBG12_MIPI_PACKED => 22
  | Fourcc.FOURCC_RGGB12_MIPI_PACKED => 23
  | Fourcc.FOURCC_BGGR12_MIPI_PACKED => 24
  | Fourcc.FOURCC_GBRG12_SPACKED => 25
  | Fourcc.FOURCC_GRBG12_SPACKED => 26
  | Fourcc.FOURCC_RGGB12_SPACKED => 27
  | Fourcc.FOURCC_BGGR12_SPACKED => 28
  | Fourcc.FOURCC_GBRG12_PACKED => 29
  | Fourcc.FOURCC_GRBG12_PACKED => 30
  | Fourcc.FOURCC_RGGB12_PACKED => 31
  | Fourcc.FOURCC_BGGR12_PACKED => 32
  | Fourcc.FOURCC_GBRG16 => 33
  | Fourcc.FOURCC_GRBG16 => 34
  | Fourcc.FOURCC_RGGB16 => 35
  | Fourcc.FOURCC_BGGR16 => 36
  | Fourcc.FOURCC_YUY2 => Fourcc.GST_MAKE_FOURCC "Y" "U" "Y" "2"
  | Fourcc.FOURCC_UYVY => Fourcc.GST_MAKE_FOURCC "U" "Y" "V" "Y"
  | Fourcc.FOURCC_IYU1 => Fourcc.GST_MAKE_FOURCC "I" "Y" "U" "1"
  | Fourcc.FOURCC_IYU2 => Fourcc.GST_MAKE_FOURCC "I" "Y" "U" "2"
  | Fourcc.FOURCC_Y411 => Fourcc.GST_MAKE_FOURCC "Y" "4" "1" "1"
  | Fourcc.FOURCC_NV12 => Fourcc.GST_MAKE_FOURCC "N" "V" "1" "2"
  | Fourcc.FOURCC_BGR24 => 43
  | Fourcc.FOURCC_BGRA32 => 44
  | Fourcc.FOURCC_BGRA64 => 45
  | Fourcc.FOURCC_PWL_RG12_MIPI => 46
  | Fourcc.FOURCC_PWL_RG12 => 47
  | Fourcc.FOURCC_PWL_RG16H12 => 48
  | Fourcc.FOURCC_POLARIZATION_MONO8_90_45_135_0 => 49
  | Fourcc.FOURCC_POLARIZATION_MONO16_90_45_135_0 => 50
  | Fourcc.FOURCC_POLARIZATION_MONO12_SPACKED_90_45_135_0 => 51
  | Fourcc.FOURCC_POLARIZATION_MONO12_PACKED_90_45_135_0 => 52
  | Fourcc.FOURCC_POLARIZATION_ADI_PLANAR_MONO8 => 53
  | Fourcc.FOURCC_POLARIZATION_ADI_PLANAR_MONO16 => 54
  | Fourcc.FOURCC_POLARIZATION_ADI_MONO8 => 55
  | Fourcc.FOURCC_POLARIZATION_ADI_MONO16 => 56
  | Fourcc.FOURCC_POLARIZATION_PACKED8 => 57
  | Fourcc.FOURCC_POLARIZATION_PACKED16 => 58
  | Fourcc.FOURCC_POLARIZATION_BG8_90_45_135_0 => 59
  | Fourcc.FOURCC_POLARIZATION_BG16_90_45_135_0 => 60
  | Fourcc.FOURCC_POLARIZATION_BG12_SPACKED_90_45_135_0 => 61
  | Fourcc.FOURCC_POLARIZATION_BG12_PACKED_90_45_135_0 => 62
  | Fourcc.FOURCC_POLARIZATION_PACKED8_BAYER_BG => 63
  | Fourcc.FOURCC_POLARIZATION_PACKED16_BAYER_BG => 64
  | Fourcc.FOURCC_MJPG => Fourcc.GST_MAKE_FOURCC "M" "J" "P" "G"
  | Fourcc.FOURCC_Y800 => Fourcc.GST_MAKE_FOURCC "Y" "8" "0" "0"
  | Fourcc.FOURCC_Y16 => Fourcc.GST_MAKE_FOURCC "Y" "1" "6" " "
  end.

Definition mem_string (x : string) (l : list string) : bool :=
  existsb (String.eqb x) l.

Definition frac_eqb (a b : Z * Z) : bool := fst a * snd b =? fst b * snd a.

(** The values two fields have in common, [None] when there is none. *)
Definition value_intersect (a b : GValue) : option GValue :=
  match a, b with
  | VInt x, VInt y => if x =? y then Some a else None
  | VInt x, VIntRange lo hi | VIntRange lo hi, VInt x =>
      if (lo <=? x) && (x <=? hi) then Some (VInt x) else None
  | VInt x, VIntList l | VIntList l, VInt x =>
      if existsb (Z.eqb x) l then Some (VInt x) else None
  | VIntRange lo hi, VIntRange lo' hi' =>
      let l := Z.max lo lo' in
      let h := Z.min hi hi' in
      if l <? h then Some (VIntRange l h)
      else if l =? h then Some (VInt l) else None
  | VString x, VString y => if String.eqb x y then Some a else None
  | VString x, VStringList l | VStringList l, VString x =>
      if mem_string x l then Some (VString x) else None
  | VStringList l, VStringList l' =>
      match List.filter (fun x => mem_string x l') l with
      | [] => None
      | [x] => Some (VString x)
      | r => Some (VStringList r)
      end
  | VFraction n d, VFraction n' d' =>
      if frac_eqb (n, d) (n', d') then Some a else None
  | VFraction n d, VFractionList l | VFractionList l, VFraction n d =>
      if existsb (frac_eqb (n, d)) l then Some (VFraction n d) else None
  | VFraction n d, VFractionRange lo hi | VFractionRange lo hi, VFraction n d =>
      if frac_le lo (n, d) && frac_le (n, d) hi then Some (VFraction n d) else None
  | VFractionList l, VFractionList l' =>
      match List.filter (fun x => existsb (frac_eqb x) l') l with
      | [] => None
      | [x] => Some (VFraction (fst x) (snd x))
      | r => Some (VFractionList r)
      end
  | _, _ => None
  end.

(** The fields of [fs1], each narrowed by the field of the same name in
    [fs2]; [None] when a common field has no common value. *)
Fixpoint fields_intersect (fs1 fs2 : list (string * GValue))
  : option (list (string * GValue)) :=
  match fs1 with
  | [] => Some []
  | (k, v) :: fs1' =>
      match fields_intersect fs1' fs2 with
      | None => None
      | Some r =>
          match assoc_get k fs2 with
          | None => Some ((k, v) :: r)
          | Some w =>
              match value_intersect v w with
              | Some x => Some ((k, x) :: r)
              | None => None
              end
          end
      end
  end.

Definition structure_intersect (s1 s2 : GstStructure) : option GstStructure :=
  if String.eqb (st_name s1) (st_name s2) then
    match fields_intersect (st_fields s1) (st_fields s2) with
    | Some fs =>
        Some (mkStructure (st_name s1)
                (fs ++ List.filter
                         (fun kv => negb (bool_decide (is_Some (assoc_get (fst kv) (st_fields s1)))))
                         (st_fields s2)))
    | None => None
    end
  else None.

(** Caps intersection: every structure of the first caps against every
    structure of the second. *)
Definition caps_intersect (c1 c2 : GstCaps) : GstCaps :=
  flat_map (fun s1 =>
    flat_map (fun s2 =>
      match structure_intersect s1 s2 with
      | Some s => [s]
      | None => []
      end) c2) c1.

(** ["name,format=fmt"], as [index_caps_formats] builds it. *)
Definition caps_from_string (str : string) : GstCaps :=
  match String.index 0 ",format=" str with
  | Some i =>
      [mkStructure (String.substring 0 i str)
         [("format",
           VString (String.substring (i + 8) (String.length str - (i + 8)) str))]]
  | None => [mkStructure str []]
  end.

Definition fourcc_from_caps_string (name : string) (format : option string) : Z :=
  if String.eqb name "image/jpeg" then code Fourcc.FOURCC_MJPG
  else if String.eqb name "video/x-bayer" then
    match format with
    | Some "rggb" => code Fourcc.FOURCC_RGGB8
    | Some "grbg" => code Fourcc.FOURCC_GRBG8
    | Some "gbrg" => code Fourcc.FOURCC_GBRG8
    | Some "bggr" => code Fourcc.FOURCC_BGGR8
    | _ => 0
    end
  else if String.eqb name "video/x-raw" then
    match format with
    | Some "BGRx" => code Fourcc.FOURCC_BGRA32
    | Some "GRAY8" => code Fourcc.FOURCC_Y800
    | Some "GRAY16_LE" => code Fourcc.FOURCC_Y16
    | Some "YUY2" => code Fourcc.FOURCC_YUY2
    | _ => 0
    end
  else 0.

Definition bayer2rgb_factory : GstElementFactory :=
  mkFactory "bayer2rgb"
    [mkStructure "video/x-bayer"
       [("format", VStringList ["bggr"; "grbg"; "gbrg"; "rggb"])]]
    [mkStructure "video/x-raw"
       [("format", VStringList ["RGBx"; "xRGB"; "BGRx"; "xBGR";
                                "RGBA"; "ARGB"; "BGRA"; "ABGR"])]].

Definition videoconvert_factory : GstElementFactory :=
  mkFactory "videoconvert" [mkStructure "video/x-raw" []] [mkStructure "video/x-raw" []].

Definition jpegdec_factory : GstElementFactory :=
  mkFactory "jpegdec"
    [mkStructure "image/jpeg" []]
    [mkStructure "video/x-raw"
       [("format", VStringList ["I420"; "RGB"; "BGR"; "RGBx"; "xRGB"; "BGRx";
                                "xBGR"; "GRAY8"])]].

Definition tcamdutils_factory : GstElementFactory :=
  mkFactory "tcamdutils"
    [mkStructure "video/x-bayer" []; mkStructure "video/x-raw" []]
    [mkStructure "video/x-raw" []].

Definition find_factory (installed : list GstElementFactory) (name : string)
  : option GstElementFactory :=
  List.find (fun f => String.eqb (factory_name f) name) installed.

(** A library with the given element factories installed. *)
Definition library (installed : list GstElementFactory) : GstLib :=
  mkLib fourcc_from_caps_string caps_intersect caps_from_string
    (find_factory installed)
    (fun f caps => negb (gst_caps_is_empty (caps_intersect (src_template f) caps)))
    (fun f caps => negb (gst_caps_is_empty (caps_intersect (sink_template f) caps)))
    (fun name pad =>
       match find_factory installed name with
       | Some f => Some (if String.eqb pad "sink" then sink_template f else src_template f)
       | None => None
       end).

(** The usual installation without, and with, the [tcamdutils] element. *)
Definition plain_library : GstLib :=
  library [bayer2rgb_factory; videoconvert_factory; jpegdec_factory].

Definition dutils_library : GstLib :=
  library [tcamdutils_factory; bayer2rgb_factory; videoconvert_factory; jpegdec_factory].

Definition caps_entry (name format : string) (w h : Z) (rates : list (Z * Z))
  : GstStructure :=
  mkStructure name
    [("format", VString format); ("width", VInt w); ("height", VInt h);
     ("framerate", match rates with
                   | [r] => VFraction (fst r) (snd r)
                   | _ => VFractionList rates
                   end)].

Definition bgrx_640 : GstCaps := [caps_entry "video/x-raw" "BGRx" 640 480 [(30, 1)]].

Definition bayer_and_bgrx : GstCaps :=
  [caps_entry "video/x-bayer" "rggb" 640 480 [(30, 1)];
   caps_entry "video/x-raw" "BGRx" 640 480 [(30, 1)]].

Definition want_bgrx : GstCaps := [mkStructure "video/x-raw" [("format", VString "BGRx")]].

Definition gray8_640 : GstCaps := [caps_entry "video/x-raw" "GRAY8" 640 480 [(30, 1)]].

Definition want_gray8 : GstCaps := [mkStructure "video/x-raw" [("format", VString "GRAY8")]].

Definition want_bayer : GstCaps := [mkStructure "video/x-bayer" []].

Definition two_sizes : GstCaps :=
  [caps_entry "video/x-raw" "BGRx" 1920 1080 [(30, 1); (60, 1)];
   caps_entry "video/x-raw" "BGRx" 640 1080 [(30, 1)]].

End Sample.

(** Managers and schedules to run the functions on. *)

Module Scenario.
Import Pipeline.

Definition format_640 (fourcc : Z) : VideoFormat := mkFormat fourcc 640 480 30.

Definition willing_source : ImageSource :=
  mkSource (fun _ => true) (fun _ => true) true.

Definition willing_sink : SinkInterface :=
  mkSink (fun _ => true) (fun _ => true).

(** A sink that refuses to play, a source that refuses to stop. *)
Definition refusing_sink : SinkInterface :=
  mkSink (fun s => negb (status_eqb s TCAM_PIPELINE_PLAYING)) (fun _ => true).

Definition clinging_source : ImageSource :=
  mkSource (fun s => negb (status_eqb s TCAM_PIPELINE_STOPPED)) (fun _ => true) true.

(** A stopped manager: the device offers fourcc 1, fourcc [wanted] is asked
    for, no thread was started and nothing was called yet. *)
Definition stopped_manager (src : ImageSource) (snk : SinkInterface)
    (filters : list FilterBase) (wanted : Z) : PipelineManager :=
  mkManager TCAM_PIPELINE_STOPPED (Some src) (Some snk) [1]
    (format_640 0) (format_640 wanted) filters [] [] not_joinable [].

Definition interpret_filter (name : string) (inputs : list Z) : FilterBase :=
  mkFilter (mkDescription name FILTER_TYPE_INTERPRET inputs inputs)
    (fun _ _ => true) (fun _ => true) None.

(** The manager after [set_status(TCAM_PIPELINE_PLAYING)]. *)
Definition started (m : PipelineManager) : PipelineManager :=
  match set_status TCAM_PIPELINE_PLAYING m with
  | Some (_, m') => m'
  | None => m
  end.

Definition two_interpreters : PipelineManager :=
  with_input_format (format_640 1)
    (stopped_manager willing_source willing_sink
       [interpret_filter "autoexposure" [0]; interpret_filter "whitebalance" [1; 2]] 1).


(** A manager asked for fourcc 2 on a device that offers fourcc 1, with no
    filter registered. *)
Definition unbridged_manager : PipelineManager :=
  stopped_manager willing_source willing_sink [] 2.

Definition conversion_filter (name : string) (inputs outputs : list Z) : FilterBase :=
  mkFilter (mkDescription name FILTER_TYPE_CONVERSION inputs outputs)
    (fun _ _ => true) (fun _ => true) None.

(** Fourcc 2 is asked for on a device that offers fourcc 1; of the three
    filters registered only the second converts 1 to 2. *)
Definition bridged_manager : PipelineManager :=
  stopped_manager willing_source willing_sink
    [conversion_filter "jpeg" [9] [2]; conversion_filter "debayer" [1] [2];
     interpret_filter "autoexposure" [0]] 2.

(** A playing manager with three buffers queued. *)
Definition busy_manager : PipelineManager :=
  mkManager TCAM_PIPELINE_PLAYING (Some willing_source) (Some willing_sink) [1]
    (format_640 1) (format_640 1) [] [] [5%nat; 6%nat; 7%nat] running [].

End Scenario.

(* ===================================================================== *)
(** ** [CaptureDeviceImpl.cpp]: the callers of the manager                *)
(* ===================================================================== *)

Module CaptureDevice.
Import Pipeline.

(** The two pointers of [CaptureDeviceImpl] that the streaming functions
    use. *)
Record CaptureDeviceImpl : Type := mkCapture {
  pipeline : option PipelineManager;
  device : option DeviceInterface
}.

Definition is_device_open (c : CaptureDeviceImpl) : bool :=
  match device c with Some _ => true | None => false end.

(** [start_stream]; [None] where the call does not return: [set_status]
    ends in [std::terminate], or [pipeline] is null. *)
Definition start_stream (snk : SinkInterface) (c : CaptureDeviceImpl)
  : option (bool * CaptureDeviceImpl) :=
  if negb (is_device_open c) then Some (false, c)
  else
    match pipeline c with
    | None => None
    | Some p =>
        let '(ok, p) := setSink snk p in
        if negb ok then Some (false, mkCapture (Some p) (device c))
        else
          match set_status TCAM_PIPELINE_PLAYING p with
          | Some (r, p) => Some (r, mkCapture (Some p) (device c))
          | None => None
          end
    end.

Definition stop_stream (c : CaptureDeviceImpl) : option (bool * CaptureDeviceImpl) :=
  if negb (is_device_open c) then Some (false, c)
  else
    match pipeline c with
    | None => None
    | Some p =>
        match set_status TCAM_PIPELINE_STOPPED p with
        | Some (r, p) => Some (r, mkCapture (Some p) (device c))
        | None => None
        end
    end.

(** [close_device]: the pipeline is destroyed and both pointers are reset. *)
Definition close_device (c : CaptureDeviceImpl) : option (bool * CaptureDeviceImpl) :=
  if negb (is_device_open c) then Some (true, c)
  else
    match pipeline c with
    | None => None
    | Some p =>
        match destroyPipeline p with
        | Some _ => Some (true, mkCapture None None)
        | None => None
        end
    end.

(** A device opened on a fresh manager, as [open_device] leaves it. *)
Definition opened (d : DeviceInterface) : CaptureDeviceImpl :=
  mkCapture
    (Some (snd (setSource d
       (mkManager TCAM_PIPELINE_UNDEFINED None None []
          (mkFormat 0 0 0 0) (mkFormat 0 0 0 0) [] [] [] not_joinable []))))
    (Some d).

End CaptureDevice.

(* ===================================================================== *)
(** * Properties                                                          *)
(* ===================================================================== *)

(** ** The preferred format *)

Module PreferredFormat.
Import Fourcc.

Lemma map_begin_assign k v m :
  map_begin (map_assign k v m) =
  match map_begin m with
  | None => Some (k, v)
  | Some (k', v') => if k <=? k' then Some (k, v) else Some (k', v')
  end.
Proof.
  destruct m as [|[k' v'] m']; simpl; [reflexivity|].
  destruct (Z.ltb_spec k k'), (Z.eqb_spec k k'), (Z.leb_spec k k');
    simpl; try reflexivity; lia.
Qed.

Section Table.

Variable code : name -> Z.

Lemma rank_step_rank m fourcc :
  rank_step code m fourcc =
  match rank code fourcc with
  | Some k => map_assign k fourcc m
  | None => m
  end.
Proof.
  unfold rank_step, rank.
  repeat match goal with
         | |- context [if ?b then _ else _] => destruct b; [reflexivity|]
         end.
  reflexivity.
Qed.

Lemma best_of_step seen m x :
  best_of (rank code) seen m ->
  best_of (rank code) (seen ++ [x]) (rank_step code m x).
Proof.
  unfold best_of. intros H. rewrite rank_step_rank.
  destruct (rank code x) as [k|] eqn:Hx.
  - rewrite map_begin_assign.
    destruct (map_begin m) as [[k' v']|].
    + destruct H as (Hin & Hv & Hmin).
      destruct (Z.leb_spec k k').
      * split; [apply in_or_app; right; left; reflexivity|].
        split; [assumption|].
        intros y ky Hy Hky. apply in_app_or in Hy as [Hy|[<-|[]]].
        -- specialize (Hmin _ _ Hy Hky). lia.
        -- rewrite Hx in Hky. injection Hky as <-. lia.
      * split; [apply in_or_app; left; assumption|].
        split; [assumption|].
        intros y ky Hy Hky. apply in_app_or in Hy as [Hy|[<-|[]]].
        -- exact (Hmin _ _ Hy Hky).
        -- rewrite Hx in Hky. injection Hky as <-. lia.
    + split; [apply in_or_app; right; left; reflexivity|].
      split; [assumption|].
      intros y ky Hy Hky. apply in_app_or in Hy as [Hy|[<-|[]]].
      * rewrite Forall_forall in H. apply list_elem_of_In in Hy.
        rewrite (H _ Hy) in Hky. discriminate.
      * rewrite Hx in Hky. injection Hky as <-. lia.
  - destruct (map_begin m) as [[k' v']|].
    + destruct H as (Hin & Hv & Hmin).
      split; [apply in_or_app; left; assumption|].
      split; [assumption|].
      intros y ky Hy Hky. apply in_app_or in Hy as [Hy|[<-|[]]].
      * exact (Hmin _ _ Hy Hky).
      * rewrite Hx in Hky. discriminate.
    + apply Forall_app. split; [assumption|]. constructor; [assumption|constructor].
Qed.

Lemma best_of_fold vec : forall seen m,
  best_of (rank code) seen m ->
  best_of (rank code) (seen ++ vec) (fold_left (rank_step code) vec m).
Proof.
  induction vec as [|x vec IH]; intros seen m H; simpl.
  - rewrite app_nil_r. assumption.
  - replace (seen ++ x :: vec)%list with ((seen ++ [x]) ++ vec)%list
      by (rewrite <- app_assoc; reflexivity).
    apply IH, best_of_step, H.
Qed.

Lemma best_of_all vec :
  best_of (rank code) vec (fold_left (rank_step code) vec []).
Proof.
  apply (best_of_fold vec [] []). unfold best_of. simpl. constructor.
Qed.

End Table.

(** Under any table that ranks Y800 at 40 and Y16 at 50, 8-bit mono is
    chosen when both are offered. *)
Lemma mono8_before_mono16 (code : name -> Z) :
  rank code (code FOURCC_Y800) = Some 40 ->
  rank code (code FOURCC_Y16) = Some 50 ->
  find_preferred_format code [code FOURCC_Y16; code FOURCC_Y800]
  = code FOURCC_Y800.
Proof.
  intros H8 H16.
  pose proof (best_of_all code [code FOURCC_Y16; code FOURCC_Y800]) as H.
  unfold find_preferred_format, best_of in *.
  destruct (map_begin _) as [[k v]|].
  - destruct H as (Hin & Hv & Hmin).
    specialize (Hmin (code FOURCC_Y800) 40 (or_intror (or_introl eq_refl)) H8).
    destruct Hin as [E|[E|[]]]; [|symmetry; exact E].
    rewrite <- E, H16 in Hv. injection Hv as <-. lia.
  - rewrite Forall_forall in H.
    specialize (H (code FOURCC_Y800)). rewrite H in H8; [discriminate|].
    apply list_elem_of_In. right. left. reflexivity.
Qed.

(** The codes of the sample table are pairwise different and none is 0;
    only the three BGR constants fall in the RGB class. *)
Lemma sample_code_injective a b : Sample.code a = Sample.code b -> a = b.
Proof.
  destruct a; destruct b; intros H; try reflexivity;
    vm_compute in H; discriminate H.
Qed.

Lemma sample_code_classes n :
  Sample.code n <> 0
  /\ tcam_gst_is_fourcc_rgb Sample.code (Sample.code n)
     = match n with
       | FOURCC_BGR24 | FOURCC_BGRA32 | FOURCC_BGRA64 => true
       | _ => false
       end.
Proof. destruct n; split; try reflexivity; vm_compute; discriminate. Qed.

(** C2, as the code has it.  Whatever the table of codes,
    [find_preferred_format] returns an element of least rank among the
    ranked elements of its argument, and 0 when no element is ranked, where
    the rank is the one of [rank]: 8-bit Bayer 0, RGB 10, YUV 20, MJPG 30,
    Y800 (8-bit mono) 40, Y16 (16-bit mono) 50, PWL Bayer 60, 10-bit Bayer
    65, 12-bit Bayer 70, 16-bit Bayer 80, polarized Bayer 90, polarized mono
    100; a fourcc of none of these classes has no rank and is passed over. *)
Theorem find_preferred_format_least_rank (code : name -> Z) (vec : list Z) :
  picked (rank code) vec (find_preferred_format code vec).
Proof.
  pose proof (best_of_all code vec) as H.
  unfold picked, find_preferred_format, best_of in *.
  destruct vec as [|x0 vec0]; [split; [intros He; inversion He|reflexivity]|].
  set (vec := x0 :: vec0) in *.
  destruct (map_begin (fold_left (rank_step code) vec [])) as [[k v]|].
  - destruct H as (Hin & Hv & Hmin). split.
    + intros _. split; [assumption|]. exists k. split; [assumption|].
      intros x k' Hx Hk'. exact (Hmin x k' Hx Hk').
    + intros Hall. rewrite Forall_forall in Hall.
      apply list_elem_of_In in Hin. rewrite (Hall _ Hin) in Hv. discriminate.
  - split; [|reflexivity].
    intros He. apply Exists_exists in He as (x & Hx & Hr).
    rewrite Forall_forall in H. destruct (Hr (H _ Hx)).
Qed.

(** C2, as the specification words it, fails: with 8-bit and 16-bit mono
    both offered the code returns Y800, which the specification ranks
    after Y16. *)
Lemma find_preferred_format_not_spec_rank :
  ~ (forall vec,
       picked (spec_rank Sample.code) vec (find_preferred_format Sample.code vec)).
Proof.
  intros H.
  destruct (H [Sample.code FOURCC_Y16; Sample.code FOURCC_Y800]) as [H1 _].
  destruct H1 as (_ & k & Hk & Hmin).
  - constructor. vm_compute. discriminate.
  - vm_compute in Hk. injection Hk as <-.
    specialize (Hmin (Sample.code FOURCC_Y16) 40).
    assert (50 <= 40); [|lia].
    apply Hmin; [left; reflexivity|vm_compute; reflexivity].
Qed.

(** The same selection on the codes of the sample table. *)
Example find_preferred_format_mono :
  find_preferred_format Sample.code
    [Sample.code FOURCC_Y16; Sample.code FOURCC_Y800] = Sample.code FOURCC_Y800
  /\ find_preferred_format Sample.code
       [Sample.code FOURCC_Y16; 12345; Sample.code FOURCC_MJPG;
        Sample.code FOURCC_GBRG12] = Sample.code FOURCC_MJPG
  /\ find_preferred_format Sample.code [12345; 0] = 0.
Proof. vm_compute. repeat split. Qed.

End PreferredFormat.

(** ** Largest caps and input caps *)

Module Negotiation.
Import Gst GstBase.

(** Case analysis on one answer of the library. *)
Ltac case_on t :=
  let b := fresh "b" in set (b := t) in *; clearbody b; destruct b.

Ltac library_cases :=
  repeat (match goal with
          | |- context [gst_element_factory_find ?l ?n] =>
              case_on (gst_element_factory_find l n)
          | H : context [gst_element_factory_find ?l ?n] |- _ =>
              case_on (gst_element_factory_find l n)
          | |- context [element_pad_caps ?l ?n ?q] =>
              case_on (element_pad_caps l n q)
          | H : context [element_pad_caps ?l ?n ?q] |- _ =>
              case_on (element_pad_caps l n q)
          | |- context [gst_element_factory_can_src_any_caps ?l ?f ?c] =>
              case_on (gst_element_factory_can_src_any_caps l f c)
          | H : context [gst_element_factory_can_src_any_caps ?l ?f ?c] |- _ =>
              case_on (gst_element_factory_can_src_any_caps l f c)
          | |- context [gst_element_factory_can_sink_any_caps ?l ?f ?c] =>
              case_on (gst_element_factory_can_sink_any_caps l f c)
          | H : context [gst_element_factory_can_sink_any_caps ?l ?f ?c] |- _ =>
              case_on (gst_element_factory_can_sink_any_caps l f c)
          | |- context [tcam_gst_raw_only_has_mono ?c] =>
              case_on (tcam_gst_raw_only_has_mono c)
          | H : context [tcam_gst_raw_only_has_mono ?c] |- _ =>
              case_on (tcam_gst_raw_only_has_mono c)
          end;
          cbn [andb orb negb] in *; try discriminate; try reflexivity).

Section WithLibrary.

Variable code : Fourcc.name -> Z.
Variable lib : GstLib.

Lemma by1xtransform_block_none available wanted modules :
  by1xtransform_bridges lib available wanted = false ->
  by1xtransform_block lib available wanted modules = None.
Proof.
  unfold by1xtransform_bridges, bridges, takes, gives, by1xtransform_block.
  intros H. library_cases.
Qed.

Lemma debayer_block_bridges available wanted modules :
  debayer_block lib available wanted modules
  = if bridges lib "bayer2rgb" "bayer2rgb" available wanted
    then Some (Some (gst_caps_intersect lib available
                       (gst_caps_change_name wanted "video/x-bayer")),
               set_bayer2rgb modules)
    else if bridges lib "bayer2rgb" "videoconvert" available wanted
    then Some (Some (gst_caps_intersect lib available
                       (gst_caps_change_name wanted "video/x-bayer")),
               set_videoconvert (set_bayer2rgb modules))
    else None.
Proof.
  unfold bridges, takes, gives, debayer_block. library_cases.
Qed.

Lemma convert_block_bridges available wanted modules :
  gst_caps_is_empty (gst_caps_intersect lib available wanted) = false ->
  convert_block lib available wanted modules
  = if bridges lib "videoconvert" "videoconvert" available wanted
    then Some (Some (gst_caps_intersect lib available wanted), modules)
    else None.
Proof.
  unfold bridges, takes, gives, convert_block. intros Hi. rewrite Hi.
  library_cases.
Qed.

Lemma convert_block_none available wanted modules :
  bridges lib "videoconvert" "videoconvert" available wanted = false ->
  convert_block lib available wanted modules = None.
Proof.
  unfold bridges, takes, gives, convert_block. intros H. library_cases.
Qed.

Lemma jpegdec_block_bridges available wanted modules :
  jpegdec_block lib available wanted modules
  = if bridges lib "jpegdec" "jpegdec" available wanted
    then Some (Some (gst_caps_intersect lib available
                       (remove_format (gst_caps_change_name wanted "image/jpeg"))),
               set_videoconvert (set_jpegdec modules))
    else None.
Proof.
  unfold bridges, takes, gives, jpegdec_block. library_cases.
Qed.

Lemma find_input_caps_not_dutils available wanted modules toggles :
  dutils_selected lib toggles = false ->
  gst_caps_is_empty wanted = false ->
  find_input_caps code lib (Some available) (Some wanted) modules toggles
  = Returns (find_input_caps_elements lib available wanted no_modules toggles).
Proof.
  unfold dutils_selected, find_input_caps. intros Hd Hw.
  rewrite Hd, Hw. reflexivity.
Qed.

Lemma find_input_caps_dutils_selected available wanted modules toggles :
  dutils_selected lib toggles = true ->
  gst_caps_is_empty wanted = false ->
  find_input_caps code lib (Some available) (Some wanted) modules toggles
  = find_input_caps_dutils code lib available wanted no_modules.
Proof.
  unfold dutils_selected, find_input_caps. intros Hd Hw.
  rewrite Hd, Hw. reflexivity.
Qed.

(** Whatever the dutils path returns, videoconvert is marked as required. *)
Lemma find_input_caps_dutils_videoconvert available wanted modules r required :
  find_input_caps_dutils code lib available wanted modules = Returns (r, required) ->
  videoconvert required = true.
Proof.
  unfold find_input_caps_dutils.
  repeat match goal with
         | |- context [match ?x with _ => _ end] =>
             match x with
             | context [match _ with _ => _ end] => fail 1
             | _ => destruct x
             end
         end;
    intros H; inversion H; reflexivity.
Qed.

(** The by1xtransform block falls through when it is switched off or finds
    no path. *)
Lemma by1xtransform_part_none available wanted modules toggles :
  use_by1xtransform toggles && by1xtransform_bridges lib available wanted = false ->
  (if use_by1xtransform toggles
   then by1xtransform_block lib available wanted modules else None) = None.
Proof.
  destruct (use_by1xtransform toggles); [|reflexivity].
  intros H. apply by1xtransform_block_none. exact H.
Qed.

Lemma find_input_caps_elements_none available wanted modules toggles :
  use_by1xtransform toggles && by1xtransform_bridges lib available wanted = false ->
  bridges lib "bayer2rgb" "bayer2rgb" available wanted = false ->
  bridges lib "bayer2rgb" "videoconvert" available wanted = false ->
  bridges lib "videoconvert" "videoconvert" available wanted = false ->
  bridges lib "jpegdec" "jpegdec" available wanted = false ->
  gst_caps_is_empty (gst_caps_intersect lib available wanted) = true ->
  find_input_caps_elements lib available wanted modules toggles = (None, modules).
Proof.
  intros Hb H1 H2 H3 H4 Hi. unfold find_input_caps_elements.
  rewrite by1xtransform_part_none by exact Hb.
  rewrite debayer_block_bridges, H1, H2, convert_block_none by exact H3.
  rewrite jpegdec_block_bridges, H4. simpl.
  unfold raw_intersection. rewrite Hi. reflexivity.
Qed.

Lemma find_input_caps_dutils_none available wanted modules :
  bridges lib "tcamdutils" "tcamdutils" available wanted = false ->
  find_input_caps_dutils code lib available wanted modules
  = Returns (None, set_videoconvert modules).
Proof.
  unfold bridges, takes, gives, find_input_caps_dutils. intros H.
  destruct (gst_element_factory_find lib "tcamdutils") as [d|]; [|reflexivity].
  rewrite andb_comm, H. reflexivity.
Qed.

(** In the search loop a structure of the preferred fourcc whose height is
    not below the largest height so far becomes the choice, whatever its
    width. *)
Lemma largest_step_height preferred st i struc h :
  tcam_fourcc_from_gst_1_0_caps_string lib (st_name struc)
    (gst_structure_get_string struc "format") = preferred ->
  gst_structure_get_value struc "height" = Some (VInt h) ->
  largest_height st <= h ->
  largest_index (largest_step lib preferred st i struc) = i.
Proof.
  intros Hf Hh Hle. unfold largest_step.
  rewrite Hf, Z.eqb_refl. simpl.
  unfold gst_structure_get_field_type at 2, gst_structure_get_int at 2.
  rewrite Hh. simpl.
  destruct (Z.leb_spec (largest_height st) h); [|lia].
  destruct (match gst_structure_get_field_type struc "width" with
            | G_TYPE_INT => _ | _ => _ end) as [lw nw].
  rewrite orb_true_r. reflexivity.
Qed.

End WithLibrary.

(** C1, as the code has it.  Where the by1xtransform block finds no path
    (it is switched off, or tcamby1xtransform bridges nothing), a non-empty
    intersection of the available and the wanted caps is returned as it is,
    with no module required, exactly when the dutils branch is not entered,
    bayer2rgb does not bridge the caps, neither alone nor with videoconvert
    behind it, and jpegdec does not bridge them unless videoconvert does,
    whose block comes first and returns the intersection.  An element
    bridges when it accepts some of the available caps and the element
    after it produces some of the wanted caps: a Bayer or jpeg device asked
    for Bayer or jpeg is served directly. *)
Theorem find_input_caps_direct (code : Fourcc.name -> Z) (lib : GstLib)
    (available wanted : GstCaps) (modules : input_caps_required_modules)
    (toggles : input_caps_toggles) :
  use_by1xtransform toggles && by1xtransform_bridges lib available wanted = false ->
  gst_caps_is_empty wanted = false ->
  gst_caps_is_empty (gst_caps_intersect lib available wanted) = false ->
  find_input_caps code lib (Some available) (Some wanted) modules toggles
  = Returns (Some (gst_caps_intersect lib available wanted), no_modules)
  <-> dutils_selected lib toggles = false
      /\ bridges lib "bayer2rgb" "bayer2rgb" available wanted = false
      /\ bridges lib "bayer2rgb" "videoconvert" available wanted = false
      /\ bridges lib "videoconvert" "videoconvert" available wanted
         || negb (bridges lib "jpegdec" "jpegdec" available wanted) = true.
Proof.
  intros Hby Hw Hi.
  destruct (dutils_selected lib toggles) eqn:Hd.
  { rewrite find_input_caps_dutils_selected by assumption. split.
    - intros H. apply find_input_caps_dutils_videoconvert in H. discriminate H.
    - intros (H & _). discriminate H. }
  rewrite find_input_caps_not_dutils by assumption.
  unfold find_input_caps_elements.
  rewrite by1xtransform_part_none by exact Hby.
  rewrite debayer_block_bridges, jpegdec_block_bridges.
  rewrite convert_block_bridges by exact Hi.
  unfold raw_intersection. rewrite Hi.
  destruct (bridges lib "bayer2rgb" "bayer2rgb" available wanted);
    [split; [intros H; inversion H|intros (_ & H & _); discriminate H]|].
  destruct (bridges lib "bayer2rgb" "videoconvert" available wanted);
    [split; [intros H; inversion H|intros (_ & _ & H & _); discriminate H]|].
  destruct (bridges lib "videoconvert" "videoconvert" available wanted);
    [split; [intros _; repeat split|reflexivity]|].
  destruct (bridges lib "jpegdec" "jpegdec" available wanted).
  - split; [intros H; inversion H|intros (_ & _ & _ & H); discriminate H].
  - split; [intros _; repeat split|reflexivity].
Qed.

(** A device that offers Bayer and BGRx, asked for Bayer: bayer2rgb accepts
    what the device offers but produces nothing that is wanted. *)
Lemma find_input_caps_direct_witness :
  find_input_caps Sample.code Sample.plain_library
    (Some Sample.bayer_and_bgrx) (Some Sample.want_bayer)
    no_modules (mkToggles true true)
  = Returns (Some (gst_caps_intersect Sample.plain_library
                     Sample.bayer_and_bgrx Sample.want_bayer),
             no_modules).
Proof.
  apply (find_input_caps_direct Sample.code Sample.plain_library
           Sample.bayer_and_bgrx Sample.want_bayer no_modules
           (mkToggles true true));
    [reflexivity|reflexivity|reflexivity|repeat split; reflexivity].
Defined.

(** Why C1 leaves the by1xtransform block aside: switched on and finding a
    path, that block decides before the intersection of the available and
    the wanted caps is looked at. *)
Lemma find_input_caps_by1xtransform_first (code : Fourcc.name -> Z) (lib : GstLib)
    (available wanted : GstCaps) (modules : input_caps_required_modules)
    (toggles : input_caps_toggles) :
  dutils_selected lib toggles = false ->
  use_by1xtransform toggles = true ->
  by1xtransform_bridges lib available wanted = true ->
  gst_caps_is_empty wanted = false ->
  exists r,
    by1xtransform_block lib available wanted no_modules = Some r
    /\ find_input_caps code lib (Some available) (Some wanted) modules toggles
       = Returns r.
Proof.
  intros Hd Hb Hbr Hw.
  rewrite find_input_caps_not_dutils by assumption.
  unfold find_input_caps_elements. rewrite Hb.
  assert (exists r, by1xtransform_block lib available wanted no_modules = Some r)
    as [r Hr].
  { revert Hbr.
    unfold by1xtransform_bridges, bridges, takes, gives, by1xtransform_block.
    intros Hbr. library_cases;
      repeat match goal with
             | |- context [if ?b then _ else _] => destruct b
             end;
      eexists; reflexivity. }
  exists r. rewrite Hr. split; reflexivity.
Qed.

(** C1, as the specification words it, fails where the dutils branch is
    entered: the caps returned are the intersection, but videoconvert and
    dutils are marked as required. *)
Lemma zero_cost_path_fails_with_dutils :
  ~ zero_cost_path Sample.code Sample.dutils_library Sample.bgrx_640 Sample.bgrx_640
      (mkToggles true false).
Proof.
  intros H. specialize (H eq_refl no_modules). vm_compute in H. discriminate.
Qed.

(** Without dutils, bayer2rgb is tried before the raw intersection: a
    device that offers both Bayer and BGRx is asked for Bayer when BGRx is
    wanted. *)
Lemma zero_cost_path_fails_with_bayer2rgb :
  ~ zero_cost_path Sample.code Sample.plain_library Sample.bayer_and_bgrx Sample.want_bgrx
      (mkToggles false false).
Proof.
  intros H. specialize (H eq_refl no_modules). vm_compute in H. discriminate.
Qed.

(** C6 on two entries of the preferred format: the second entry, narrower
    and as high as the first, is the one chosen. *)
Theorem largest_caps_takes_narrower_entry :
  tcam_gst_find_largest_caps Sample.code Sample.plain_library (Some Sample.two_sizes)
  = Returns (Some
      [mkStructure "video/x-raw"
         [("framerate", VFraction 30 1); ("width", VInt 640);
          ("height", VInt 1080); ("format", VString "BGRx")]]).
Proof. vm_compute. reflexivity. Qed.

End Negotiation.

(** ** The pipeline manager *)

Module Manager.
Import Pipeline Scenario.

(** *** Elementary facts *)

Lemma status_eqb_eq a b : status_eqb a b = true <-> a = b.
Proof. destruct a, b; simpl; split; intros H; try reflexivity; discriminate. Qed.

Lemma status_eqb_refl a : status_eqb a a = true.
Proof. apply status_eqb_eq. reflexivity. Qed.

Lemma with_status_same m : with_status (status m) m = m.
Proof. destruct m. reflexivity. Qed.

Lemma delivered_app cs cs' :
  delivered (cs ++ cs') = (delivered cs ++ delivered cs')%list.
Proof.
  induction cs as [|c cs IH]; simpl; [reflexivity|].
  destruct c; simpl; rewrite ?IH; reflexivity.
Qed.

(** *** What leaves the queue and the sink alone *)

Lemma quiet_refl m : quiet m m.
Proof. repeat split. Qed.

Lemma quiet_trans m1 m2 m3 : quiet m1 m2 -> quiet m2 m3 -> quiet m1 m3.
Proof.
  unfold quiet. intros (-> & -> & ->) (-> & -> & ->). repeat split.
Qed.

Ltac quiet_by_computation :=
  unfold quiet, join; simpl; rewrite ?delivered_app; simpl;
  rewrite ?app_nil_r; repeat split.

Lemma quiet_record c m : silent c -> quiet m (record c m).
Proof.
  intros Hc. unfold quiet, record; simpl. rewrite delivered_app.
  destruct c; simpl in *; try contradiction; rewrite app_nil_r; repeat split.
Qed.

Lemma quiet_filter_setVideoFormat i fin fout m :
  quiet m (snd (filter_setVideoFormat i fin fout m)).
Proof.
  unfold filter_setVideoFormat.
  destruct (available_filter m !! i) as [f|]; [|apply quiet_refl].
  destruct (accepts_format f fin fout); simpl;
    apply (quiet_record (call_filter_setVideoFormat i fin fout) m); exact I.
Qed.

Lemma quiet_filter_setStatus i s m : quiet m (snd (filter_setStatus i s m)).
Proof.
  unfold filter_setStatus.
  destruct (available_filter m !! i) as [f|]; [|apply quiet_refl].
  apply (quiet_record (call_filter_setStatus i s) m). exact I.
Qed.

Lemma quiet_conversion_step dev m i : quiet m (conversion_step dev m i).
Proof.
  unfold conversion_step.
  destruct (available_filter m !! i) as [f|]; [|apply quiet_refl].
  destruct (type (getDescription f)); try apply quiet_refl.
  destruct (isFilterApplicable _ _); [|apply quiet_refl].
  destruct (first_applicable dev f) as [valid fourcc_to_use].
  destruct valid; [|repeat split].
  pose proof (quiet_filter_setVideoFormat i
                (input_format (create_input_format fourcc_to_use m))
                (output_format (create_input_format fourcc_to_use m))
                (create_input_format fourcc_to_use m)) as H.
  destruct (filter_setVideoFormat _ _ _ _) as [ok m']. simpl in H.
  destruct ok; exact H.
Qed.

Lemma quiet_fold (stepf : PipelineManager -> nat -> PipelineManager) :
  (forall m i, quiet m (stepf m i)) ->
  forall l m, quiet m (fold_left stepf l m).
Proof.
  intros Hs l. induction l as [|i l IH]; intros m; simpl; [apply quiet_refl|].
  eapply quiet_trans; [apply Hs|apply IH].
Qed.

Lemma quiet_create_conversion_pipeline m :
  quiet m (snd (create_conversion_pipeline m)).
Proof.
  unfold create_conversion_pipeline.
  destruct (source m), (sink m); try apply quiet_refl. simpl.
  eapply quiet_trans; [|apply quiet_fold, quiet_conversion_step].
  repeat split.
Qed.

Lemma quiet_create_pipeline m : quiet m (snd (create_pipeline m)).
Proof.
  unfold create_pipeline.
  destruct (source m) as [src|], (sink m) as [snk|]; try apply quiet_refl.
  pose proof (quiet_create_conversion_pipeline (with_filter_pipeline [] m)) as H.
  destruct (create_conversion_pipeline _) as [ok m1]. simpl in H.
  assert (quiet m m1) as H1 by exact H. clear H.
  destruct ok; simpl; [|exact H1].
  repeat match goal with
         | |- context [if ?b then _ else _] => destruct b; simpl
         end;
    repeat (eapply quiet_trans; [|apply quiet_record; exact I]); exact H1.
Qed.

Lemma quiet_stop_filters fs : forall m, quiet m (snd (stop_filters fs m)).
Proof.
  induction fs as [|f fs IH]; intros m; simpl; [apply quiet_refl|].
  pose proof (quiet_filter_setStatus f TCAM_PIPELINE_STOPPED m) as H.
  destruct (filter_setStatus f TCAM_PIPELINE_STOPPED m) as [ok m']. simpl in H.
  destruct ok; simpl; [|exact H].
  eapply quiet_trans; [exact H|apply IH].
Qed.

Lemma quiet_set_source_status s m : quiet m (snd (set_source_status s m)).
Proof.
  unfold set_source_status. destruct (source m); [|apply quiet_refl].
  apply (quiet_record (call_source_set_status s) m). exact I.
Qed.

Lemma quiet_set_sink_status s m : quiet m (snd (set_sink_status s m)).
Proof.
  unfold set_sink_status. destruct (sink m); [|apply quiet_refl].
  apply (quiet_record (call_sink_set_status s) m). exact I.
Qed.

Lemma quiet_stop_playing m : quiet m (snd (stop_playing m)).
Proof.
  unfold stop_playing.
  set (m0 := record call_cv_notify_all (with_status TCAM_PIPELINE_STOPPED m)).
  assert (quiet m m0) as H0 by quiet_by_computation.
  pose proof (quiet_set_source_status TCAM_PIPELINE_STOPPED m0) as H1.
  destruct (set_source_status TCAM_PIPELINE_STOPPED m0) as [ok m1]. simpl in H1.
  pose proof (quiet_trans _ _ _ H0 H1) as H01.
  destruct ok; cbn [negb snd]; [|exact H01].
  pose proof (quiet_stop_filters (filter_pipeline m1) m1) as H2.
  destruct (stop_filters (filter_pipeline m1) m1) as [ok m2]. simpl in H2.
  pose proof (quiet_trans _ _ _ H01 H2) as H02.
  destruct ok; cbn [negb snd]; [|exact H02].
  pose proof (quiet_set_sink_status TCAM_PIPELINE_STOPPED m2) as H3.
  set (m3 := snd (set_sink_status TCAM_PIPELINE_STOPPED m2)) in *.
  set (m4 := record (call_property_filter_setStatus TCAM_PIPELINE_STOPPED) m3).
  assert (quiet m m4) as H4.
  { eapply quiet_trans; [exact H02|]. eapply quiet_trans; [exact H3|].
    quiet_by_computation. }
  destruct (joinable (m_pipeline_thread m4)); [|exact H4].
  eapply quiet_trans; [exact H4|]. quiet_by_computation.
Qed.

Lemma quiet_start_playing m r :
  start_playing m = Some r -> quiet m (snd r).
Proof.
  unfold start_playing.
  pose proof (quiet_set_sink_status TCAM_PIPELINE_PLAYING m) as H1.
  destruct (set_sink_status TCAM_PIPELINE_PLAYING m) as [ok m1]. simpl in H1.
  destruct ok; cbn [negb].
  - pose proof (quiet_set_source_status TCAM_PIPELINE_PLAYING m1) as H2.
    destruct (set_source_status TCAM_PIPELINE_PLAYING m1) as [ok m2]. simpl in H2.
    destruct ok; cbn [negb].
    + destruct (joinable _); [discriminate|].
      intros [= <-]. cbn [snd].
      eapply quiet_trans; [exact H1|]. eapply quiet_trans; [exact H2|].
      quiet_by_computation.
    + intros [= <-]. cbn [snd].
      eapply quiet_trans; [exact H1|]. eapply quiet_trans; [exact H2|].
      apply quiet_stop_playing.
  - intros [= <-]. cbn [snd].
    eapply quiet_trans; [exact H1|apply quiet_stop_playing].
Qed.

Lemma quiet_set_status s m r : set_status s m = Some r -> quiet m (snd r).
Proof.
  unfold set_status. destruct (status_eqb (status m) s).
  { intros [= <-]. apply quiet_refl. }
  assert (quiet m (with_status s m)) as H0 by repeat split.
  destruct s; try (intros [= <-]; exact H0).
  - intros [= <-]. simpl. eapply quiet_trans; [exact H0|apply quiet_stop_playing].
  - pose proof (quiet_create_pipeline (with_status TCAM_PIPELINE_PLAYING m)) as H1.
    destruct (create_pipeline _) as [ok m1]. simpl in H1.
    destruct ok.
    + destruct (start_playing m1) as [[b m2]|] eqn:Hs; [|discriminate].
      intros [= <-]. simpl.
      eapply quiet_trans; [exact H0|]. eapply quiet_trans; [exact H1|].
      apply (quiet_start_playing m1 (b, m2) Hs).
    + intros [= <-]. simpl.
      eapply quiet_trans; [exact H0|]. eapply quiet_trans; [exact H1|].
      repeat split.
Qed.

(** *** The queue along a schedule *)




(** *** Status and thread through [stop_playing] *)

Lemma steady_set_source_status s m : steady m (snd (set_source_status s m)).
Proof. unfold set_source_status. destruct (source m); split; reflexivity. Qed.

Lemma steady_set_sink_status s m : steady m (snd (set_sink_status s m)).
Proof. unfold set_sink_status. destruct (sink m); split; reflexivity. Qed.

Lemma steady_stop_filters fs : forall m, steady m (snd (stop_filters fs m)).
Proof.
  induction fs as [|f fs IH]; intros m; simpl; [split; reflexivity|].
  unfold filter_setStatus.
  destruct (available_filter m !! f) as [x|].
  - destruct (accepts_status x TCAM_PIPELINE_STOPPED); cbn [negb snd].
    + destruct (IH (record (call_filter_setStatus f TCAM_PIPELINE_STOPPED) m))
        as [H1 H2]. split; [rewrite H1|rewrite H2]; reflexivity.
    + split; reflexivity.
  - cbn [negb]. apply IH.
Qed.

(** [stop_playing] leaves the state stopped; it has joined the thread when
    it returns [true], and has not touched it when it returns [false]. *)
Lemma stop_playing_spec m :
  status (snd (stop_playing m)) = TCAM_PIPELINE_STOPPED
  /\ (fst (stop_playing m) = true ->
      m_pipeline_thread (snd (stop_playing m)) = not_joinable)
  /\ (fst (stop_playing m) = false ->
      m_pipeline_thread (snd (stop_playing m)) = m_pipeline_thread m
      /\ ~ In call_thread_join
             (skipn (length (calls m)) (calls (snd (stop_playing m))))).
Proof.
  unfold stop_playing.
  set (m0 := record call_cv_notify_all (with_status TCAM_PIPELINE_STOPPED m)).
  destruct (steady_set_source_status TCAM_PIPELINE_STOPPED m0) as [Hs1 Ht1].
  unfold set_source_status in *.
  destruct (source m0) as [src|] eqn:Hsrc.
  2:{ cbn [negb fst snd]. split; [reflexivity|]. split; [discriminate|].
      intros _. split; [reflexivity|].
      unfold m0; simpl. rewrite skipn_app, skipn_all, Nat.sub_diag. simpl.
      intros [H|[]]; discriminate. }
  destruct (source_set_status src TCAM_PIPELINE_STOPPED); cbn [negb fst snd] in *.
  2:{ split; [reflexivity|]. split; [discriminate|].
      intros _. split; [reflexivity|].
      unfold m0; simpl. rewrite <- app_assoc, skipn_app, skipn_all, Nat.sub_diag.
      simpl. intros [H|[H|[]]]; discriminate. }
  set (m1 := record (call_source_set_status TCAM_PIPELINE_STOPPED) m0) in *.
  destruct (steady_stop_filters (filter_pipeline m1) m1) as [Hs2 Ht2].
  assert (Hcalls : exists cs,
             calls (snd (stop_filters (filter_pipeline m1) m1)) = (calls m ++ cs)%list
             /\ ~ In call_thread_join cs).
  { assert (Hgen : forall fs x, exists cs,
               calls (snd (stop_filters fs x)) = (calls x ++ cs)%list
               /\ ~ In call_thread_join cs).
    { induction fs as [|f fs IH]; intros x; simpl.
      - exists []. rewrite app_nil_r. split; [reflexivity|intros []].
      - unfold filter_setStatus. destruct (available_filter x !! f) as [y|].
        + destruct (accepts_status y TCAM_PIPELINE_STOPPED); cbn [negb snd].
          * destruct (IH (record (call_filter_setStatus f TCAM_PIPELINE_STOPPED) x))
              as (cs & Hc & Hn).
            exists (call_filter_setStatus f TCAM_PIPELINE_STOPPED :: cs).
            rewrite Hc. simpl. rewrite <- app_assoc. split; [reflexivity|].
            intros [H|H]; [discriminate|exact (Hn H)].
          * exists [call_filter_setStatus f TCAM_PIPELINE_STOPPED].
            split; [reflexivity|]. intros [H|[]]; discriminate.
        + cbn [negb]. apply IH. }
    destruct (Hgen (filter_pipeline m1) m1) as (cs & Hc & Hn).
    exists (call_cv_notify_all :: call_source_set_status TCAM_PIPELINE_STOPPED :: cs).
    rewrite Hc. unfold m1, m0. simpl. rewrite <- !app_assoc. simpl.
    split; [reflexivity|]. intros [H|[H|H]]; [discriminate|discriminate|exact (Hn H)]. }
  destruct (stop_filters (filter_pipeline m1) m1) as [ok m2].
  cbn [fst snd] in *.
  destruct ok; cbn [negb fst snd].
  - set (m4 := record (call_property_filter_setStatus TCAM_PIPELINE_STOPPED)
                 (snd (set_sink_status TCAM_PIPELINE_STOPPED m2))).
    assert (status m4 = TCAM_PIPELINE_STOPPED) as Hs4.
    { destruct (steady_set_sink_status TCAM_PIPELINE_STOPPED m2) as [Hs3 _].
      unfold m4. simpl. rewrite Hs3, Hs2. reflexivity. }
    split; [|split; [|discriminate]].
    + destruct (joinable (m_pipeline_thread m4)); [|exact Hs4].
      unfold join. simpl. exact Hs4.
    + intros _. destruct (joinable (m_pipeline_thread m4)) eqn:Hj; [reflexivity|].
      destruct (m_pipeline_thread m4); [reflexivity|discriminate..].
  - split; [rewrite Hs2; reflexivity|]. split; [discriminate|]. intros _.
    split; [rewrite Ht2; reflexivity|].
    destruct Hcalls as (cs & -> & Hn).
    rewrite skipn_app, skipn_all, Nat.sub_diag. exact Hn.
Qed.

(** *** The loop of [add_interpretation_filter] *)

Lemma same_registry_refl m : same_registry m m.
Proof. split; reflexivity. Qed.

Lemma same_registry_lookup m m' i :
  same_registry m m' ->
  getDescription <$> (available_filter m' !! i)
  = getDescription <$> (available_filter m !! i).
Proof.
  intros [_ H]. rewrite <- !list_lookup_fmap.
  change (fmap getDescription (available_filter m'))
    with (map getDescription (available_filter m')).
  change (fmap getDescription (available_filter m))
    with (map getDescription (available_filter m)).
  rewrite H. reflexivity.
Qed.

Lemma usable_index_same m m' i :
  same_registry m m' -> usable_index m' i = usable_index m i.
Proof.
  intros H. pose proof (same_registry_lookup m m' i H) as Hl.
  unfold usable_index, usable_after_source, all_formats.
  destruct H as [Hf _]. rewrite Hf.
  destruct (available_filter m' !! i) as [f'|], (available_filter m !! i) as [f|];
    simpl in Hl; try discriminate; [|reflexivity].
  injection Hl as ->. reflexivity.
Qed.

Lemma interpret_index_same m m' i :
  same_registry m m' -> interpret_index m' i = interpret_index m i.
Proof.
  intros H. pose proof (same_registry_lookup m m' i H) as Hl.
  unfold interpret_index.
  destruct (available_filter m' !! i) as [f'|], (available_filter m !! i) as [f|];
    simpl in Hl; try discriminate; [|reflexivity].
  injection Hl as ->. reflexivity.
Qed.

(** [setVideoFormat] on a filter changes neither a description nor the
    input format, and leaves the pipeline as it is. *)
Lemma filter_setVideoFormat_frame i fin fout m :
  same_registry m (snd (filter_setVideoFormat i fin fout m))
  /\ filter_pipeline (snd (filter_setVideoFormat i fin fout m)) = filter_pipeline m
  /\ calls (snd (filter_setVideoFormat i fin fout m))
     = (calls m ++ match available_filter m !! i with
                   | Some _ => [call_filter_setVideoFormat i fin fout]
                   | None => []
                   end)%list.
Proof.
  unfold filter_setVideoFormat.
  destruct (available_filter m !! i) as [f|] eqn:Hi.
  2:{ simpl. rewrite app_nil_r. repeat split. }
  destruct (accepts_format f fin fout); simpl; [|repeat split].
  split; [|split; reflexivity]. split; [reflexivity|]. simpl.
  apply list_eq. intros j.
  change (map getDescription ?l) with (fmap getDescription l).
  rewrite !list_lookup_fmap.
  destruct (decide (i = j)) as [<-|Hne].
  - rewrite list_lookup_insert_eq by (eapply lookup_lt_Some; exact Hi).
    rewrite Hi. reflexivity.
  - rewrite list_lookup_insert_ne by assumption. reflexivity.
Qed.

Lemma interpretation_step_spec m i :
  same_registry m (interpretation_step m i)
  /\ filter_pipeline (interpretation_step m i)
     = (if usable_index m i then i :: filter_pipeline m else filter_pipeline m)
  /\ calls (interpretation_step m i)
     = (calls m ++ if interpret_index m i
                   then [call_filter_setVideoFormat i (input_format m) (input_format m)]
                   else [])%list.
Proof.
  unfold interpretation_step, usable_index, interpret_index, usable_after_source.
  destruct (filter_setVideoFormat_frame i (input_format m) (input_format m) m)
    as (Hr & Hp & Hc).
  destruct (available_filter m !! i) as [f|] eqn:Hi.
  2:{ rewrite app_nil_r. split; [apply same_registry_refl|split; reflexivity]. }
  destruct (type (getDescription f));
    try (rewrite app_nil_r; split; [apply same_registry_refl|split; reflexivity]).
  destruct (all_formats f || isFilterApplicable _ _); simpl.
  - split; [exact Hr|]. split; [rewrite Hp; reflexivity|exact Hc].
  - split; [exact Hr|]. split; [exact Hp|exact Hc].
Qed.

Lemma interpretation_fold m l : forall m0,
  same_registry m m0 ->
  same_registry m (fold_left interpretation_step l m0)
  /\ filter_pipeline (fold_left interpretation_step l m0)
     = (rev (List.filter (usable_index m) l) ++ filter_pipeline m0)%list
  /\ calls (fold_left interpretation_step l m0)
     = (calls m0
        ++ map (fun i => call_filter_setVideoFormat i (input_format m) (input_format m))
             (List.filter (interpret_index m) l))%list.
Proof.
  induction l as [|i l IH]; intros m0 H0; simpl.
  - rewrite app_nil_r. split; [exact H0|split; reflexivity].
  - destruct (interpretation_step_spec m0 i) as (Hr & Hp & Hc).
    assert (same_registry m (interpretation_step m0 i)) as H1.
    { destruct H0 as [Ha Hb], Hr as [Hc' Hd]. split; congruence. }
    destruct (IH _ H1) as (Hr' & Hp' & Hc'').
    split; [exact Hr'|]. split.
    + rewrite Hp', Hp, (usable_index_same m m0 i H0).
      destruct (usable_index m i); simpl; [|reflexivity].
      rewrite <- app_assoc. reflexivity.
    + rewrite Hc'', Hc, (interpret_index_same m m0 i H0).
      destruct H0 as [Hf _]. rewrite Hf.
      destruct (interpret_index m i); simpl; rewrite <- app_assoc; reflexivity.
Qed.

(** *** The loop of [create_conversion_pipeline] *)

Lemma conversion_step_skip dev m i :
  no_conversion_to m = true -> conversion_step dev m i = m.
Proof.
  intros H. unfold conversion_step.
  destruct (available_filter m !! i) as [f|] eqn:Hi; [|reflexivity].
  unfold no_conversion_to in H. rewrite forallb_forall in H.
  assert (In f (available_filter m)) as Hin.
  { apply list_elem_of_In. eapply list_elem_of_lookup_2. exact Hi. }
  specialize (H f Hin).
  destruct (type (getDescription f)); try reflexivity.
  apply negb_true_iff in H. rewrite H. reflexivity.
Qed.

Lemma fold_left_fixed {A B} (stepf : A -> B -> A) (a : A) (l : list B) :
  (forall b, stepf a b = a) -> fold_left stepf l a = a.
Proof.
  intros H. induction l as [|b l IH]; simpl; [reflexivity|].
  rewrite H. exact IH.
Qed.

Lemma create_conversion_pipeline_no_filter m src snk :
  source m = Some src -> sink m = Some snk ->
  no_conversion_to m = true ->
  create_conversion_pipeline m
  = (true, create_input_format (get_fourcc (output_format m)) m).
Proof.
  intros Hs Hk Hn. unfold create_conversion_pipeline. rewrite Hs, Hk.
  f_equal. apply fold_left_fixed. intros i.
  apply conversion_step_skip. exact Hn.
Qed.

Lemma set_fourcc_get (f : VideoFormat) : set_fourcc f (get_fourcc f) = f.
Proof. destruct f. reflexivity. Qed.

(** *** [set_status], [start_playing], [stop_playing] *)

(** A failing [start_playing] has gone through [stop_playing]. *)
Lemma start_playing_failure m m' :
  start_playing m = Some (false, m') ->
  status m' = TCAM_PIPELINE_STOPPED /\ exists m1, m' = snd (stop_playing m1).
Proof.
  unfold start_playing.
  destruct (set_sink_status TCAM_PIPELINE_PLAYING m) as [ok m1].
  destruct ok; cbn [negb].
  - destruct (set_source_status TCAM_PIPELINE_PLAYING m1) as [ok m2].
    destruct ok; cbn [negb].
    + destruct (joinable _); discriminate.
    + intros [= <-]. split; [apply stop_playing_spec|]. exists m2. reflexivity.
  - intros [= <-]. split; [apply stop_playing_spec|]. exists m1. reflexivity.
Qed.

(** Whatever [start_playing] returns, [set_status] returns [true]. *)
Lemma set_status_playing_discards m m1 r :
  status_eqb (status m) TCAM_PIPELINE_PLAYING = false ->
  create_pipeline (with_status TCAM_PIPELINE_PLAYING m) = (true, m1) ->
  start_playing m1 = Some r ->
  set_status TCAM_PIPELINE_PLAYING m = Some (true, snd r).
Proof.
  intros Hs Hc Hp. unfold set_status. rewrite Hs, Hc, Hp.
  destruct r. reflexivity.
Qed.

(** C3 on a manager whose sink refuses to play: [start_playing] fails and
    has rolled back through [stop_playing], the state is stopped again, and
    [set_status] still answers [true]. *)
Theorem set_status_playing_hides_refusal :
  let m := stopped_manager willing_source refusing_sink [] 1 in
  option_map fst
    (start_playing (snd (create_pipeline (with_status TCAM_PIPELINE_PLAYING m))))
  = Some false
  /\ option_map fst (set_status TCAM_PIPELINE_PLAYING m) = Some true
  /\ option_map (fun r => status (snd r)) (set_status TCAM_PIPELINE_PLAYING m)
     = Some TCAM_PIPELINE_STOPPED.
Proof. vm_compute. repeat split. Qed.

(** C4 on a playing manager whose source refuses to stop: [stop_playing]
    returns [false] with the thread neither joined nor touched, and the next
    [set_status(TCAM_PIPELINE_PLAYING)] assigns to a joinable thread. *)
Theorem stop_playing_returns_without_join :
  let playing := started (stopped_manager clinging_source willing_sink [] 1) in
  status playing = TCAM_PIPELINE_PLAYING
  /\ m_pipeline_thread playing = running
  /\ fst (stop_playing playing) = false
  /\ m_pipeline_thread (snd (stop_playing playing)) = running
  /\ ~ stop_joins playing
  /\ set_status TCAM_PIPELINE_PLAYING (snd (stop_playing playing)) = None.
Proof.
  vm_compute. repeat split. discriminate.
Qed.

(** C8.  [set_status(s)] in state [s] returns [true] and changes nothing:
    not the state, not the chain, not the queue, not the thread, and no
    collaborator is called. *)
Theorem set_status_same (m : PipelineManager) (s : TCAM_PIPELINE_STATUS) :
  status m = s -> set_status s m = Some (true, m).
Proof.
  intros <-. unfold set_status. rewrite status_eqb_refl. reflexivity.
Qed.

Lemma set_status_same_witness :
  set_status TCAM_PIPELINE_PLAYING
    (started (stopped_manager willing_source willing_sink [] 1))
  = Some (true, started (stopped_manager willing_source willing_sink [] 1)).
Proof.
  apply (set_status_same
           (started (stopped_manager willing_source willing_sink [] 1))
           TCAM_PIPELINE_PLAYING).
  reflexivity.
Defined.

(** C10.  For a target other than playing and stopped, [set_status] returns
    [true] and the manager differs from the one before in its status field
    at most. *)
Theorem set_status_other (m : PipelineManager) (s : TCAM_PIPELINE_STATUS) :
  s <> TCAM_PIPELINE_PLAYING ->
  s <> TCAM_PIPELINE_STOPPED ->
  exists m',
    set_status s m = Some (true, m')
    /\ status m' = s
    /\ source m' = source m /\ sink m' = sink m
    /\ available_input_formats m' = available_input_formats m
    /\ input_format m' = input_format m /\ output_format m' = output_format m
    /\ available_filter m' = available_filter m
    /\ filter_pipeline m' = filter_pipeline m
    /\ m_entry_queue m' = m_entry_queue m
    /\ m_pipeline_thread m' = m_pipeline_thread m
    /\ calls m' = calls m.
Proof.
  intros Hp Hs. exists (with_status s m). split; [|repeat split].
  unfold set_status.
  destruct (status_eqb (status m) s) eqn:He.
  - apply status_eqb_eq in He. subst s. rewrite with_status_same. reflexivity.
  - destruct s; try reflexivity; contradiction.
Qed.

Lemma set_status_other_witness :
  exists m',
    set_status TCAM_PIPELINE_PAUSED
      (started (stopped_manager willing_source willing_sink [] 1))
    = Some (true, m')
    /\ status m' = TCAM_PIPELINE_PAUSED
    /\ m_pipeline_thread m' = running.
Proof.
  destruct (set_status_other
              (started (stopped_manager willing_source willing_sink [] 1))
              TCAM_PIPELINE_PAUSED) as (m' & H1 & H2 & H);
    [discriminate|discriminate|].
  exists m'. split; [exact H1|]. split; [exact H2|].
  destruct H as (_ & _ & _ & _ & _ & _ & _ & _ & Ht & _). exact Ht.
Defined.

(** *** [add_interpretation_filter] *)

(** C5, as the code has it.  [add_interpretation_filter] returns [true];
    it calls [setVideoFormat(input_format, input_format)] on every
    interpretation filter of the registry, in registry order; and the
    filters that take the input fourcc, or whose input list is the single
    entry 0, stand at the front of the chain in the reverse of their
    registry order, before what the chain held. *)
Theorem add_interpretation_filter_front (m : PipelineManager) :
  fst (add_interpretation_filter m) = true
  /\ filter_pipeline (snd (add_interpretation_filter m))
     = (rev (usable_indices m) ++ filter_pipeline m)%list
  /\ calls (snd (add_interpretation_filter m))
     = (calls m
        ++ map (fun i => call_filter_setVideoFormat i (input_format m) (input_format m))
             (List.filter (interpret_index m) (seq 0 (length (available_filter m)))))%list
  /\ input_format (snd (add_interpretation_filter m)) = input_format m.
Proof.
  split; [reflexivity|].
  destruct (interpretation_fold m (seq 0 (length (available_filter m))) m
              (same_registry_refl m)) as ([Hf _] & Hp & Hc).
  split; [exact Hp|]. split; [exact Hc|exact Hf].
Qed.

(** C5, as the specification words it, fails: two usable filters end up in
    the order opposite to that of the registry. *)
Lemma add_interpretation_filter_not_registry_order :
  ~ inserted_in_registry_order two_interpreters.
Proof. unfold inserted_in_registry_order. vm_compute. discriminate. Qed.

(** *** [push_image] and the pipeline thread *)

Lemma run_pipeline_turn_playing m b q snk :
  status m = TCAM_PIPELINE_PLAYING ->
  m_entry_queue m = b :: q ->
  sink m = Some snk ->
  run_pipeline_turn m
  = (forwarded,
     record (call_sink_push_image b)
       (record (call_property_filter_apply b) (with_entry_queue q m))).
Proof.
  intros Hs Hq Hk. unfold run_pipeline_turn. rewrite Hs, Hq. simpl.
  rewrite Hk. reflexivity.
Qed.





(** With no sink attached a turn of the pipeline thread takes the oldest
    buffer, gives it to the property filter, and hands it to nobody. *)
Example run_pipeline_turn_without_sink :
  let m := mkManager TCAM_PIPELINE_PLAYING (Some willing_source) None [1]
             (format_640 1) (format_640 1) [] [] [3%nat; 4%nat] running [] in
  fst (run_pipeline_turn m) = forwarded
  /\ m_entry_queue (snd (run_pipeline_turn m)) = [4%nat]
  /\ calls (snd (run_pipeline_turn m)) = [call_property_filter_apply 3%nat].
Proof. vm_compute. repeat split. Qed.


(** *** No compatible format *)

(** What [create_pipeline] answers when no conversion filter produces the
    fourcc asked for: the chain is empty, the source is asked for the output
    format itself, and the answers of source and sink decide. *)
Lemma create_pipeline_no_filter m src snk :
  source m = Some src -> sink m = Some snk ->
  no_conversion_to m = true ->
  fst (create_pipeline m)
  = source_setVideoFormat src (output_format m)
    && sink_setVideoFormat snk (output_format m)
    && source_set_buffer_collection src
  /\ filter_pipeline (snd (create_pipeline m)) = []
  /\ input_format (snd (create_pipeline m)) = output_format m.
Proof.
  intros Hs Hk Hn. unfold create_pipeline. rewrite Hs, Hk.
  rewrite (create_conversion_pipeline_no_filter (with_filter_pipeline [] m) src snk)
    by assumption.
  cbn [negb]. unfold create_input_format. simpl. rewrite set_fourcc_get.
  destruct (source_setVideoFormat src (output_format m)); simpl;
    [|repeat split].
  destruct (sink_setVideoFormat snk (output_format m)); simpl;
    [|repeat split].
  destruct (source_set_buffer_collection src); simpl; repeat split.
Qed.

(** C7, as the code has it.  When no element and no pair of elements
    bridges the available and the wanted caps (the by1xtransform block, if
    it is switched on, included) and their intersection is empty,
    [find_input_caps] returns no caps; videoconvert is marked as required
    on the dutils path, nothing otherwise.  In the manager
    [create_conversion_pipeline] returns [true] whenever source and sink
    are set; with no conversion filter for the fourcc asked for,
    [create_pipeline] leaves the chain empty, makes the output format the
    input format, and returns what source and sink answer to that format
    and to the buffer collection. *)
Theorem no_compatible_format (code : Fourcc.name -> Z) (lib : Gst.GstLib)
    (available wanted : Gst.GstCaps)
    (modules : GstBase.input_caps_required_modules)
    (toggles : GstBase.input_caps_toggles)
    (m : PipelineManager) (src : ImageSource) (snk : SinkInterface) :
  (GstBase.bridges lib "tcamdutils" "tcamdutils" available wanted = false ->
   GstBase.use_by1xtransform toggles
   && GstBase.by1xtransform_bridges lib available wanted = false ->
   GstBase.bridges lib "bayer2rgb" "bayer2rgb" available wanted = false ->
   GstBase.bridges lib "bayer2rgb" "videoconvert" available wanted = false ->
   GstBase.bridges lib "videoconvert" "videoconvert" available wanted = false ->
   GstBase.bridges lib "jpegdec" "jpegdec" available wanted = false ->
   Gst.gst_caps_is_empty wanted = false ->
   Gst.gst_caps_is_empty (Gst.gst_caps_intersect lib available wanted) = true ->
   GstBase.find_input_caps code lib (Some available) (Some wanted) modules toggles
   = Gst.Returns
       (None,
        if GstBase.dutils_selected lib toggles
        then GstBase.set_videoconvert GstBase.no_modules
        else GstBase.no_modules))
  /\ (source m = Some src -> sink m = Some snk ->
      fst (create_conversion_pipeline m) = true
      /\ (no_conversion_to m = true ->
          fst (create_pipeline m)
          = source_setVideoFormat src (output_format m)
            && sink_setVideoFormat snk (output_format m)
            && source_set_buffer_collection src
          /\ filter_pipeline (snd (create_pipeline m)) = []
          /\ input_format (snd (create_pipeline m)) = output_format m)).
Proof.
  split.
  - intros Hd Hb H1 H2 H3 H4 Hw Hi.
    destruct (GstBase.dutils_selected lib toggles) eqn:Hsel.
    + rewrite Negotiation.find_input_caps_dutils_selected by assumption.
      apply Negotiation.find_input_caps_dutils_none. exact Hd.
    + rewrite Negotiation.find_input_caps_not_dutils by assumption.
      f_equal. apply Negotiation.find_input_caps_elements_none; assumption.
  - intros Hs Hk. split.
    + unfold create_conversion_pipeline. rewrite Hs, Hk. reflexivity.
    + intros Hn. apply (create_pipeline_no_filter m src snk); assumption.
Qed.

Lemma no_compatible_format_witness :
  GstBase.find_input_caps Sample.code Sample.plain_library
    (Some Sample.gray8_640) (Some Sample.want_bayer)
    GstBase.no_modules (GstBase.mkToggles false true)
  = Gst.Returns (None, GstBase.no_modules)
  /\ fst (create_conversion_pipeline unbridged_manager) = true
  /\ fst (create_pipeline unbridged_manager) = true
  /\ filter_pipeline (snd (create_pipeline unbridged_manager)) = []
  /\ input_format (snd (create_pipeline unbridged_manager)) = format_640 2.
Proof.
  destruct (no_compatible_format Sample.code Sample.plain_library
              Sample.gray8_640 Sample.want_bayer GstBase.no_modules
              (GstBase.mkToggles false true) unbridged_manager
              willing_source willing_sink) as [Hcaps Hmanager].
  split; [apply Hcaps; reflexivity|].
  destruct (Hmanager eq_refl eq_refl) as [Hconv Hpipe].
  split; [exact Hconv|]. apply Hpipe. reflexivity.
Defined.

(** C7, as the specification words it, fails in the manager: the pipeline
    is created, with an empty chain, although no filter converts to the
    fourcc asked for and the device does not offer it. *)
Lemma create_pipeline_succeeds_unbridged : ~ creation_fails unbridged_manager.
Proof.
  unfold creation_fails. intros H. specialize (H eq_refl eq_refl).
  vm_compute in H. discriminate.
Qed.

End Manager.

(** ** Serial numbers and format names *)

Module Names.
Import Gst GstBase.

Lemma substring_whole s : String.substring 0 (String.length s) s = s.
Proof. induction s as [|c s IH]; simpl; [reflexivity|]. rewrite IH. reflexivity. Qed.

Lemma find_dash_split s : forall n,
  find_dash s = Some n ->
  (String.substring 0 n s ++ "-" ++ substr_from (n + 1) s)%string = s
  /\ find_dash (String.substring 0 n s) = None.
Proof.
  induction s as [|c s IH]; intros n H; simpl in H; [discriminate|].
  destruct (Ascii.eqb c "-") eqn:Hc.
  - injection H as <-. apply Ascii.eqb_eq in Hc. subst c.
    unfold substr_from. simpl. rewrite Nat.sub_0_r, substring_whole.
    split; reflexivity.
  - destruct (find_dash s) as [n'|] eqn:Hs; [|discriminate].
    injection H as <-. destruct (IH n' eq_refl) as [H1 H2].
    unfold substr_from in *. simpl in *. rewrite H1, Hc, H2. split; reflexivity.
Qed.

(** An input with a dash is split at its first dash: the serial part holds
    no dash, and serial, dash and type joined give the input back.  An
    input without a dash is the serial, with the empty string as type.  The
    overload with output parameters computes the same parts, and leaves
    [type] as it was when there is no dash. *)
Theorem separate_serial_and_type_rejoins (input serial0 type0 : string) :
  let r := separate_serial_and_type input in
  match find_dash input with
  | Some _ =>
      find_dash (fst r) = None
      /\ input = (fst r ++ "-" ++ snd r)%string
      /\ separate_serial_and_type_into input serial0 type0 = (true, fst r, snd r)
  | None =>
      r = (input, "")
      /\ separate_serial_and_type_into input serial0 type0 = (false, input, type0)
  end.
Proof.
  unfold separate_serial_and_type, separate_serial_and_type_into.
  destruct (find_dash input) as [n|] eqn:H; simpl.
  - destruct (find_dash_split input n H) as [H1 H2].
    split; [exact H2|]. split; [symmetry; exact H1|reflexivity].
  - split; reflexivity.
Qed.

(** Every packed 10-bit (12-bit) Bayer format name also passes the test for
    10-bit (12-bit) Bayer names, which compares a prefix only. *)
Theorem packed_bayer_strings_pass_unpacked_test (format_string : option string) :
  (tcam_gst_is_bayer10_packed_string format_string = true ->
   tcam_gst_is_bayer10_string format_string = true)
  /\ (tcam_gst_is_bayer12_packed_string format_string = true ->
      tcam_gst_is_bayer12_string format_string = true).
Proof.
  unfold tcam_gst_is_bayer10_packed_string, tcam_gst_is_bayer12_packed_string,
    tcam_gst_is_bayer10_string, tcam_gst_is_bayer12_string.
  destruct format_string as [s|]; [|split; discriminate].
  split; intros H; apply existsb_exists in H as (x & Hin & Hx);
    apply String.eqb_eq in Hx; subst x; simpl in Hin;
    repeat (destruct Hin as [<-|Hin]; [reflexivity|]); destruct Hin.
Qed.

Lemma packed_bayer_strings_pass_unpacked_test_witness :
  tcam_gst_is_bayer10_string (Some "rggb10p") = true
  /\ tcam_gst_is_bayer12_string (Some "gbrg12m") = true.
Proof.
  split.
  - apply (packed_bayer_strings_pass_unpacked_test (Some "rggb10p")). reflexivity.
  - apply (packed_bayer_strings_pass_unpacked_test (Some "gbrg12m")). reflexivity.
Defined.

(** Caps renamed to [video/x-bayer] by [gst_caps_change_name] have as many
    structures as before, are Bayer only, hold no jpeg, and none of their
    structures has a format field left. *)
Theorem gst_caps_change_name_bayer (caps : GstCaps) :
  let renamed := gst_caps_change_name caps "video/x-bayer" in
  length renamed = length caps
  /\ gst_caps_are_bayer_only (Some renamed) = true
  /\ contains_jpeg (Some renamed) = false
  /\ Forall (fun struc => gst_structure_has_field struc "format" = false) renamed.
Proof.
  simpl. unfold gst_caps_change_name.
  split; [apply length_map|].
  induction caps as [|struc caps IH]; simpl; [repeat split; constructor|].
  destruct IH as (H1 & H2 & H3). rewrite H1, H2. repeat split.
  constructor; [|exact H3].
  unfold gst_structure_has_field, gst_structure_get_value,
    gst_structure_remove_field, gst_structure_set_name. simpl.
  induction (st_fields struc) as [|[k v] fs IHf]; simpl; [reflexivity|].
  destruct (String.eqb k "format") eqn:Hk; simpl; [exact IHf|].
  rewrite Hk. exact IHf.
Qed.

(** Caps that are Bayer only hold no jpeg structure, and hold a Bayer
    structure unless they are empty; mono-only raw caps hold neither. *)
Theorem caps_kinds_exclude (caps : GstCaps) :
  (gst_caps_are_bayer_only (Some caps) = true ->
   contains_jpeg (Some caps) = false
   /\ contains_bayer (Some caps) = negb (gst_caps_is_empty caps))
  /\ (tcam_gst_raw_only_has_mono (Some caps) = true ->
      contains_jpeg (Some caps) = false
      /\ contains_bayer (Some caps) = false
      /\ Forall (fun struc => gst_structure_has_field struc "format" = true) caps).
Proof.
  split.
  - induction caps as [|struc caps IH];
      cbn [gst_caps_are_bayer_only forallb contains_jpeg contains_bayer existsb];
      [intros _; split; reflexivity|].
    intros H. apply andb_true_iff in H as [Hn Hr].
    destruct (IH Hr) as [H1 H2]. cbn [contains_jpeg contains_bayer] in H1, H2.
    apply String.eqb_eq in Hn. rewrite Hn, H1. split; reflexivity.
  - induction caps as [|struc caps IH];
      cbn [tcam_gst_raw_only_has_mono forallb contains_jpeg contains_bayer existsb];
      [intros _; repeat split; constructor|].
    intros H. apply andb_true_iff in H as [Hn Hr].
    destruct (IH Hr) as (H1 & H2 & H3).
    cbn [contains_jpeg contains_bayer] in H1, H2. rewrite H1, H2.
    destruct (String.eqb "video/x-raw" (st_name struc)) eqn:Hraw;
      [|rewrite ?Hraw in Hn; discriminate Hn].
    rewrite ?Hraw in Hn. apply String.eqb_eq in Hraw. rewrite <- Hraw.
    destruct (gst_structure_has_field struc "format") eqn:Hf;
      [|rewrite ?Hf in Hn; discriminate Hn].
    repeat split. constructor; assumption.
Qed.

Lemma caps_kinds_exclude_witness :
  contains_jpeg (Some Sample.gray8_640) = false
  /\ contains_bayer (Some Sample.gray8_640) = false
  /\ Forall (fun struc => gst_structure_has_field struc "format" = true)
       Sample.gray8_640.
Proof.
  apply (caps_kinds_exclude Sample.gray8_640). reflexivity.
Defined.

Lemma prefix_same_length p : forall q s,
  String.length p = String.length q ->
  String.prefix p s = true -> String.prefix q s = true -> p = q.
Proof.
  induction p as [|a p IH]; intros [|b q] s Hl Hp Hq; try discriminate Hl;
    [reflexivity|].
  destruct s as [|c s]; [discriminate Hp|]. simpl in Hp, Hq.
  destruct (ascii_dec a c) as [->|]; [|discriminate Hp].
  destruct (ascii_dec b c) as [->|]; [|discriminate Hq].
  f_equal. apply (IH q s); [injection Hl; auto|assumption|assumption].
Qed.

(** The tests for the bit depth of a Bayer format name exclude each other:
    a name that passes the 8-bit or the 16-bit test passes none of the
    others, and no name passes both the 10-bit and the 12-bit test. *)
Theorem bayer_string_depths_exclude (format_string : option string) :
  (tcam_gst_is_bayer8_string format_string = true ->
   tcam_gst_is_bayer10_string format_string = false
   /\ tcam_gst_is_bayer12_string format_string = false
   /\ tcam_gst_is_bayer16_string format_string = false)
  /\ (tcam_gst_is_bayer16_string format_string = true ->
      tcam_gst_is_bayer8_string format_string = false
      /\ tcam_gst_is_bayer10_string format_string = false
      /\ tcam_gst_is_bayer12_string format_string = false)
  /\ (tcam_gst_is_bayer10_string format_string = true ->
      tcam_gst_is_bayer12_string format_string = false).
Proof.
  destruct format_string as [s|]; [|repeat split; discriminate].
  unfold tcam_gst_is_bayer8_string, tcam_gst_is_bayer16_string.
  split; [|split].
  - intros H. repeat (apply orb_true_iff in H as [H|H]);
      apply String.eqb_eq in H; subst s; repeat split; reflexivity.
  - intros H. repeat (apply orb_true_iff in H as [H|H]);
      apply String.eqb_eq in H; subst s; repeat split; reflexivity.
  - unfold tcam_gst_is_bayer10_string, tcam_gst_is_bayer12_string, starts_with.
    intros H.
    destruct (String.prefix "gbrg12" s) eqn:H1;
      [|destruct (String.prefix "grbg12" s) eqn:H2;
        [|destruct (String.prefix "rggb12" s) eqn:H3;
          [|destruct (String.prefix "bggr12" s) eqn:H4; [|reflexivity]]]];
      exfalso;
      repeat (apply orb_true_iff in H as [H|H]);
      match goal with
      | Ha : String.prefix ?p s = true, Hb : String.prefix ?q s = true |- _ =>
          assert (p = q) as He
            by (apply (prefix_same_length p q s); [reflexivity|exact Ha|exact Hb]);
          discriminate He
      end.
Qed.

Lemma bayer_string_depths_exclude_witness :
  tcam_gst_is_bayer12_string (Some "rggb10p") = false.
Proof.
  apply (bayer_string_depths_exclude (Some "rggb10p")). reflexivity.
Defined.

End Names.

(** ** Ties in the ranking, and the index of fourccs *)

Module Ranking.
Import Fourcc Gst GstBase.

Lemma fold_rank_step_keeps code k x l : forall m,
  map_begin m = Some (k, x) ->
  forallb (rank_above code k) l = true ->
  map_begin (fold_left (rank_step code) l m) = Some (k, x).
Proof.
  induction l as [|y l IH]; intros m Hm Hl; simpl; [exact Hm|].
  simpl in Hl. apply andb_true_iff in Hl as [Hy Hl].
  apply IH; [|exact Hl].
  rewrite PreferredFormat.rank_step_rank. unfold rank_above in Hy.
  destruct (rank code y) as [k'|]; [|exact Hm].
  rewrite PreferredFormat.map_begin_assign, Hm.
  apply Z.ltb_lt in Hy. destruct (Z.leb_spec k' k); [lia|reflexivity].
Qed.

(** Among the fourccs of least rank the one that comes last in the list is
    returned: [x] is returned when nothing before it ranks below it and
    nothing after it ranks as low. *)
Theorem find_preferred_format_last_of_least (code : name -> Z)
    (l1 l2 : list Z) (x k : Z) :
  rank code x = Some k ->
  forallb (rank_at_least code k) l1 = true ->
  forallb (rank_above code k) l2 = true ->
  find_preferred_format code (l1 ++ x :: l2) = x.
Proof.
  intros Hx H1 H2. unfold find_preferred_format.
  destruct (l1 ++ x :: l2)%list as [|z l] eqn:E;
    [destruct l1; discriminate|]. rewrite <- E. clear E.
  rewrite fold_left_app. simpl.
  rewrite (fold_rank_step_keeps code k x l2); [reflexivity| |exact H2].
  rewrite PreferredFormat.rank_step_rank, Hx, PreferredFormat.map_begin_assign.
  pose proof (PreferredFormat.best_of_all code l1) as Hb. unfold best_of in Hb.
  destruct (map_begin (fold_left (rank_step code) l1 [])) as [[k1 v1]|];
    [|reflexivity].
  destruct Hb as (Hin & Hv & _).
  rewrite forallb_forall in H1. specialize (H1 v1 Hin).
  unfold rank_at_least in H1. rewrite Hv in H1. rewrite H1. reflexivity.
Qed.

Lemma find_preferred_format_last_of_least_witness :
  find_preferred_format Sample.code
    ([Sample.code FOURCC_Y16; Sample.code FOURCC_BGR24]
     ++ Sample.code FOURCC_BGRA32 :: [Sample.code FOURCC_MJPG])
  = Sample.code FOURCC_BGRA32.
Proof.
  apply (find_preferred_format_last_of_least Sample.code
           [Sample.code FOURCC_Y16; Sample.code FOURCC_BGR24]
           [Sample.code FOURCC_MJPG] (Sample.code FOURCC_BGRA32) 10);
    reflexivity.
Defined.

Lemma insert_sorted_In x y l :
  In y (insert_sorted Z.leb x l) <-> y = x \/ In y l.
Proof.
  induction l as [|a l IH]; simpl; [intuition|].
  destruct (x <=? a); simpl; [intuition|]. rewrite IH. intuition.
Qed.

Lemma insert_sorted_sorted x l :
  Sorted Z.le l -> Sorted Z.le (insert_sorted Z.leb x l).
Proof.
  induction l as [|a l IH]; intros H; simpl; [repeat constructor|].
  destruct (Z.leb_spec x a).
  - constructor; [exact H|]. constructor. assumption.
  - apply Sorted_inv in H as [Hs Hh]. constructor; [apply IH, Hs|].
    destruct l as [|b l]; simpl; [constructor; lia|].
    destruct (x <=? b); constructor; [lia|].
    inversion Hh; assumption.
Qed.

Lemma std_sort_sorted l : Sorted Z.le (std_sort Z.leb l).
Proof.
  induction l as [|a l IH]; simpl; [constructor|].
  apply insert_sorted_sorted, IH.
Qed.

Lemma std_sort_In x l : In x (std_sort Z.leb l) <-> In x l.
Proof.
  induction l as [|a l IH]; simpl; [reflexivity|].
  rewrite insert_sorted_In, IH. intuition.
Qed.

Lemma std_unique_cons2 a b l :
  std_unique Z.eqb (a :: b :: l)
  = if a =? b then std_unique Z.eqb (b :: l) else a :: std_unique Z.eqb (b :: l).
Proof. reflexivity. Qed.

Lemma std_unique_head y t : exists rest, std_unique Z.eqb (y :: t) = y :: rest.
Proof.
  revert y. induction t as [|z t IH]; intros y; [exists []; reflexivity|].
  rewrite std_unique_cons2. destruct (Z.eqb_spec y z) as [->|Hne].
  - apply IH.
  - eexists. reflexivity.
Qed.

Lemma std_unique_In x l : In x (std_unique Z.eqb l) <-> In x l.
Proof.
  induction l as [|a l IH]; [reflexivity|].
  destruct l as [|b l]; [reflexivity|].
  rewrite std_unique_cons2. destruct (Z.eqb_spec a b) as [->|Hne].
  - rewrite IH. simpl. intuition.
  - change (In x (a :: std_unique Z.eqb (b :: l)))
      with (a = x \/ In x (std_unique Z.eqb (b :: l))).
    rewrite IH. simpl. intuition.
Qed.

Lemma std_unique_increasing l :
  Sorted Z.le l -> increasing (std_unique Z.eqb l) = true.
Proof.
  induction l as [|a l IH]; intros H; [reflexivity|].
  destruct l as [|b l]; [reflexivity|].
  apply Sorted_inv in H as [Hs Hh]. specialize (IH Hs).
  rewrite std_unique_cons2. destruct (Z.eqb_spec a b) as [->|Hne]; [exact IH|].
  destruct (std_unique_head b l) as (rest & E). rewrite E in *.
  change (increasing (a :: b :: rest))
    with ((a <? b) && increasing (b :: rest)).
  rewrite IH, andb_true_r.
  inversion Hh; subst. apply Z.ltb_lt. lia.
Qed.

(** The fourccs indexed from caps come in strictly increasing order, so
    without duplicates, and they are exactly the fourccs other than 0 that
    the name of a structure of the caps has with one of the structure's
    format strings (with the empty string when it has none). *)
Theorem index_format_fourccs_increasing (lib : GstLib) (caps : option GstCaps) :
  increasing (index_format_fourccs lib caps) = true
  /\ forall x,
       In x (index_format_fourccs lib caps)
       <-> x <> 0
           /\ exists struc fmt,
                In struc (default [] caps)
                /\ In fmt (indexed_formats struc)
                /\ x = tcam_fourcc_from_gst_1_0_caps_string lib (st_name struc)
                         (Some fmt).
Proof.
  assert (Hadd : forall n f x, In x (add_format lib n f) <->
            x <> 0 /\ x = tcam_fourcc_from_gst_1_0_caps_string lib n (Some f)).
  { intros n f x. unfold add_format.
    destruct (Z.eqb_spec (tcam_fourcc_from_gst_1_0_caps_string lib n (Some f)) 0)
      as [E|E]; simpl.
    - split; [intros []|]. intros [H0 ->]. contradiction.
    - split; [intros [<-|[]]; split; [assumption|reflexivity]|].
      intros [_ ->]. left. reflexivity. }
  assert (Hstruc : forall struc x,
            In x (flat_map (add_format lib (st_name struc)) (indexed_formats struc))
            <-> x <> 0 /\ exists fmt, In fmt (indexed_formats struc)
                  /\ x = tcam_fourcc_from_gst_1_0_caps_string lib (st_name struc)
                           (Some fmt)).
  { intros struc x. rewrite in_flat_map. split.
    - intros (fmt & Hin & Hx). apply Hadd in Hx as [H0 Hx].
      split; [exact H0|]. exists fmt. split; assumption.
    - intros (H0 & fmt & Hin & Hx). exists fmt. split; [exact Hin|].
      apply Hadd. split; assumption. }
  unfold index_format_fourccs.
  destruct caps as [[|s0 rest]|];
    cbn [is_really_empty_caps gst_caps_is_empty default];
    try (split; [reflexivity|];
         intros x; split; [intros []|intros (_ & struc & fmt & [] & _)]).
  split; [apply std_unique_increasing, std_sort_sorted|].
  intros x. rewrite std_unique_In, std_sort_In.
  match goal with
  | |- In x (flat_map ?g ?l) <-> _ =>
      assert (Hg : forall struc,
                g struc
                = flat_map (add_format lib (st_name struc)) (indexed_formats struc))
  end.
  { intros struc. unfold indexed_formats. cbv zeta.
    destruct (match gst_structure_get_field_type struc "format" with
              | GST_TYPE_LIST => _ | G_TYPE_STRING => _ | _ => _ end);
      [simpl; rewrite app_nil_r|]; reflexivity. }
  rewrite in_flat_map. split.
  - intros (struc & Hin & Hx). rewrite Hg in Hx.
    apply Hstruc in Hx as (H0 & fmt & Hf & E).
    split; [exact H0|]. exists struc, fmt. repeat split; assumption.
  - intros (H0 & struc & fmt & Hin & Hf & E). exists struc. split; [exact Hin|].
    rewrite Hg. apply Hstruc. split; [exact H0|]. exists fmt. split; assumption.
Qed.

End Ranking.

(** ** More on the largest caps and on the input caps *)

Module CapsFacts.
Import Gst GstBase.

Lemma fixate_int_name s f t :
  st_name (gst_structure_fixate_field_nearest_int s f t) = st_name s.
Proof.
  unfold gst_structure_fixate_field_nearest_int.
  destruct (gst_structure_get_value s f) as [[]|]; try reflexivity.
  destruct (nearest_int t l); reflexivity.
Qed.

Lemma fixate_fraction_name s f t :
  st_name (gst_structure_fixate_field_nearest_fraction s f t) = st_name s.
Proof.
  unfold gst_structure_fixate_field_nearest_fraction.
  destruct (gst_structure_get_value s f) as [[]|]; try reflexivity.
  destruct (nearest_fraction t l); reflexivity.
Qed.

Lemma tcam_gst_fixate_caps_one struc :
  exists s, tcam_gst_fixate_caps (Some [struc]) = Some [s]
            /\ st_name s = st_name struc.
Proof.
  unfold tcam_gst_fixate_caps. eexists. split; [reflexivity|].
  repeat match goal with
         | |- context [if ?b then _ else _] => destruct b
         end;
    rewrite ?fixate_fraction_name, ?fixate_int_name; reflexivity.
Qed.

Section WithLibrary.

Variable code : Fourcc.name -> Z.
Variable lib : GstLib.

(** The body of the search loop in terms of the ints the structure holds. *)
Lemma largest_step_ints preferred st i struc :
  largest_step lib preferred st i struc =
  if negb (tcam_fourcc_from_gst_1_0_caps_string lib (st_name struc)
             (gst_structure_get_string struc "format") =? preferred)
  then st
  else
    let new_width :=
      match gst_structure_get_int struc "width" with
      | Some x => largest_width st <? x
      | None => false
      end in
    let new_height :=
      match gst_structure_get_int struc "height" with
      | Some y => largest_height st <=? y
      | None => false
      end in
    mkLargest (if new_width || new_height then i else largest_index st)
      (match gst_structure_get_int struc "width" with
       | Some x => if largest_width st <? x then x else largest_width st
       | None => largest_width st
       end)
      (match gst_structure_get_int struc "height" with
       | Some y => if largest_height st <=? y then y else largest_height st
       | None => largest_height st
       end).
Proof.
  unfold largest_step, gst_structure_get_field_type, gst_structure_get_int.
  destruct (negb _); [reflexivity|].
  destruct (gst_structure_get_value struc "width") as [[]|];
    destruct (gst_structure_get_value struc "height") as [[]|]; simpl;
    repeat match goal with
           | |- context [if ?b then _ else _] => destruct b; simpl
           end; reflexivity.
Qed.

Lemma largest_loop_bound preferred strucs : forall i st,
  largest_index (largest_loop lib preferred i strucs st) = largest_index st
  \/ (i <= largest_index (largest_loop lib preferred i strucs st)
      < i + length strucs)%nat.
Proof.
  induction strucs as [|struc strucs IH]; intros i st; simpl; [left; reflexivity|].
  destruct (IH (S i) (largest_step lib preferred st i struc)) as [H|H].
  - rewrite H, largest_step_ints.
    destruct (negb _); [left; reflexivity|]. simpl.
    destruct (_ || _); [right; lia|left; reflexivity].
  - right. lia.
Qed.

Lemma largest_loop_fixed preferred w h strucs : forall i idx,
  forallb (below lib preferred w h) strucs = true ->
  largest_loop lib preferred i strucs (mkLargest idx w h) = mkLargest idx w h.
Proof.
  induction strucs as [|struc strucs IH]; intros i idx H; simpl; [reflexivity|].
  simpl in H. apply andb_true_iff in H as [Hb Hr].
  rewrite largest_step_ints. unfold below in Hb. simpl.
  destruct (_ =? preferred); simpl; [|apply IH, Hr].
  apply andb_true_iff in Hb as [Hw Hh].
  destruct (gst_structure_get_int struc "width") as [x|];
    destruct (gst_structure_get_int struc "height") as [y|];
    repeat match goal with
           | H : (_ <=? _) = true |- _ => apply Z.leb_le in H
           | H : (_ <? _) = true |- _ => apply Z.ltb_lt in H
           end;
    repeat match goal with
           | |- context [?a <? ?b] => destruct (Z.ltb_spec a b); try lia
           | |- context [?a <=? ?b] => destruct (Z.leb_spec a b); try lia
           end; simpl; apply IH, Hr.
Qed.

Lemma largest_loop_prefix preferred w h strucs : forall i st,
  forallb (below lib preferred w h) strucs = true ->
  largest_width st <= w -> largest_height st <= h ->
  largest_width (largest_loop lib preferred i strucs st) <= w
  /\ largest_height (largest_loop lib preferred i strucs st) <= h.
Proof.
  induction strucs as [|struc strucs IH]; intros i st H Hw Hh; simpl;
    [split; assumption|].
  simpl in H. apply andb_true_iff in H as [Hb Hr].
  apply IH; [exact Hr| |]; rewrite largest_step_ints; unfold below in Hb;
    destruct (_ =? preferred); simpl; try assumption;
    apply andb_true_iff in Hb as [Hbw Hbh];
    destruct (gst_structure_get_int struc "width") as [x|];
    destruct (gst_structure_get_int struc "height") as [y|];
    repeat match goal with
           | H : (_ <=? _) = true |- _ => apply Z.leb_le in H
           | H : (_ <? _) = true |- _ => apply Z.ltb_lt in H
           end;
    repeat match goal with
           | |- context [if ?a <? ?b then _ else _] => destruct (Z.ltb_spec a b)
           | |- context [if ?a <=? ?b then _ else _] => destruct (Z.leb_spec a b)
           end; lia.
Qed.

End WithLibrary.

(** The search loop of [tcam_gst_find_largest_caps] settles on an entry of
    the preferred fourcc that is at least as wide as, and strictly higher
    than, every other entry of that fourcc, wherever it stands in the caps. *)
Theorem largest_loop_dominating (lib : GstLib) (preferred w h : Z)
    (before after : list GstStructure) (d : GstStructure) :
  tcam_fourcc_from_gst_1_0_caps_string lib (st_name d)
    (gst_structure_get_string d "format") = preferred ->
  gst_structure_get_int d "width" = Some w ->
  gst_structure_get_int d "height" = Some h ->
  -1 <= w -> -1 <= h ->
  forallb (below lib preferred w h) before = true ->
  forallb (below lib preferred w h) after = true ->
  gst_caps_copy_nth (before ++ d :: after)%list
    (largest_index
       (largest_loop lib preferred 0 (before ++ d :: after)%list (mkLargest 0 (-1) (-1))))
  = [d].
Proof.
  intros Hf Hw Hh Hw1 Hh1 Hb Ha.
  assert (Hgen : forall i st,
            largest_width st <= w -> largest_height st <= h ->
            largest_index
              (largest_loop lib preferred i (before ++ d :: after)%list st)
            = (i + length before)%nat).
  { intros i st Hsw Hsh.
    assert (Happ : forall l1 l2 j s,
              largest_loop lib preferred j (l1 ++ l2)%list s
              = largest_loop lib preferred (j + length l1) l2
                  (largest_loop lib preferred j l1 s)).
    { induction l1 as [|a l1 IH]; intros l2 j s; simpl.
      - rewrite Nat.add_0_r. reflexivity.
      - rewrite IH. f_equal. lia. }
    rewrite Happ. simpl.
    destruct (largest_loop_prefix lib preferred w h before i st Hb Hsw Hsh)
      as [Hpw Hph].
    set (st1 := largest_loop lib preferred i before st) in *.
    assert (largest_step lib preferred st1 (i + length before) d
            = mkLargest (i + length before) w h) as ->.
    { rewrite largest_step_ints, Hf, Z.eqb_refl, Hw, Hh. simpl.
      destruct (Z.leb_spec (largest_height st1) h); [|lia].
      rewrite orb_true_r. f_equal.
      destruct (Z.ltb_spec (largest_width st1) w); lia. }
    rewrite largest_loop_fixed by exact Ha. reflexivity. }
  rewrite Hgen by (simpl; lia). rewrite Nat.add_0_l.
  unfold gst_caps_copy_nth, GstCaps.
  rewrite lookup_app_r by lia. rewrite Nat.sub_diag. reflexivity.
Qed.

Lemma largest_loop_dominating_witness :
  gst_caps_copy_nth
    ([Sample.caps_entry "video/x-raw" "BGRx" 640 480 [(30, 1)]]
     ++ Sample.caps_entry "video/x-raw" "BGRx" 1920 1080 [(30, 1)]
        :: [Sample.caps_entry "video/x-raw" "BGRx" 1920 720 [(60, 1)];
            Sample.caps_entry "video/x-raw" "GRAY8" 2592 1944 [(15, 1)]])%list
    (largest_index
       (largest_loop Sample.plain_library (Sample.code Fourcc.FOURCC_BGRA32) 0
          ([Sample.caps_entry "video/x-raw" "BGRx" 640 480 [(30, 1)]]
           ++ Sample.caps_entry "video/x-raw" "BGRx" 1920 1080 [(30, 1)]
              :: [Sample.caps_entry "video/x-raw" "BGRx" 1920 720 [(60, 1)];
                  Sample.caps_entry "video/x-raw" "GRAY8" 2592 1944 [(15, 1)]])%list
          (mkLargest 0 (-1) (-1))))
  = [Sample.caps_entry "video/x-raw" "BGRx" 1920 1080 [(30, 1)]].
Proof.
  apply (largest_loop_dominating Sample.plain_library
           (Sample.code Fourcc.FOURCC_BGRA32) 1920 1080);
    try reflexivity; lia.
Defined.

(** What [tcam_gst_find_largest_caps] returns for caps that list their
    structures. *)
Lemma find_largest_caps_listed_shape (code : Fourcc.name -> Z) (lib : GstLib)
    (incoming : option GstCaps) :
  match tcam_gst_find_largest_caps code lib incoming with
  | Returns None => is_really_empty_caps incoming = true
  | Returns (Some c) =>
      is_really_empty_caps incoming = false
      /\ exists s struc,
           c = [s] /\ In struc (default [] incoming)
           /\ st_name s = st_name struc
           /\ gst_structure_get_int s "width" <> None
           /\ gst_structure_get_int s "height" <> None
           /\ gst_structure_get_fraction s "framerate" <> None
  | Indeterminate => is_really_empty_caps incoming = false
  end.
Proof.
  unfold tcam_gst_find_largest_caps.
  destruct incoming as [inc|]; [|reflexivity].
  destruct inc as [|s0 rest]; [reflexivity|].
  cbn [is_really_empty_caps gst_caps_is_empty].
  match goal with
  | |- context [largest_loop lib ?p 0 ?l ?i] =>
      set (preferred := p); set (st := largest_loop lib preferred 0 l i)
  end.
  assert (Hidx : (largest_index st < length (s0 :: rest))%nat).
  { destruct (largest_loop_bound lib preferred (s0 :: rest) 0
                (mkLargest 0 (-1) (-1))) as [H|H];
      fold st in H; simpl in *; lia. }
  unfold gst_caps_copy_nth, GstCaps.
  destruct (lookup_lt_is_Some_2 (s0 :: rest) (largest_index st) Hidx)
    as [struc Hs].
  rewrite Hs.
  destruct (tcam_gst_fixate_caps_one struc) as (s & Hfix & Hname).
  rewrite Hfix.
  destruct (gst_structure_get_int s "height") as [h|]; [|reflexivity].
  destruct (gst_structure_get_int s "width") as [w|]; [|reflexivity].
  destruct (gst_structure_get_fraction s "framerate") as [[num den]|];
    [|reflexivity].
  split; [reflexivity|].
  assert (In struc (s0 :: rest)) as Hin.
  { apply list_elem_of_In. eapply list_elem_of_lookup_2. exact Hs. }
  destruct (gst_structure_get_value s "format") as [v|];
    eexists; exists struc;
    (split; [reflexivity|]); (split; [exact Hin|]); (split; [exact Hname|]);
    repeat split; discriminate.
Qed.

(** [tcam_gst_find_largest_caps] returns [nullptr] exactly for the null
    pointer, for ANY caps and for empty caps.  Caps it returns have one
    structure, named as one of the incoming structures, with an int width,
    an int height and a fraction as frame rate. *)
Theorem tcam_gst_find_largest_caps_shape (code : Fourcc.name -> Z) (lib : GstLib)
    (incoming : caps_pointer) :
  (is_really_empty_caps_any incoming = true
   <-> incoming = null_caps \/ incoming = any_caps \/ incoming = listed_caps [])
  /\ match tcam_gst_find_largest_caps_any code lib incoming with
     | Returns None => is_really_empty_caps_any incoming = true
     | Returns (Some c) =>
         is_really_empty_caps_any incoming = false
         /\ exists s struc,
              c = [s] /\ In struc (listed incoming)
              /\ st_name s = st_name struc
              /\ gst_structure_get_int s "width" <> None
              /\ gst_structure_get_int s "height" <> None
              /\ gst_structure_get_fraction s "framerate" <> None
     | Indeterminate => is_really_empty_caps_any incoming = false
     end.
Proof.
  split.
  - destruct incoming as [| |[|s0 rest]]; simpl; split; auto; try discriminate.
    intros [H|[H|H]]; discriminate H.
  - unfold tcam_gst_find_largest_caps_any.
    destruct incoming as [| |structures]; [reflexivity|reflexivity|].
    cbn [is_really_empty_caps_any listed].
    pose proof (find_largest_caps_listed_shape code lib (Some structures)) as H.
    destruct (is_really_empty_caps (Some structures)); [reflexivity|].
    exact H.
Qed.

(** [find_input_caps] does not read the modules passed in; without
    available caps it returns [nullptr] and requires nothing; with no wanted
    caps, or empty ones, it does what it does when all the available caps
    are wanted. *)
Theorem find_input_caps_defaults (code : Fourcc.name -> Z) (lib : GstLib)
    (available : GstCaps) (wanted : option GstCaps)
    (modules modules' : input_caps_required_modules)
    (toggles : input_caps_toggles) :
  find_input_caps code lib None wanted modules toggles = Returns (None, no_modules)
  /\ find_input_caps code lib (Some available) wanted modules toggles
     = find_input_caps code lib (Some available) wanted modules' toggles
  /\ find_input_caps code lib (Some available) None modules toggles
     = find_input_caps code lib (Some available) (Some available) modules toggles
  /\ find_input_caps code lib (Some available) (Some []) modules toggles
     = find_input_caps code lib (Some available) (Some available) modules toggles.
Proof.
  unfold find_input_caps. repeat split.
  - destruct (gst_caps_is_empty available); reflexivity.
  - destruct (gst_caps_is_empty available); reflexivity.
Qed.

(** On the dutils path a fixed device format is returned as it is, with
    videoconvert and dutils required, whatever caps are wanted, provided
    that tcamdutils takes the format and produces some of the wanted caps. *)
Theorem find_input_caps_dutils_fixed (code : Fourcc.name -> Z) (lib : GstLib)
    (available wanted : GstCaps) (modules : input_caps_required_modules)
    (toggles : input_caps_toggles) :
  dutils_selected lib toggles = true ->
  bridges lib "tcamdutils" "tcamdutils" available wanted = true ->
  gst_caps_is_empty wanted = false ->
  gst_caps_is_fixed available = true ->
  find_input_caps code lib (Some available) (Some wanted) modules toggles
  = Returns (Some available, mkModules false false true false true).
Proof.
  unfold dutils_selected, bridges, takes, gives, find_input_caps,
    find_input_caps_dutils.
  intros Hd Hb Hw Hf. rewrite Hd, Hw.
  destruct (gst_element_factory_find lib "tcamdutils") as [f|]; [|discriminate].
  rewrite andb_comm, Hb, Hf. reflexivity.
Qed.

Lemma find_input_caps_dutils_fixed_witness :
  find_input_caps Sample.code Sample.dutils_library (Some Sample.bgrx_640)
    (Some Sample.want_gray8) no_modules (mkToggles true false)
  = Returns (Some Sample.bgrx_640, mkModules false false true false true).
Proof.
  apply (find_input_caps_dutils_fixed Sample.code Sample.dutils_library
           Sample.bgrx_640 Sample.want_gray8 no_modules (mkToggles true false));
    reflexivity.
Defined.



(** Whatever [find_input_caps] returns, the modules it requires fit the
    toggles and one another: dutils only with [use_dutils], and then with
    videoconvert and nothing else; bayertransform only with
    [use_by1xtransform]; jpegdec only together with videoconvert; and
    [nullptr] never comes with bayer2rgb or jpegdec required. *)
Theorem find_input_caps_modules (code : Fourcc.name -> Z) (lib : GstLib)
    (available wanted : option GstCaps) (modules : input_caps_required_modules)
    (toggles : input_caps_toggles) (r : option GstCaps)
    (required : input_caps_required_modules) :
  find_input_caps code lib available wanted modules toggles = Returns (r, required) ->
  (dutils required = true ->
     use_dutils toggles = true /\ videoconvert required = true
     /\ bayertransform required = false /\ bayer2rgb required = false
     /\ jpegdec required = false)
  /\ (bayertransform required = true -> use_by1xtransform toggles = true)
  /\ (jpegdec required = true -> videoconvert required = true)
  /\ (r = None -> bayer2rgb required = false /\ jpegdec required = false).
Proof.
  unfold find_input_caps, find_input_caps_dutils, find_input_caps_elements,
    by1xtransform_block, debayer_block, convert_block, jpegdec_block,
    raw_intersection, or_else.
  destruct toggles as [[] []]; cbn [use_dutils use_by1xtransform andb];
  repeat match goal with
         | |- context [match ?x with _ => _ end] =>
             match x with
             | context [match _ with _ => _ end] => fail 1
             | _ => destruct x eqn:?
             end
         end;
  intros H; inversion H; subst; simpl; repeat split; intros;
    try discriminate; try reflexivity.
Qed.

Lemma find_input_caps_modules_witness :
  let required := mkModules false true false false false in
  (dutils required = true ->
     use_dutils (mkToggles false false) = true /\ videoconvert required = true
     /\ bayertransform required = false /\ bayer2rgb required = false
     /\ jpegdec required = false)
  /\ (bayertransform required = true ->
      use_by1xtransform (mkToggles false false) = true)
  /\ (jpegdec required = true -> videoconvert required = true)
  /\ (Some [Sample.caps_entry "video/x-bayer" "rggb" 640 480 [(30, 1)]] = None ->
      bayer2rgb required = false /\ jpegdec required = false).
Proof.
  apply (find_input_caps_modules Sample.code Sample.plain_library
           (Some Sample.bayer_and_bgrx) (Some Sample.want_bgrx) no_modules
           (mkToggles false false)).
  reflexivity.
Defined.

End CapsFacts.

(** ** More on the pipeline manager *)

Module ManagerFacts.
Import Pipeline Scenario.

Lemma map_insert_same {A B} (g : A -> B) (l : list A) i f f' :
  l !! i = Some f -> g f' = g f -> map g (<[i := f']> l) = map g l.
Proof.
  intros Hi Hg. change (map g) with (fmap (M := list) g).
  rewrite list_fmap_insert, Hg. apply list_insert_id.
  rewrite list_lookup_fmap, Hi. reflexivity.
Qed.

Lemma settled_refl m : settled m m.
Proof. repeat split. Qed.

Lemma settled_trans m1 m2 m3 : settled m1 m2 -> settled m2 m3 -> settled m1 m3.
Proof.
  unfold settled. intros (-> & -> & -> & -> & -> & ->) (-> & -> & -> & -> & -> & ->).
  repeat split.
Qed.

Lemma same_converters_refl m : same_converters m m.
Proof. repeat split. Qed.

Lemma same_converters_trans m1 m2 m3 :
  same_converters m1 m2 -> same_converters m2 m3 -> same_converters m1 m3.
Proof.
  unfold same_converters. intros (-> & -> & ->) (-> & -> & ->). repeat split.
Qed.

Lemma filter_setVideoFormat_keeps i fin fout m :
  settled m (snd (filter_setVideoFormat i fin fout m))
  /\ same_converters m (snd (filter_setVideoFormat i fin fout m))
  /\ input_format (snd (filter_setVideoFormat i fin fout m)) = input_format m
  /\ filter_pipeline (snd (filter_setVideoFormat i fin fout m)) = filter_pipeline m.
Proof.
  unfold filter_setVideoFormat.
  destruct (available_filter m !! i) as [f|] eqn:Hi; [|repeat split].
  destruct (accepts_format f fin fout); simpl; [|repeat split].
  unfold settled, same_converters; simpl.
  rewrite (map_insert_same accepts_status _ i f) by (assumption || reflexivity).
  rewrite (map_insert_same (fun f => (getDescription f, accepts_format f)) _ i f)
    by (assumption || reflexivity).
  repeat split.
Qed.

Lemma converts_same m m' i :
  same_converters m m' -> converts m' i = converts m i.
Proof.
  intros (Ho & Hd & Hm). unfold converts, getDeviceFourcc. rewrite Ho, Hd.
  assert (Hl : (fun f => (getDescription f, accepts_format f)) <$> (available_filter m' !! i)
               = (fun f => (getDescription f, accepts_format f)) <$> (available_filter m !! i)).
  { rewrite <- !list_lookup_fmap.
    change (fmap (M := list) ?g ?l) with (map g l). rewrite Hm. reflexivity. }
  destruct (available_filter m' !! i) as [f'|], (available_filter m !! i) as [f|];
    simpl in Hl; try discriminate; [|reflexivity].
  injection Hl as Hdesc Hacc. unfold first_applicable. rewrite Hdesc, Hacc.
  reflexivity.
Qed.

(** One turn of the loop of [create_conversion_pipeline]. *)
Lemma conversion_step_spec m i :
  settled m (conversion_step (getDeviceFourcc m) m i)
  /\ same_converters m (conversion_step (getDeviceFourcc m) m i)
  /\ filter_pipeline (conversion_step (getDeviceFourcc m) m i)
     = (filter_pipeline m ++ if converts m i then [i] else [])%list
  /\ ((exists x, input_format m = set_fourcc (output_format m) x) ->
      exists x, input_format (conversion_step (getDeviceFourcc m) m i)
                = set_fourcc (output_format m) x).
Proof.
  unfold conversion_step, converts.
  destruct (available_filter m !! i) as [f|] eqn:Hi;
    [|rewrite app_nil_r; repeat split; intros H; exact H].
  destruct (type (getDescription f));
    try (rewrite app_nil_r; repeat split; intros H; exact H).
  destruct (isFilterApplicable _ _);
    [|rewrite app_nil_r; repeat split; intros H; exact H].
  destruct (first_applicable (getDeviceFourcc m) f) as [valid fourcc_to_use].
  cbn [fst snd andb].
  destruct valid.
  2:{ rewrite app_nil_r. repeat split. intros _. eexists. reflexivity. }
  set (m1 := create_input_format fourcc_to_use m).
  destruct (filter_setVideoFormat_keeps i (input_format m1) (output_format m1) m1)
    as (Hs & Hc & Hf & Hp).
  assert (Hok : fst (filter_setVideoFormat i (input_format m1) (output_format m1) m1)
                = accepts_format f (set_fourcc (output_format m) fourcc_to_use)
                    (output_format m)).
  { unfold filter_setVideoFormat. change (available_filter m1) with (available_filter m).
    rewrite Hi. unfold m1. simpl.
    destruct (accepts_format f _ _); reflexivity. }
  destruct (filter_setVideoFormat i (input_format m1) (output_format m1) m1)
    as [ok m2]. cbn [fst snd] in *. subst ok.
  assert (settled m m1) as Hs1 by repeat split.
  assert (same_converters m m1) as Hc1 by repeat split.
  destruct (accepts_format f _ _).
  - split; [eapply settled_trans; [exact Hs1|];
            eapply settled_trans; [exact Hs|repeat split]|].
    split; [eapply same_converters_trans; [exact Hc1|];
            eapply same_converters_trans; [exact Hc|repeat split]|].
    split; [simpl; rewrite Hp; reflexivity|].
    intros _. exists fourcc_to_use. simpl. rewrite Hf. reflexivity.
  - split; [eapply settled_trans; [exact Hs1|exact Hs]|].
    split; [eapply same_converters_trans; [exact Hc1|exact Hc]|].
    split; [rewrite app_nil_r, Hp; reflexivity|].
    intros _. exists fourcc_to_use. rewrite Hf. reflexivity.
Qed.

Lemma conversion_fold m l : forall m0,
  settled m m0 -> same_converters m m0 ->
  (exists x, input_format m0 = set_fourcc (output_format m) x) ->
  let m' := fold_left (conversion_step (getDeviceFourcc m)) l m0 in
  settled m m' /\ same_converters m m'
  /\ filter_pipeline m' = (filter_pipeline m0 ++ List.filter (converts m) l)%list
  /\ exists x, input_format m' = set_fourcc (output_format m) x.
Proof.
  induction l as [|i l IH]; intros m0 Hs Hc Hx; simpl.
  - rewrite app_nil_r. repeat split; try apply Hs; try apply Hc. exact Hx.
  - assert (Hdev : getDeviceFourcc m = getDeviceFourcc m0).
    { destruct Hc as (_ & Hd & _). unfold getDeviceFourcc. symmetry. exact Hd. }
    assert (Hout : output_format m0 = output_format m) by apply Hc.
    rewrite Hdev.
    destruct (conversion_step_spec m0 i) as (Hs1 & Hc1 & Hp1 & Hx1).
    rewrite <- Hdev in *.
    rewrite Hout in Hx1. specialize (Hx1 Hx).
    destruct (IH (conversion_step (getDeviceFourcc m) m0 i)
                (settled_trans _ _ _ Hs Hs1) (same_converters_trans _ _ _ Hc Hc1) Hx1)
      as (Hs2 & Hc2 & Hp2 & Hx2).
    split; [exact Hs2|]. split; [exact Hc2|]. split; [|exact Hx2].
    rewrite Hp2, Hp1, (converts_same m m0 i Hc).
    destruct (converts m i); simpl; rewrite <- app_assoc; reflexivity.
Qed.

(** With source and sink set, [create_conversion_pipeline] returns [true].
    It appends to the chain, in registry order, exactly the conversion
    filters that produce the fourcc asked for, take a fourcc of the device
    and accept the format pair; the output format stays, and the input
    format is the output format with, at most, another fourcc. *)
Theorem create_conversion_pipeline_chain (m : PipelineManager)
    (src : ImageSource) (snk : SinkInterface) :
  source m = Some src -> sink m = Some snk ->
  let m' := snd (create_conversion_pipeline m) in
  fst (create_conversion_pipeline m) = true
  /\ filter_pipeline m'
     = (filter_pipeline m
        ++ List.filter (converts m) (seq 0 (length (available_filter m))))%list
  /\ output_format m' = output_format m
  /\ (exists x, input_format m' = set_fourcc (output_format m) x)
  /\ status m' = status m /\ m_entry_queue m' = m_entry_queue m.
Proof.
  intros Hs Hk. unfold create_conversion_pipeline. rewrite Hs, Hk.
  cbn [fst snd]. split; [reflexivity|].
  set (m0 := create_input_format (get_fourcc (output_format m)) m).
  destruct (conversion_fold m (seq 0 (length (available_filter m))) m0)
    as (Hst & Hc & Hp & Hx).
  - repeat split.
  - repeat split.
  - exists (get_fourcc (output_format m)). reflexivity.
  - change (getDeviceFourcc m0) with (getDeviceFourcc m).
    change (available_filter m0) with (available_filter m).
    split; [exact Hp|]. split; [apply Hc|]. split; [exact Hx|].
    split; apply Hst.
Qed.

Lemma create_conversion_pipeline_chain_witness :
  fst (create_conversion_pipeline bridged_manager) = true
  /\ filter_pipeline (snd (create_conversion_pipeline bridged_manager)) = [1%nat]
  /\ input_format (snd (create_conversion_pipeline bridged_manager)) = format_640 1.
Proof.
  destruct (create_conversion_pipeline_chain bridged_manager
              willing_source willing_sink eq_refl eq_refl) as (H1 & H2 & _).
  split; [exact H1|]. split; [exact H2|reflexivity].
Defined.

(** [set_status(TCAM_PIPELINE_PLAYING)] on a manager without source or
    without sink returns [false] and leaves the state at error; nothing
    else changes and no collaborator is called. *)
Theorem set_status_playing_unattached (m : PipelineManager) :
  source m = None \/ sink m = None ->
  status m <> TCAM_PIPELINE_PLAYING ->
  set_status TCAM_PIPELINE_PLAYING m
  = Some (false, with_status TCAM_PIPELINE_ERROR m).
Proof.
  intros Hn Hs. unfold set_status.
  destruct (status_eqb (status m) TCAM_PIPELINE_PLAYING) eqn:He.
  { apply Manager.status_eqb_eq in He. contradiction. }
  unfold create_pipeline. simpl.
  destruct Hn as [-> | Hk]; [reflexivity|].
  rewrite Hk. destruct (source m); reflexivity.
Qed.

Lemma set_status_playing_unattached_witness :
  set_status TCAM_PIPELINE_PLAYING
    (with_sink None (stopped_manager willing_source willing_sink [] 1))
  = Some (false,
          with_status TCAM_PIPELINE_ERROR
            (with_sink None (stopped_manager willing_source willing_sink [] 1))).
Proof.
  apply (set_status_playing_unattached
           (with_sink None (stopped_manager willing_source willing_sink [] 1)));
    [right; reflexivity|discriminate].
Defined.

(** [destroyPipeline] always returns [true]; afterwards the state is
    stopped, source and sink are detached and the queue is as it was, and a
    following [set_status(TCAM_PIPELINE_PLAYING)] fails into the error
    state. *)
Theorem destroyPipeline_detaches (m : PipelineManager) :
  exists m',
    destroyPipeline m = Some (true, m')
    /\ status m' = TCAM_PIPELINE_STOPPED
    /\ source m' = None /\ sink m' = None
    /\ m_entry_queue m' = m_entry_queue m
    /\ set_status TCAM_PIPELINE_PLAYING m'
       = Some (false, with_status TCAM_PIPELINE_ERROR m').
Proof.
  unfold destroyPipeline.
  destruct (set_status TCAM_PIPELINE_STOPPED m) as [[b m1]|] eqn:Hs.
  2:{ unfold set_status in Hs.
      destruct (status_eqb (status m) TCAM_PIPELINE_STOPPED); discriminate. }
  assert (status m1 = TCAM_PIPELINE_STOPPED) as Hst.
  { unfold set_status in Hs.
    destruct (status_eqb (status m) TCAM_PIPELINE_STOPPED) eqn:He.
    - injection Hs as _ <-. apply Manager.status_eqb_eq. exact He.
    - injection Hs as _ <-. apply Manager.stop_playing_spec. }
  destruct (Manager.quiet_set_status _ _ _ Hs) as (_ & Hq & _). simpl in Hq.
  eexists. split; [reflexivity|]. simpl.
  split; [exact Hst|]. split; [reflexivity|]. split; [reflexivity|].
  split; [exact Hq|].
  apply set_status_playing_unattached; [left; reflexivity|].
  simpl. rewrite Hst. discriminate.
Qed.

(** While the state stays playing and a sink is attached, as many turns of
    the pipeline thread as there are buffers queued hand all of them to the
    sink, oldest first, and leave the thread waiting on an empty queue. *)
Theorem run_pipeline_drains (m : PipelineManager) :
  status m = TCAM_PIPELINE_PLAYING ->
  sink m <> None ->
  let m' := turns (length (m_entry_queue m)) m in
  delivered (calls m') = (delivered (calls m) ++ m_entry_queue m)%list
  /\ m_entry_queue m' = []
  /\ status m' = TCAM_PIPELINE_PLAYING
  /\ fst (run_pipeline_turn m') = waits.
Proof.
  remember (m_entry_queue m) as q eqn:Hq. revert m Hq.
  induction q as [|b q IH]; intros m Hq Hs Hk.
  - simpl. rewrite app_nil_r. split; [reflexivity|]. split; [symmetry; exact Hq|].
    split; [exact Hs|]. unfold run_pipeline_turn. rewrite Hs, <- Hq. reflexivity.
  - destruct (sink m) as [snk|] eqn:Hsink; [|contradiction].
    cbv zeta. cbn [length turns].
    rewrite (Manager.run_pipeline_turn_playing m b q snk Hs (eq_sym Hq) Hsink).
    set (m1 := record (call_sink_push_image b)
                 (record (call_property_filter_apply b) (with_entry_queue q m))).
    destruct (IH m1) as (H1 & H2 & H3 & H4);
      [reflexivity|exact Hs|unfold m1; simpl; rewrite Hsink; discriminate|].
    split; [|split; [exact H2|split; [exact H3|exact H4]]].
    rewrite H1. unfold m1. simpl. rewrite !Manager.delivered_app. simpl.
    rewrite app_nil_r, <- app_assoc. reflexivity.
Qed.

Lemma run_pipeline_drains_witness :
  delivered (calls (turns 3 busy_manager)) = [5%nat; 6%nat; 7%nat]
  /\ m_entry_queue (turns 3 busy_manager) = [].
Proof.
  destruct (run_pipeline_drains busy_manager) as (H1 & H2 & _);
    [reflexivity|discriminate|].
  split; [exact H1|exact H2].
Defined.

(** *** Playing and stopping with collaborators that agree *)

Lemma willing_settled m m' : willing m -> settled m m' -> willing m'.
Proof.
  intros (Hsrc & Hsnk & Hf) (_ & _ & Hs & Hk & _ & Hm). unfold willing.
  rewrite Hs, Hk. split; [exact Hsrc|]. split; [exact Hsnk|].
  apply (proj1 (Forall_map accepts_status
                  (fun a => a TCAM_PIPELINE_STOPPED = true) _)).
  rewrite Hm. apply Forall_map. exact Hf.
Qed.

Lemma create_conversion_pipeline_settled m src snk :
  source m = Some src -> sink m = Some snk ->
  fst (create_conversion_pipeline m) = true
  /\ settled m (snd (create_conversion_pipeline m)).
Proof.
  intros Hs Hk. unfold create_conversion_pipeline. rewrite Hs, Hk.
  cbn [fst snd]. split; [reflexivity|].
  set (m0 := create_input_format (get_fourcc (output_format m)) m).
  destruct (conversion_fold m (seq 0 (length (available_filter m))) m0)
    as (Hst & _).
  - repeat split.
  - repeat split.
  - exists (get_fourcc (output_format m)). reflexivity.
  - exact Hst.
Qed.

Lemma create_pipeline_willing m :
  willing m ->
  fst (create_pipeline m) = true /\ settled m (snd (create_pipeline m)).
Proof.
  intros ((src & Hs & Hss & Hsf & Hsb) & (snk & Hk & Hks & Hkf) & Hf).
  unfold create_pipeline. rewrite Hs, Hk.
  destruct (create_conversion_pipeline_settled (with_filter_pipeline [] m) src snk
              Hs Hk) as [Hok Hst].
  destruct (create_conversion_pipeline (with_filter_pipeline [] m)) as [ok m1].
  cbn [fst snd] in *. subst ok. cbn [negb].
  rewrite Hsf, Hkf, Hsb. cbn [negb fst snd]. split; [reflexivity|].
  assert (settled m (with_filter_pipeline [] m)) as H0 by repeat split.
  eapply settled_trans; [exact H0|]. eapply settled_trans; [exact Hst|].
  repeat split.
Qed.

Lemma stop_filters_willing fs : forall m,
  Forall (fun f => accepts_status f TCAM_PIPELINE_STOPPED = true) (available_filter m) ->
  fst (stop_filters fs m) = true.
Proof.
  induction fs as [|f fs IH]; intros m Hf; simpl; [reflexivity|].
  unfold filter_setStatus.
  destruct (available_filter m !! f) as [x|] eqn:Hx.
  - rewrite (Forall_lookup_1 _ _ _ _ Hf Hx). cbn [negb]. apply IH. exact Hf.
  - cbn [negb]. apply IH. exact Hf.
Qed.

Lemma start_playing_willing m :
  willing m -> joinable (m_pipeline_thread m) = false ->
  start_playing m
  = Some (true,
          with_thread running
            (record call_thread_start
               (with_status TCAM_PIPELINE_PLAYING
                  (record (call_property_filter_setStatus TCAM_PIPELINE_PLAYING)
                     (record (call_source_set_status TCAM_PIPELINE_PLAYING)
                        (record (call_sink_set_status TCAM_PIPELINE_PLAYING) m)))))).
Proof.
  intros ((src & Hs & Hss & _) & (snk & Hk & Hks & _) & _) Hj.
  unfold start_playing, set_sink_status, set_source_status.
  rewrite Hk, Hks. cbn [negb]. simpl source. rewrite Hs, Hss. cbn [negb].
  simpl m_pipeline_thread. rewrite Hj. reflexivity.
Qed.

Lemma stop_playing_willing m : willing m -> fst (stop_playing m) = true.
Proof.
  intros ((src & Hs & Hss & _) & _ & Hf).
  unfold stop_playing, set_source_status. simpl source. rewrite Hs, Hss.
  cbn [negb].
  match goal with
  | |- context [stop_filters ?fs ?x] =>
      pose proof (stop_filters_willing fs x Hf) as Hok;
      destruct (stop_filters fs x) as [ok m2]
  end.
  cbn [fst] in Hok. subst ok. reflexivity.
Qed.

(** With a source and a sink that agree to everything and filters that
    agree to stop, playing from a state with no thread succeeds and leaves
    the state playing with the thread started; stopping then succeeds and
    leaves the state stopped with the thread joined; the queue is not
    touched by either. *)
Theorem play_then_stop (m : PipelineManager) :
  willing m ->
  status m <> TCAM_PIPELINE_PLAYING ->
  m_pipeline_thread m = not_joinable ->
  exists m1 m2,
    set_status TCAM_PIPELINE_PLAYING m = Some (true, m1)
    /\ status m1 = TCAM_PIPELINE_PLAYING
    /\ m_pipeline_thread m1 = running
    /\ set_status TCAM_PIPELINE_STOPPED m1 = Some (true, m2)
    /\ status m2 = TCAM_PIPELINE_STOPPED
    /\ m_pipeline_thread m2 = not_joinable
    /\ m_entry_queue m2 = m_entry_queue m.
Proof.
  intros Hw Hs Ht.
  assert (willing (with_status TCAM_PIPELINE_PLAYING m)) as Hw0 by exact Hw.
  destruct (create_pipeline_willing _ Hw0) as [Hok Hst].
  destruct (create_pipeline (with_status TCAM_PIPELINE_PLAYING m)) as [ok mc] eqn:Hc.
  cbn [fst snd] in *. subst ok.
  pose proof (willing_settled _ _ Hw0 Hst) as Hwc.
  assert (joinable (m_pipeline_thread mc) = false) as Hj.
  { destruct Hst as (_ & -> & _). simpl. rewrite Ht. reflexivity. }
  pose proof (start_playing_willing mc Hwc Hj) as Hp.
  eexists. eexists.
  split.
  { unfold set_status.
    destruct (status_eqb (status m) TCAM_PIPELINE_PLAYING) eqn:He;
      [apply Manager.status_eqb_eq in He; contradiction|].
    rewrite Hc, Hp. reflexivity. }
  split; [reflexivity|]. split; [reflexivity|].
  match goal with
  | |- set_status _ ?x = _ /\ _ => set (m1 := x)
  end.
  assert (willing (with_status TCAM_PIPELINE_STOPPED m1)) as Hw1 by exact Hwc.
  split; [unfold set_status; reflexivity|].
  destruct (Manager.stop_playing_spec (with_status TCAM_PIPELINE_STOPPED m1))
    as (H1 & H2 & _).
  split; [exact H1|]. split; [apply H2, stop_playing_willing, Hw1|].
  destruct (Manager.quiet_stop_playing (with_status TCAM_PIPELINE_STOPPED m1))
    as (_ & Hq & _).
  etransitivity; [exact Hq|]. unfold m1. simpl.
  destruct Hst as (_ & _ & _ & _ & Hqc & _). exact Hqc.
Qed.

Lemma play_then_stop_witness :
  exists m1 m2,
    set_status TCAM_PIPELINE_PLAYING bridged_manager = Some (true, m1)
    /\ status m1 = TCAM_PIPELINE_PLAYING
    /\ m_pipeline_thread m1 = running
    /\ set_status TCAM_PIPELINE_STOPPED m1 = Some (true, m2)
    /\ status m2 = TCAM_PIPELINE_STOPPED
    /\ m_pipeline_thread m2 = not_joinable
    /\ m_entry_queue m2 = m_entry_queue bridged_manager.
Proof.
  apply (play_then_stop bridged_manager); [|discriminate|reflexivity].
  split; [exists willing_source; repeat split|].
  split; [exists willing_sink; repeat split|].
  repeat constructor.
Defined.

(** [set_status(TCAM_PIPELINE_PLAYING)] on a manager whose thread object is
    still joinable does not return: the new thread is assigned to a joinable
    [std::thread].  That is the case after a pause: pausing a playing
    manager succeeds, and playing again ends the process. *)
Theorem play_with_joinable_thread (m : PipelineManager) :
  willing m ->
  joinable (m_pipeline_thread m) = true ->
  (status m <> TCAM_PIPELINE_PLAYING ->
   set_status TCAM_PIPELINE_PLAYING m = None)
  /\ (status m = TCAM_PIPELINE_PLAYING ->
      set_status TCAM_PIPELINE_PAUSED m
      = Some (true, with_status TCAM_PIPELINE_PAUSED m)
      /\ set_status TCAM_PIPELINE_PLAYING (with_status TCAM_PIPELINE_PAUSED m) = None).
Proof.
  intros Hw Hj.
  assert (Hgen : forall x, willing x -> joinable (m_pipeline_thread x) = true ->
            status x <> TCAM_PIPELINE_PLAYING ->
            set_status TCAM_PIPELINE_PLAYING x = None).
  { intros x Hx Hjx Hsx. unfold set_status.
    destruct (status_eqb (status x) TCAM_PIPELINE_PLAYING) eqn:He;
      [apply Manager.status_eqb_eq in He; contradiction|].
    assert (willing (with_status TCAM_PIPELINE_PLAYING x)) as Hx0 by exact Hx.
    destruct (create_pipeline_willing _ Hx0) as [Hok Hst].
    destruct (create_pipeline (with_status TCAM_PIPELINE_PLAYING x)) as [ok mc].
    cbn [fst snd] in *. subst ok.
    destruct (willing_settled _ _ Hx0 Hst)
      as ((src & Hs & Hss & _) & (snk & Hk & Hks & _) & _).
    unfold start_playing, set_sink_status, set_source_status.
    rewrite Hk, Hks. cbn [negb]. simpl source. rewrite Hs, Hss. cbn [negb].
    simpl m_pipeline_thread. destruct Hst as (_ & -> & _). simpl.
    rewrite Hjx. reflexivity. }
  split; [apply Hgen; assumption|].
  intros Hs. split.
  - unfold set_status. rewrite Hs. reflexivity.
  - apply Hgen; [exact Hw|exact Hj|discriminate].
Qed.

Lemma play_with_joinable_thread_witness :
  set_status TCAM_PIPELINE_PAUSED busy_manager
  = Some (true, with_status TCAM_PIPELINE_PAUSED busy_manager)
  /\ set_status TCAM_PIPELINE_PLAYING (with_status TCAM_PIPELINE_PAUSED busy_manager)
     = None.
Proof.
  apply (play_with_joinable_thread busy_manager); [|reflexivity|reflexivity].
  split; [exists willing_source; repeat split|].
  split; [exists willing_sink; repeat split|].
  constructor.
Defined.

(** *** The order of the calls of [stop_playing] *)

Lemma stop_filters_calls fs : forall m,
  fst (stop_filters fs m) = true ->
  calls (snd (stop_filters fs m))
  = (calls m
     ++ flat_map (fun i =>
                    match available_filter m !! i with
                    | Some _ => [call_filter_setStatus i TCAM_PIPELINE_STOPPED]
                    | None => []
                    end) fs)%list
  /\ sink (snd (stop_filters fs m)) = sink m
  /\ m_pipeline_thread (snd (stop_filters fs m)) = m_pipeline_thread m.
Proof.
  induction fs as [|f fs IH]; intros m; cbn [stop_filters flat_map].
  { intros _. cbn [snd]. rewrite app_nil_r. repeat split. }
  unfold filter_setStatus.
  destruct (available_filter m !! f) as [x|] eqn:Hx.
  - destruct (accepts_status x TCAM_PIPELINE_STOPPED); cbn [negb fst];
      [|discriminate].
    intros H. destruct (IH _ H) as (H1 & H2 & H3).
    rewrite H1, H2, H3. cbn [calls sink m_pipeline_thread record available_filter].
    rewrite <- app_assoc. repeat split.
  - cbn [negb]. intros H. destruct (IH _ H) as (H1 & H2 & H3).
    rewrite H1, H2, H3. repeat split.
Qed.

(** When [stop_playing] returns true it has called, in this order and
    nothing else: the condition variable, the source, each filter of the
    chain in chain order, the sink if one is attached, the property filter,
    and the thread's [join] if the thread was joinable. *)
Theorem stop_playing_order (m : PipelineManager) :
  fst (stop_playing m) = true ->
  calls (snd (stop_playing m))
  = (calls m
     ++ [call_cv_notify_all; call_source_set_status TCAM_PIPELINE_STOPPED]
     ++ stop_calls m
     ++ match sink m with
        | Some _ => [call_sink_set_status TCAM_PIPELINE_STOPPED]
        | None => []
        end
     ++ [call_property_filter_setStatus TCAM_PIPELINE_STOPPED]
     ++ (if joinable (m_pipeline_thread m) then [call_thread_join] else []))%list.
Proof.
  unfold stop_playing, set_source_status. simpl source.
  destruct (source m) as [src|]; [|discriminate].
  destruct (source_set_status src TCAM_PIPELINE_STOPPED); cbn [negb];
    [|discriminate].
  match goal with
  | |- context [stop_filters ?fs ?x] =>
      pose proof (stop_filters_calls fs x) as Hf;
      destruct (stop_filters fs x) as [ok m2]
  end.
  cbn [fst snd] in Hf. destruct ok; cbn [negb fst snd]; [|discriminate].
  intros _. destruct (Hf eq_refl) as (H1 & H2 & H3). clear Hf.
  simpl in H1, H2, H3. unfold set_sink_status. rewrite H2.
  unfold stop_calls.
  destruct (sink m); cbn [snd]; simpl m_pipeline_thread; rewrite H3;
    destruct (m_pipeline_thread m); simpl; rewrite H1;
    rewrite <- ?app_assoc; reflexivity.
Qed.

Lemma stop_playing_order_witness :
  calls (snd (stop_playing busy_manager))
  = (calls busy_manager
     ++ [call_cv_notify_all; call_source_set_status TCAM_PIPELINE_STOPPED]
     ++ stop_calls busy_manager
     ++ match sink busy_manager with
        | Some _ => [call_sink_set_status TCAM_PIPELINE_STOPPED]
        | None => []
        end
     ++ [call_property_filter_setStatus TCAM_PIPELINE_STOPPED]
     ++ (if joinable (m_pipeline_thread busy_manager) then [call_thread_join] else []))%list.
Proof.
  apply (stop_playing_order busy_manager). reflexivity.
Defined.

End ManagerFacts.

(** ** The capture device: [open_device], [start_stream], [stop_stream],
    [close_device] *)
Module DeviceFacts.
Import Pipeline CaptureDevice.

Lemma set_fourcc_get_fourcc f : set_fourcc f (get_fourcc f) = f.
Proof. destruct f. reflexivity. Qed.

(** [start_stream] on an open device whose pipeline is playing or paused
    returns false at [setSink]: the sink is not attached, no collaborator is
    called and the device is as before. *)
Theorem start_stream_while_streaming (snk : SinkInterface)
    (c : CaptureDeviceImpl) (p : PipelineManager) :
  is_device_open c = true ->
  pipeline c = Some p ->
  status p = TCAM_PIPELINE_PLAYING \/ status p = TCAM_PIPELINE_PAUSED ->
  start_stream snk c = Some (false, c).
Proof.
  intros Ho Hp Hs. unfold start_stream. rewrite Ho, Hp. cbn [negb].
  unfold setSink. destruct c as [pc dc]. simpl in *. subst pc.
  destruct Hs as [-> | ->]; reflexivity.
Qed.

Lemma start_stream_while_streaming_witness :
  start_stream Scenario.refusing_sink
    (mkCapture (Some Scenario.busy_manager)
               (Some (mkDevice [1] Scenario.willing_source)))
  = Some (false,
          mkCapture (Some Scenario.busy_manager)
                    (Some (mkDevice [1] Scenario.willing_source))).
Proof.
  apply (start_stream_while_streaming _ _ Scenario.busy_manager);
    [reflexivity|reflexivity|left; reflexivity].
Defined.

(** [stop_stream] on an open device reports success whatever the source,
    the filters and the sink answer: [set_status(TCAM_PIPELINE_STOPPED)]
    drops the result of [stop_playing].  The pipeline is stopped afterwards
    and its queue is untouched. *)
Theorem stop_stream_reports_success (c : CaptureDeviceImpl)
    (p : PipelineManager) :
  is_device_open c = true ->
  pipeline c = Some p ->
  exists p',
    stop_stream c = Some (true, mkCapture (Some p') (device c))
    /\ status p' = TCAM_PIPELINE_STOPPED
    /\ m_entry_queue p' = m_entry_queue p.
Proof.
  intros Ho Hp. unfold stop_stream. rewrite Ho, Hp. cbn [negb].
  destruct (set_status TCAM_PIPELINE_STOPPED p) as [[r p']|] eqn:Hs.
  - pose proof (Manager.quiet_set_status _ _ _ Hs) as (_ & Hq & _).
    cbn [snd] in Hq. unfold set_status in Hs.
    destruct (status_eqb (status p) TCAM_PIPELINE_STOPPED) eqn:He.
    + injection Hs as <- <-. apply Manager.status_eqb_eq in He.
      exists p. repeat split; assumption.
    + injection Hs as <- <-. eexists. split; [reflexivity|].
      split; [|exact Hq].
      apply (Manager.stop_playing_spec (with_status TCAM_PIPELINE_STOPPED p)).
  - unfold set_status in Hs.
    destruct (status_eqb (status p) TCAM_PIPELINE_STOPPED); discriminate.
Qed.

Lemma stop_stream_reports_success_witness :
  exists p',
    stop_stream (mkCapture (Some Scenario.busy_manager)
                           (Some (mkDevice [1] Scenario.clinging_source)))
    = Some (true, mkCapture (Some p')
                    (Some (mkDevice [1] Scenario.clinging_source)))
    /\ status p' = TCAM_PIPELINE_STOPPED
    /\ m_entry_queue p' = m_entry_queue Scenario.busy_manager.
Proof.
  apply (stop_stream_reports_success
           (mkCapture (Some Scenario.busy_manager)
                      (Some (mkDevice [1] Scenario.clinging_source)))
           Scenario.busy_manager); reflexivity.
Defined.

(** [close_device] always returns true when an open device has its
    pipeline; afterwards the device is closed, a second [close_device]
    changes nothing, and [start_stream] and [stop_stream] return false
    without any effect. *)
Theorem close_device_closes (c : CaptureDeviceImpl) :
  (is_device_open c = true -> pipeline c <> None) ->
  exists c',
    close_device c = Some (true, c')
    /\ is_device_open c' = false
    /\ close_device c' = Some (true, c')
    /\ (forall snk, start_stream snk c' = Some (false, c'))
    /\ stop_stream c' = Some (false, c').
Proof.
  intros H. destruct c as [[p|] [d|]]; unfold close_device; cbn.
  - unfold destroyPipeline, set_status.
    destruct (status_eqb (status p) TCAM_PIPELINE_STOPPED);
      eexists; repeat split.
  - eexists; repeat split.
  - exfalso. apply H; reflexivity.
  - eexists; repeat split.
Qed.

Lemma close_device_closes_witness :
  exists c',
    close_device (opened (mkDevice [1] Scenario.willing_source)) = Some (true, c')
    /\ is_device_open c' = false
    /\ close_device c' = Some (true, c')
    /\ (forall snk, start_stream snk c' = Some (false, c'))
    /\ stop_stream c' = Some (false, c').
Proof.
  apply (close_device_closes (opened (mkDevice [1] Scenario.willing_source))).
  discriminate.
Defined.

(** A device opened on a fresh manager, given a format by
    [setVideoFormat], and started with a source and a sink that agree:
    [start_stream] returns true, the pipeline is playing with its thread
    started and an empty filter chain, and these are all the calls the
    manager has made since it was constructed, in order: [setSource] asks
    the device for its formats, gives the new source the manager and the
    device and asks the device for its properties; [setSink] gives the sink
    the manager; the source and the sink are given the requested format
    unchanged; the buffer collection of the sink is handed to the source;
    the property filter is given the format; then the sink, the source and
    the property filter are set playing, and the thread starts last. *)
Theorem start_stream_after_open (d : DeviceInterface) (snk : SinkInterface)
    (f : VideoFormat) :
  (forall s, source_set_status (device_source d) s = true) ->
  (forall g, source_setVideoFormat (device_source d) g = true) ->
  source_set_buffer_collection (device_source d) = true ->
  (forall s, sink_set_status snk s = true) ->
  (forall g, sink_setVideoFormat snk g = true) ->
  match pipeline (opened d) with
  | None => False
  | Some p0 =>
      exists p',
        start_stream snk (mkCapture (Some (snd (setVideoFormat f p0))) (Some d))
        = Some (true, mkCapture (Some p') (Some d))
        /\ status p' = TCAM_PIPELINE_PLAYING
        /\ m_pipeline_thread p' = running
        /\ sink p' = Some snk
        /\ filter_pipeline p' = []
        /\ input_format p' = f
        /\ calls p'
           = [ call_device_get_available_video_formats;
               call_source_setSink;
               call_source_setDevice;
               call_device_get_properties;
               call_sink_set_source;
               call_source_setVideoFormat f;
               call_sink_setVideoFormat f;
               call_sink_get_buffer_collection;
               call_source_set_buffer_collection;
               call_property_filter_setVideoFormat f f;
               call_sink_set_status TCAM_PIPELINE_PLAYING;
               call_source_set_status TCAM_PIPELINE_PLAYING;
               call_property_filter_setStatus TCAM_PIPELINE_PLAYING;
               call_thread_start ]
  end.
Proof.
  intros Hss Hsf Hsb Hks Hkf.
  destruct d as [fmts [ss sf sb]], snk as [ks kf], f as [fc fw fh fr].
  cbn [device_source source_set_status source_setVideoFormat
       source_set_buffer_collection sink_set_status sink_setVideoFormat] in *.
  unfold opened, setSource. cbn [status pipeline snd].
  match goal with
  | |- context [snd ?x] =>
      replace (snd x)
        with (mkManager TCAM_PIPELINE_UNDEFINED (Some (mkSource ss sf sb)) None
                fmts (mkFormat 0 0 0 0) (mkFormat 0 0 0 0) [] [] []
                not_joinable
                [call_device_get_available_video_formats; call_source_setSink;
                 call_source_setDevice; call_device_get_properties])
        by (destruct fmts; reflexivity)
  end.
  unfold start_stream, setSink, setVideoFormat, set_status, create_pipeline,
    create_conversion_pipeline, start_playing, set_sink_status,
    set_source_status.
  cbv. rewrite Hsf. cbv. rewrite Hkf. cbv. rewrite ?Hsb. cbv.
  rewrite Hks. cbv. rewrite Hss. cbv.
  eexists. split; [reflexivity|]. repeat split.
Qed.

Lemma start_stream_after_open_witness :
  exists p',
    start_stream Scenario.willing_sink
      (mkCapture
         (Some (snd (setVideoFormat (Scenario.format_640 1)
            (snd (setSource (mkDevice [1] Scenario.willing_source)
               (mkManager TCAM_PIPELINE_UNDEFINED None None []
                  (mkFormat 0 0 0 0) (mkFormat 0 0 0 0) [] [] []
                  not_joinable []))))))
         (Some (mkDevice [1] Scenario.willing_source)))
    = Some (true, mkCapture (Some p') (Some (mkDevice [1] Scenario.willing_source)))
    /\ status p' = TCAM_PIPELINE_PLAYING
    /\ m_pipeline_thread p' = running
    /\ sink p' = Some Scenario.willing_sink
    /\ filter_pipeline p' = []
    /\ input_format p' = (Scenario.format_640 1)
    /\ calls p'
       = [ call_device_get_available_video_formats;
           call_source_setSink;
           call_source_setDevice;
           call_device_get_properties;
           call_sink_set_source;
           call_source_setVideoFormat (Scenario.format_640 1);
           call_sink_setVideoFormat (Scenario.format_640 1);
           call_sink_get_buffer_collection;
           call_source_set_buffer_collection;
           call_property_filter_setVideoFormat (Scenario.format_640 1) (Scenario.format_640 1);
           call_sink_set_status TCAM_PIPELINE_PLAYING;
           call_source_set_status TCAM_PIPELINE_PLAYING;
           call_property_filter_setStatus TCAM_PIPELINE_PLAYING;
           call_thread_start ].
Proof.
  exact (start_stream_after_open (mkDevice [1] Scenario.willing_source)
           Scenario.willing_sink (Scenario.format_640 1)
           (fun _ => eq_refl) (fun _ => eq_refl) eq_refl
           (fun _ => eq_refl) (fun _ => eq_refl)).
Defined.

End DeviceFacts.
